(** * Deep-research pipeline: text normalizer, stages and graph driver

    A shallow embedding of [deep_research/pipeline.py] and
    [deep_research/states.py].

    Python [str] values are sequences of Unicode code points, so they are
    modelled as lists of code points; indices returned by [str.find] and
    used in slices are Python integers, modelled in [Z]. *)

From Stdlib Require Import String Ascii.
From Stdlib Require Import List ZArith NArith Lia Bool.
Import ListNotations.

Open Scope string_scope.
Open Scope list_scope.
Set Warnings "-register-all".

(** ** Python strings *)

Module PyStr.

Definition char := N.
Definition str := list char.

(** A literal of the source, given by its ASCII spelling. *)
Definition lit (s : string) : str :=
  map N_of_ascii (list_ascii_of_string s).

(** The newline escape of the source's literals. *)
Definition NL : str := [10%N].

Definition char_eqb (a b : char) : bool := N.eqb a b.

Fixpoint str_eqb (a b : str) : bool :=
  match a, b with
  | [], [] => true
  | x :: a', y :: b' => char_eqb x y && str_eqb a' b'
  | _, _ => false
  end.

(** [s.startswith(pat)] *)
Fixpoint starts_with (pat s : str) : bool :=
  match pat, s with
  | [], _ => true
  | p :: pat', c :: s' => char_eqb p c && starts_with pat' s'
  | _ :: _, [] => false
  end.

(** Offset of the leftmost occurrence of [pat] in [s], if any. *)
Fixpoint index (pat s : str) : option nat :=
  if starts_with pat s then Some 0%nat
  else match s with
       | [] => None
       | _ :: s' => option_map S (index pat s')
       end.

(** [s.find(pat)]: the leftmost offset, or -1. *)
Definition find (pat s : str) : Z :=
  match index pat s with
  | Some i => Z.of_nat i
  | None => (-1)%Z
  end.

(** [pat in s] *)
Definition contains (pat s : str) : bool :=
  match index pat s with
  | Some _ => true
  | None => false
  end.

(** Slice bounds: a negative bound counts from the end, and every bound is
    clamped to the length. *)
Definition clamp (len : nat) (i : Z) : nat :=
  if (i <? 0)%Z then Z.to_nat (Z.max 0 (Z.of_nat len + i))
  else Nat.min (Z.to_nat i) len.

(** [s[lo:hi]], either bound possibly omitted. *)
Definition slice (s : str) (lo hi : option Z) : str :=
  let a := match lo with None => 0%nat | Some i => clamp (length s) i end in
  let b := match hi with None => length s | Some j => clamp (length s) j end in
  skipn a (firstn b s).

(** [c.isspace()] for a single code point. *)
Definition isspace (c : char) : bool :=
  ((9 <=? c) && (c <=? 13) || (28 <=? c) && (c <=? 32)
   || (c =? 133) || (c =? 160) || (c =? 5760)
   || (8192 <=? c) && (c <=? 8202)
   || (c =? 8232) || (c =? 8233) || (c =? 8239) || (c =? 8287)
   || (c =? 12288))%N.

Fixpoint lstrip (s : str) : str :=
  match s with
  | c :: s' => if isspace c then lstrip s' else s
  | [] => []
  end.

Definition rstrip (s : str) : str := rev (lstrip (rev s)).

(** [s.strip()] *)
Definition strip (s : str) : str := rstrip (lstrip s).

(** Concatenation of a list of strings, [''.join(parts)]. *)
Definition join (parts : list str) : str := concat parts.

End PyStr.
Import PyStr.

(** ** Thinking-marker stripper *)

Definition THINK_OPEN : str := lit "<think>".
Definition THINK_CLOSE : str := lit "</think>".

(** The [while] loop of [_strip_thinking_tokens], with a bound on the number
    of iterations: [None] means the bound was reached with the loop condition
    still true. *)
Fixpoint strip_loop (fuel : nat) (thoughts text : str) : option (str * str) :=
  if contains THINK_OPEN text && contains THINK_CLOSE text then
    match fuel with
    | O => None
    | S fuel' =>
        let s := find THINK_OPEN text in
        let e := find THINK_CLOSE text in
        let thoughts' :=
          thoughts ++ strip (slice text (Some (s + 7)%Z) (Some e)) ++ NL ++ NL in
        let text' :=
          slice text None (Some s) ++ slice text (Some (e + 8)%Z) None in
        strip_loop fuel' thoughts' text'
    end
  else Some (thoughts, text).

Definition _strip_thinking_tokens (fuel : nat) (text : str) : option (str * str) :=
  match strip_loop fuel [] text with
  | Some (thoughts, text') => Some (strip thoughts, strip text')
  | None => None
  end.

(** ** Regular expressions of the math-delimiter normalizer

    The three patterns of the source have the shape "opening literal, lazy
    [.*?] under DOTALL, closing literal".  An anchored matcher returns the
    number of characters consumed and the text of capture group 1. *)

Module Re.

Definition matcher := str -> option (nat * str).

(** [op(.*?)cl] anchored at the head of [s]: the lazy star stops at the
    leftmost [cl] after [op]. *)
Definition lazy_between (op cl : str) : matcher := fun s =>
  if starts_with op s then
    match index cl (skipn (length op) s) with
    | Some j =>
        Some ((length op + j + length cl)%nat, firstn j (skipn (length op) s))
    | None => None
    end
  else None.

(** [(r)] where the whole match is the group. *)
Definition whole (m : matcher) : matcher := fun s =>
  match m s with
  | Some (n, _) => Some (n, firstn n s)
  | None => None
  end.

(** [r1|r2]: the second alternative is tried only when the first fails. *)
Definition alt (m1 m2 : matcher) : matcher := fun s =>
  match m1 s with
  | Some r => Some r
  | None => m2 s
  end.

(** Leftmost match: start offset, length and group 1. *)
Fixpoint search (m : matcher) (s : str) : option (nat * nat * str) :=
  match m s with
  | Some (n, g) => Some (0%nat, n, g)
  | None =>
      match s with
      | [] => None
      | _ :: s' =>
          match search m s' with
          | Some (i, n, g) => Some (S i, n, g)
          | None => None
          end
      end
  end.

(** [re.split] for a pattern with one capture group: text before each
    match, then the group, and finally the remaining text. *)
Fixpoint split_fuel (fuel : nat) (m : matcher) (s : str) : list str :=
  match fuel with
  | O => [s]
  | S fuel' =>
      match search m s with
      | Some (i, n, g) => firstn i s :: g :: split_fuel fuel' m (skipn (i + n) s)
      | None => [s]
      end
  end.

(** Every match of the source's patterns is at least two characters long, so
    [length s] rounds are enough. *)
Definition split (m : matcher) (s : str) : list str :=
  split_fuel (length s) m s.

(** [re.sub] with a replacement computed from group 1. *)
Fixpoint sub_fuel (fuel : nat) (m : matcher) (repl : str -> str) (s : str) : str :=
  match fuel with
  | O => s
  | S fuel' =>
      match search m s with
      | Some (i, n, g) =>
          firstn i s ++ repl g ++ sub_fuel fuel' m repl (skipn (i + n) s)
      | None => s
      end
  end.

Definition sub (m : matcher) (repl : str -> str) (s : str) : str :=
  sub_fuel (length s) m repl s.

End Re.

(** [_CODE_BLOCK_RE = (```.*?```|`.*?`)] with DOTALL *)
Definition _CODE_BLOCK_RE : Re.matcher :=
  Re.whole (Re.alt (Re.lazy_between (lit "```") (lit "```"))
                   (Re.lazy_between (lit "`") (lit "`"))).

Definition DISPLAY_OPEN : str := [92; 91]%N.   (* \[ *)
Definition DISPLAY_CLOSE : str := [92; 93]%N.  (* \] *)
Definition INLINE_OPEN : str := [92; 40]%N.    (* \( *)
Definition INLINE_CLOSE : str := [92; 41]%N.   (* \) *)
Definition DOLLAR : str := [36]%N.

Definition DISPLAY_RE : Re.matcher := Re.lazy_between DISPLAY_OPEN DISPLAY_CLOSE.
Definition INLINE_RE : Re.matcher := Re.lazy_between INLINE_OPEN INLINE_CLOSE.

(** The body of the [for] loop: both substitutions on one non-code segment. *)
Definition normalize_segment (seg : str) : str :=
  let seg := Re.sub DISPLAY_RE (fun g => DOLLAR ++ DOLLAR ++ g ++ DOLLAR ++ DOLLAR) seg in
  let seg := Re.sub INLINE_RE (fun g => DOLLAR ++ g ++ DOLLAR) seg in
  seg.

(** [for i in range(0, len(parts), 2): parts[i] = f(parts[i])] *)
Fixpoint map_even (f : str -> str) (parts : list str) : list str :=
  match parts with
  | [] => []
  | seg :: rest =>
      f seg :: match rest with
               | [] => []
               | code :: rest' => code :: map_even f rest'
               end
  end.

Definition _normalize_latex (text : str) : str :=
  let parts := Re.split _CODE_BLOCK_RE text in
  join (map_even normalize_segment parts).

(** ** Python values

    Values that come out of [json.loads], are stored in the state without
    any check of the annotated type, or are sent to the notifier. *)

(** A [float] produced by the decoder: the double nearest to the decimal
    [mant * 10^exp10] it read, or one of the non-finite constants. *)
Inductive pyfloat :=
| FNaN
| FInf (neg : bool)
| FDec (neg : bool) (mant : N) (exp10 : Z).

Inductive pyval :=
| PNone
| PBool (b : bool)
| PInt (z : Z)
| PFloat (f : pyfloat)
| PStr (s : str)
| PList (l : list pyval)
| PDict (kvs : list (str * pyval)).

(** A decimal rounds to the double [0.0] exactly when it is at most
    [2^-1075 = 5^1075 * 10^-1075]. *)
Definition decimal_is_zero (mant : N) (exp10 : Z) : bool :=
  if (mant =? 0)%N then true
  else
    let k := (exp10 + 1075)%Z in
    if (752 <=? k)%Z then false
    else if (0 <=? k)%Z then (Z.of_N mant * 10 ^ k <=? 5 ^ 1075)%Z
    else if (Z.of_N (N.log2 mant) + 1 <=? - k)%Z then true
    else (Z.of_N mant <=? 5 ^ 1075 * 10 ^ (- k))%Z.

(** [bool(v)] *)
Definition truthy (v : pyval) : bool :=
  match v with
  | PNone => false
  | PBool b => b
  | PInt z => negb (z =? 0)%Z
  | PFloat FNaN => true
  | PFloat (FInf _) => true
  | PFloat (FDec _ m e) => negb (decimal_is_zero m e)
  | PStr s => match s with [] => false | _ => true end
  | PList l => match l with [] => false | _ => true end
  | PDict kvs => match kvs with [] => false | _ => true end
  end.

(** [a or b] *)
Definition por (a b : pyval) : pyval := if truthy a then a else b.

Inductive exn :=
| JSONDecodeError
| KeyError (key : str)
| TypeError
| AttributeError
| IndexError
| GraphRecursionError
| ExternalError (tag : nat)      (* any other subclass of [Exception] *)
| BaseError (tag : nat).         (* a [BaseException] outside [Exception] *)

(** Whether [except Exception] catches it. *)
Definition is_Exception (e : exn) : bool :=
  match e with
  | BaseError _ => false
  | _ => true
  end.

Definition pydict := list (str * pyval).

Fixpoint dict_lookup (k : str) (kvs : pydict) : option pyval :=
  match kvs with
  | [] => None
  | (k', v) :: rest => if str_eqb k k' then Some v else dict_lookup k rest
  end.

(** [d.get(k, default)] on a dict *)
Definition dict_get (kvs : pydict) (k : str) (default : pyval) : pyval :=
  match dict_lookup k kvs with
  | Some v => v
  | None => default
  end.

(** [v.get(k, default)] on any value: only a dict has the method. *)
Definition get_method (v : pyval) (k : str) (default : pyval) : exn + pyval :=
  match v with
  | PDict kvs => inr (dict_get kvs k default)
  | _ => inl AttributeError
  end.

(** [v[k]] with a string key *)
Definition getitem (v : pyval) (k : str) : exn + pyval :=
  match v with
  | PDict kvs =>
      match dict_lookup k kvs with
      | Some x => inr x
      | None => inl (KeyError k)
      end
  | _ => inl TypeError
  end.

(** [l + v] where [l] is a list *)
Definition list_add (l : list pyval) (v : pyval) : exn + list pyval :=
  match v with
  | PList l' => inr (l ++ l')
  | _ => inl TypeError
  end.

(** ** Research state ([states.py]) *)

Record SummaryState := {
  research_topic : str;
  search_query : pyval;
  rationale : pyval;
  web_research_results : list str;
  sources_gathered : list str;
  images : list pyval;
  research_loop_count : Z;
  running_summary : str;
  knowledge_gap : pyval;
  websocket_id : option str;
  thoughts : str
}.

(** The dict a stage returns: each key present or absent. *)
Record Update := {
  u_search_query : option pyval;
  u_rationale : option pyval;
  u_sources_gathered : option (list str);
  u_research_loop_count : option Z;
  u_web_research_results : option (list str);
  u_images : option (list pyval);
  u_running_summary : option str;
  u_knowledge_gap : option pyval
}.

Definition no_update : Update :=
  {| u_search_query := None; u_rationale := None; u_sources_gathered := None;
     u_research_loop_count := None; u_web_research_results := None;
     u_images := None; u_running_summary := None; u_knowledge_gap := None |}.

(** A plain field keeps the last value written. *)
Definition last_value {A} (old : A) (new : option A) : A :=
  match new with
  | Some v => v
  | None => old
  end.

(** A field annotated with [operator.add] receives [old + new]. *)
Definition operator_add {A} (old : list A) (new : option (list A)) : list A :=
  match new with
  | Some l => old ++ l
  | None => old
  end.

(** How the graph merges a stage's returned dict into the state. *)
Definition apply_update (st : SummaryState) (u : Update) : SummaryState :=
  {| research_topic := research_topic st;
     search_query := last_value (search_query st) (u_search_query u);
     rationale := last_value (rationale st) (u_rationale u);
     web_research_results :=
       operator_add (web_research_results st) (u_web_research_results u);
     sources_gathered := operator_add (sources_gathered st) (u_sources_gathered u);
     images := operator_add (images st) (u_images u);
     research_loop_count :=
       last_value (research_loop_count st) (u_research_loop_count u);
     running_summary := last_value (running_summary st) (u_running_summary u);
     knowledge_gap := last_value (knowledge_gap st) (u_knowledge_gap u);
     websocket_id := websocket_id st;
     thoughts := thoughts st |}.

(** The state the graph starts from: the dataclass defaults and the topic. *)
Definition initial_state (topic : str) : SummaryState :=
  {| research_topic := topic; search_query := PStr []; rationale := PStr [];
     web_research_results := []; sources_gathered := []; images := [];
     research_loop_count := 0; running_summary := []; knowledge_gap := PStr [];
     websocket_id := None; thoughts := [] |}.

(** ** External collaborators and effects *)

Inductive message :=
| SystemMessage (content : str)
| HumanMessage (content : str).

Record event := { ev_name : string; ev_payload : list (string * pyval) }.

(** A notifier either returns or raises; its behaviour may depend on the
    calls it has received so far. *)
Definition Notifier := option (list event -> event -> option exn).

Inductive node :=
| NGenerateQuery
| NWebResearch
| NSummarizeSources
| NReflectOnSummary
| NFinalizeSummary
| END.

(** Everything the pipeline imports or calls and that is not in its file:
    the chat model, the search client, the JSON decoder, the prompt
    templates and the two source formatters.  The model and the search
    service are indexed by the number of earlier calls. *)
Record Env := {
  ainvoke : nat -> list message -> exn + str;
  tavily_search : nat -> pyval -> exn + pydict;
  json_loads : str -> exn + pyval;
  get_current_date : str;
  query_writer_instructions : str -> str -> str;
  summarizer_instructions : str;
  reflection_instructions : str -> str;
  format_sources : pydict -> exn + str;
  deduplicate_and_format_sources : pydict -> Z -> exn + str
}.

(** What a run has done so far: notifier calls, numbers of model and search
    calls, and the stages that have completed, all oldest first. *)
Record World := {
  events : list event;
  llm_calls : nat;
  search_calls : nat;
  completed : list node
}.

Definition fresh_world : World :=
  {| events := []; llm_calls := 0; search_calls := 0; completed := [] |}.

Inductive outcome (A : Type) :=
| Ok (a : A)
| Raise (e : exn)
| Hang.
Arguments Ok {A} a.
Arguments Raise {A} e.
Arguments Hang {A}.

Definition M (A : Type) := World -> outcome A * World.

Definition ret {A} (a : A) : M A := fun w => (Ok a, w).

Definition raise {A} (e : exn) : M A := fun w => (Raise e, w).

Definition bind {A B} (m : M A) (k : A -> M B) : M B := fun w =>
  match m w with
  | (Ok a, w') => k a w'
  | (Raise e, w') => (Raise e, w')
  | (Hang, w') => (Hang, w')
  end.

Notation "x <- m ;; k" := (bind m (fun x => k))
  (at level 61, m at next level, right associativity).
Notation "' pat <- m ;; k" := (bind m (fun x => match x with pat => k end))
  (at level 61, pat pattern, m at next level, right associativity).
Notation "m ;;; k" := (bind m (fun _ => k))
  (at level 61, right associativity).

(** A call that returns or raises without touching the world. *)
Definition lift {A} (r : exn + A) : M A :=
  match r with
  | inl e => raise e
  | inr a => ret a
  end.

(** [try: body  except Exception: handler] *)
Definition try_except {A} (body : M A) (handler : M A) : M A := fun w =>
  match body w with
  | (Raise e, w') => if is_Exception e then handler w' else (Raise e, w')
  | r => r
  end.

Definition mark_completed (n : node) : M unit := fun w =>
  (Ok tt, {| events := events w; llm_calls := llm_calls w;
             search_calls := search_calls w; completed := completed w ++ [n] |}).

(** ** Pipeline stages ([pipeline.py]) *)

Definition UNABLE_GAP : str := lit "Unable to identify specific knowledge gap".
Definition TELL_ME_MORE : str := lit "Tell me more about ".

Section Pipeline.

Variable env : Env.
Variable notify : Notifier.

(** [await deep_seek_model.ainvoke(messages)], then [.content] *)
Definition invoke_model (messages : list message) : M str := fun w =>
  let w' := {| events := events w; llm_calls := S (llm_calls w);
               search_calls := search_calls w; completed := completed w |} in
  match ainvoke env (llm_calls w) messages with
  | inl e => (Raise e, w')
  | inr content => (Ok content, w')
  end.

(** [await tavily_client.search(query, ...)] *)
Definition search_web (query : pyval) : M pydict := fun w =>
  let w' := {| events := events w; llm_calls := llm_calls w;
               search_calls := S (search_calls w); completed := completed w |} in
  match tavily_search env (search_calls w) query with
  | inl e => (Raise e, w')
  | inr res => (Ok res, w')
  end.

(** [if notify: await notify(name, payload)] *)
Definition notify_event (name : string) (payload : list (string * pyval)) : M unit :=
  match notify with
  | None => ret tt
  | Some callback => fun w =>
      let ev := {| ev_name := name; ev_payload := payload |} in
      let w' := {| events := events w ++ [ev]; llm_calls := llm_calls w;
                   search_calls := search_calls w; completed := completed w |} in
      match callback (events w) ev with
      | Some e => (Raise e, w')
      | None => (Ok tt, w')
      end
  end.

(** [thoughts, text = _strip_thinking_tokens(content)] followed by
    [text = _normalize_latex(text)].  The loop of the stripper either exits
    within [length content] iterations or never does (lemma
    [strip_loop_exhausted] below), so [None] here is a run that hangs. *)
Definition clean_output (content : str) : M (str * str) :=
  match _strip_thinking_tokens (length content) content with
  | Some (thoughts, text) => ret (thoughts, _normalize_latex text)
  | None => fun w => (Hang, w)
  end.

(** The [messages] of [generate_query]. *)
Definition query_messages (state : SummaryState) : list message :=
  let current_date := get_current_date env in
  let prompt := query_writer_instructions env current_date (research_topic state) in
  [SystemMessage prompt; HumanMessage (lit "Generate a query for web search:")].

Definition generate_query (state : SummaryState) : M Update :=
  let messages := query_messages state in
  content <- invoke_model messages ;;
  '(thoughts, text) <- clean_output content ;;
  notify_event "thinking" [("thoughts", PStr thoughts)] ;;;
  query <- lift (json_loads env text) ;;
  rq <- lift (getitem query (lit "query")) ;;
  rationale <- lift (getitem query (lit "rationale")) ;;
  notify_event "generate_query"
    [("query", rq); ("rationale", rationale); ("thoughts", PStr thoughts)] ;;;
  ret {| u_search_query := Some rq; u_rationale := Some rationale;
         u_sources_gathered := None; u_research_loop_count := None;
         u_web_research_results := None; u_images := None;
         u_running_summary := None; u_knowledge_gap := None |}.

Definition web_research (state : SummaryState) : M Update :=
  res <- search_web (search_query state) ;;
  let new_images := por (dict_get res (lit "images") (PList [])) (PList []) in
  search_str <- lift (deduplicate_and_format_sources env res 1000) ;;
  notify_event "web_research"
    [("sources", dict_get res (lit "results") (PList [])); ("images", new_images)] ;;;
  formatted <- lift (format_sources env res) ;;
  all_images <- lift (list_add (images state) new_images) ;;
  ret {| u_search_query := None; u_rationale := None;
         u_sources_gathered := Some [formatted];
         u_research_loop_count := Some (research_loop_count state + 1)%Z;
         u_web_research_results := Some [search_str];
         u_images := Some all_images;
         u_running_summary := None; u_knowledge_gap := None |}.

(** [l[-1]] *)
Definition last_item (l : list str) : exn + str :=
  match rev l with
  | x :: _ => inr x
  | [] => inl IndexError
  end.

Definition summarize_sources (state : SummaryState) : M Update :=
  let existing := running_summary state in
  new_ctx <- lift (last_item (web_research_results state)) ;;
  let human :=
    match existing with
    | _ :: _ =>
        lit "<Existing Summary>" ++ NL ++ existing ++ NL
        ++ lit "</Existing Summary>" ++ NL ++ NL
        ++ lit "<New Context>" ++ NL ++ new_ctx ++ NL ++ lit "</New Context>"
        ++ lit "Update the Existing Summary with the New Context on this topic:"
        ++ NL ++ lit "<User Input>" ++ NL ++ research_topic state ++ NL
        ++ lit "</User Input>" ++ NL ++ NL
    | [] =>
        lit "<Context>" ++ NL ++ new_ctx ++ NL ++ lit "</Context>"
        ++ lit "Create a Summary using the Context on this topic:"
        ++ NL ++ lit "<User Input>" ++ NL ++ research_topic state ++ NL
        ++ lit "</User Input>" ++ NL ++ NL
    end in
  let messages :=
    [SystemMessage (summarizer_instructions env); HumanMessage human] in
  content <- invoke_model messages ;;
  '(thoughts, text) <- clean_output content ;;
  notify_event "thinking" [("thoughts", PStr thoughts)] ;;;
  notify_event "summarize" [("summary", PStr text)] ;;;
  ret {| u_search_query := None; u_rationale := None;
         u_sources_gathered := None; u_research_loop_count := None;
         u_web_research_results := None; u_images := None;
         u_running_summary := Some text; u_knowledge_gap := None |}.

(** The messages sent by [reflect_on_summary]. *)
Definition reflection_messages (state : SummaryState) : list message :=
  [SystemMessage (reflection_instructions env (research_topic state));
   HumanMessage
     (lit "Reflect on our existing knowledge:" ++ NL ++ lit "===" ++ NL
      ++ running_summary state ++ NL ++ lit "===" ++ NL
      ++ lit "And now identify a knowledge gap and generate a follow-up web search query:")].

Definition reflect_on_summary (state : SummaryState) : M Update :=
  content <- invoke_model (reflection_messages state) ;;
  '(thoughts, text) <- clean_output content ;;
  notify_event "thinking" [("thoughts", PStr thoughts)] ;;;
  try_except
    (content <- lift (json_loads env text) ;;
     query <- lift (get_method content (lit "follow_up_query") PNone) ;;
     gap <- lift (get_method content (lit "knowledge_gap") (PStr [])) ;;
     notify_event "reflection"
       [("query", por query (PStr [])); ("knowledge_gap", gap)] ;;;
     ret {| u_search_query :=
              Some (por query (PStr (TELL_ME_MORE ++ research_topic state)));
            u_rationale := None;
            u_sources_gathered := None; u_research_loop_count := None;
            u_web_research_results := None; u_images := None;
            u_running_summary := None; u_knowledge_gap := Some gap |})
    (let fallback := TELL_ME_MORE ++ research_topic state in
     notify_event "reflection"
       [("query", PStr fallback); ("knowledge_gap", PStr UNABLE_GAP)] ;;;
     ret {| u_search_query := Some (PStr fallback); u_rationale := None;
            u_sources_gathered := None; u_research_loop_count := None;
            u_web_research_results := None; u_images := None;
            u_running_summary := None; u_knowledge_gap := None |}).

(** The report text built by [finalize_summary]. *)
Definition final_report (state : SummaryState) : str :=
  fold_left (fun final src => final ++ src ++ NL) (sources_gathered state)
    (lit "## Summary" ++ NL ++ running_summary state ++ NL ++ NL
     ++ lit "### Sources:" ++ NL).

(** [image_section] is assigned in the source and never read; it is left
    out here. *)
Definition finalize_summary (state : SummaryState) : M Update :=
  let final := final_report state in
  notify_event "finalize"
    [("summary", PStr final); ("images", PList (firstn 2 (images state)))] ;;;
  ret {| u_search_query := None; u_rationale := None;
         u_sources_gathered := None; u_research_loop_count := None;
         u_web_research_results := None; u_images := None;
         u_running_summary := Some final; u_knowledge_gap := None |}.

(** The conditional edge after [reflect_on_summary]. *)
Definition route_research (state : SummaryState) : M node :=
  if (research_loop_count state <=? 3)%Z then
    notify_event "routing"
      [("decision", PStr (lit "continue"));
       ("loop_count", PInt (research_loop_count state))] ;;;
    ret NWebResearch
  else
    notify_event "routing"
      [("decision", PStr (lit "finalize"));
       ("loop_count", PInt (research_loop_count state))] ;;;
    ret NFinalizeSummary.

(** ** The graph built by [setup_graph] *)

Definition run_node (n : node) (state : SummaryState) : M Update :=
  match n with
  | NGenerateQuery => generate_query state
  | NWebResearch => web_research state
  | NSummarizeSources => summarize_sources state
  | NReflectOnSummary => reflect_on_summary state
  | NFinalizeSummary => finalize_summary state
  | END => ret no_update
  end.

(** The edges: four fixed ones, the conditional one, and the edge to END. *)
Definition next_node (n : node) (state : SummaryState) : M node :=
  match n with
  | NGenerateQuery => ret NWebResearch
  | NWebResearch => ret NSummarizeSources
  | NSummarizeSources => ret NReflectOnSummary
  | NReflectOnSummary => route_research state
  | NFinalizeSummary => ret END
  | END => ret END
  end.

(** One step of the compiled graph: run the current stage, merge what it
    returned into the state, then follow the outgoing edge. *)
Definition graph_step (c : node * SummaryState) : M (node * SummaryState) :=
  let '(n, state) := c in
  u <- run_node n state ;;
  let state' := apply_update state u in
  mark_completed n ;;;
  n' <- next_node n state' ;;
  ret (n', state').

(** Driving the graph from a stage until END.  The graph library stops a run
    after [recursion_limit] steps with an error. *)
Fixpoint graph_run (recursion_limit : nat) (c : node * SummaryState) : M SummaryState :=
  match fst c with
  | END => ret (snd c)
  | _ =>
      match recursion_limit with
      | O => raise GraphRecursionError
      | S limit' => c' <- graph_step c ;; graph_run limit' c'
      end
  end.

(** The library's default for [recursion_limit]. *)
Definition DEFAULT_RECURSION_LIMIT : nat := 25.

Definition run_deep_research (topic : str) : M str :=
  result <- graph_run DEFAULT_RECURSION_LIMIT (NGenerateQuery, initial_state topic) ;;
  ret (running_summary result).

End Pipeline.

(** ** A reference JSON decoder

    The pipeline is stated for any decoder ([json_loads] of [Env]).  The
    concrete examples below use this one, which follows the grammar accepted
    by [json.loads] on a [str]: the four whitespace characters, the
    literals (with [NaN] and the infinities), numbers, strings in strict
    mode with their escapes and surrogate pairs, arrays and objects without
    trailing commas, the last value winning for a repeated key, the limit
    of 4300 digits on integers, and nothing but whitespace after the value.
    The interpreter's limit on nesting depth is not modelled. *)

Module RefJson.

Definition is_ws (c : char) : bool :=
  ((c =? 32) || (c =? 9) || (c =? 10) || (c =? 13))%N.

Fixpoint skip_ws (s : str) : str :=
  match s with
  | c :: s' => if is_ws c then skip_ws s' else s
  | [] => []
  end.

Definition is_digit (c : char) : bool := ((48 <=? c) && (c <=? 57))%N.

Definition hex_value (c : char) : option N :=
  if is_digit c then Some (c - 48)%N
  else if ((97 <=? c) && (c <=? 102))%N then Some (c - 87)%N
  else if ((65 <=? c) && (c <=? 70))%N then Some (c - 55)%N
  else None.

Definition hex4 (a b c d : char) : option N :=
  match hex_value a, hex_value b, hex_value c, hex_value d with
  | Some x, Some y, Some z, Some t => Some (((x * 16 + y) * 16 + z) * 16 + t)%N
  | _, _, _, _ => None
  end.

Definition escape_char (c : char) : option char :=
  if (c =? 34)%N then Some 34%N            (* quote *)
  else if (c =? 92)%N then Some 92%N       (* backslash *)
  else if (c =? 47)%N then Some 47%N       (* slash *)
  else if (c =? 98)%N then Some 8%N        (* b *)
  else if (c =? 102)%N then Some 12%N      (* f *)
  else if (c =? 110)%N then Some 10%N      (* n *)
  else if (c =? 114)%N then Some 13%N      (* r *)
  else if (c =? 116)%N then Some 9%N       (* t *)
  else None.

(** The text after an opening quote, up to the closing one. *)
Fixpoint scan_string (fuel : nat) (s acc : str) : option (str * str) :=
  match fuel with
  | O => None
  | S fuel' =>
      match s with
      | [] => None
      | c :: r =>
          if (c =? 34)%N then Some (acc, r)
          else if (c =? 92)%N then
            match r with
            | [] => None
            | e :: r1 =>
                if (e =? 117)%N then                      (* u and four hex digits *)
                  match r1 with
                  | h1 :: h2 :: h3 :: h4 :: r2 =>
                      match hex4 h1 h2 h3 h4 with
                      | None => None
                      | Some hi =>
                          let single := scan_string fuel' r2 (acc ++ [hi]) in
                          if ((55296 <=? hi) && (hi <=? 56319))%N then
                            match r2 with
                            | b :: u :: l1 :: l2 :: l3 :: l4 :: r3 =>
                                if ((b =? 92) && (u =? 117))%N then
                                  match hex4 l1 l2 l3 l4 with
                                  | Some lo =>
                                      if ((56320 <=? lo) && (lo <=? 57343))%N then
                                        scan_string fuel' r3
                                          (acc ++ [65536 + (hi - 55296) * 1024
                                                   + (lo - 56320)])%N
                                      else single
                                  | None => single
                                  end
                                else single
                            | _ => single
                            end
                          else single
                      end
                  | _ => None
                  end
                else
                  match escape_char e with
                  | Some x => scan_string fuel' r1 (acc ++ [x])
                  | None => None
                  end
            end
          else if (c <? 32)%N then None
          else scan_string fuel' r (acc ++ [c])
      end
  end.

Fixpoint scan_digits (s : str) : str * str :=
  match s with
  | c :: s' =>
      if is_digit c then let '(ds, r) := scan_digits s' in (c :: ds, r)
      else ([], s)
  | [] => ([], [])
  end.

Definition digits_value (ds : str) : N :=
  fold_left (fun acc c => (acc * 10 + (c - 48))%N) ds 0%N.

(** The integer part: a single zero, or a nonzero digit and more digits. *)
Definition scan_int (s : str) : option (str * str) :=
  match s with
  | c :: s' =>
      if (c =? 48)%N then Some ([c], s')
      else if is_digit c then Some (scan_digits s)
      else None
  | [] => None
  end.

Definition scan_frac (s : str) : str * str :=
  match s with
  | c :: s' =>
      if (c =? 46)%N then
        match scan_digits s' with
        | ([], _) => ([], s)
        | (ds, r) => (ds, r)
        end
      else ([], s)
  | [] => ([], [])
  end.

(** The exponent, if one follows: its value and the rest. *)
Definition scan_exp (s : str) : option (Z * str) :=
  match s with
  | c :: s' =>
      if ((c =? 101) || (c =? 69))%N then
        let '(neg, s'') :=
          match s' with
          | sg :: t =>
              if (sg =? 45)%N then (true, t)
              else if (sg =? 43)%N then (false, t)
              else (false, s')
          | [] => (false, s')
          end in
        match scan_digits s'' with
        | ([], _) => None
        | (ds, r) =>
            let v := Z.of_N (digits_value ds) in
            Some (if neg then (- v)%Z else v, r)
        end
      else None
  | [] => None
  end.

Definition MAX_INT_DIGITS : nat := 4300.

Definition scan_number (neg : bool) (s : str) : exn + (pyval * str) :=
  match scan_int s with
  | None => inl JSONDecodeError
  | Some (ids, r) =>
      let '(fds, r1) := scan_frac r in
      let ex := scan_exp r1 in
      match fds, ex with
      | [], None =>
          if (MAX_INT_DIGITS <? length ids)%nat then inl (ExternalError 0)
          else
            let v := Z.of_N (digits_value ids) in
            inr (PInt (if neg then (- v)%Z else v), r1)
      | _, _ =>
          let '(e, r2) := match ex with Some p => p | None => (0%Z, r1) end in
          inr (PFloat (FDec neg (digits_value (ids ++ fds))
                         (e - Z.of_nat (length fds))), r2)
      end
  end.

(** Assignment into a dict under construction. *)
Fixpoint dict_set (k : str) (v : pyval) (kvs : pydict) : pydict :=
  match kvs with
  | [] => [(k, v)]
  | (k', v') :: rest =>
      if str_eqb k k' then (k', v) :: rest else (k', v') :: dict_set k v rest
  end.

Section Containers.

Variable parse_value : str -> exn + (pyval * str).

(** Array elements, from the first value to the closing bracket. *)
Fixpoint parse_elements (fuel : nat) (s : str) (acc : list pyval)
  : exn + (pyval * str) :=
  match fuel with
  | O => inl JSONDecodeError
  | S fuel' =>
      match parse_value s with
      | inl e => inl e
      | inr (v, r) =>
          match skip_ws r with
          | c :: r' =>
              if (c =? 44)%N then parse_elements fuel' (skip_ws r') (acc ++ [v])
              else if (c =? 93)%N then inr (PList (acc ++ [v]), r')
              else inl JSONDecodeError
          | [] => inl JSONDecodeError
          end
      end
  end.

(** Object members, from the first key to the closing brace. *)
Fixpoint parse_members (fuel : nat) (s : str) (acc : pydict)
  : exn + (pyval * str) :=
  match fuel with
  | O => inl JSONDecodeError
  | S fuel' =>
      match s with
      | q :: r =>
          if (q =? 34)%N then
            match scan_string (length r) r [] with
            | None => inl JSONDecodeError
            | Some (k, r1) =>
                match skip_ws r1 with
                | c :: r2 =>
                    if (c =? 58)%N then
                      match parse_value (skip_ws r2) with
                      | inl e => inl e
                      | inr (v, r3) =>
                          match skip_ws r3 with
                          | d :: r4 =>
                              if (d =? 44)%N then
                                parse_members fuel' (skip_ws r4) (dict_set k v acc)
                              else if (d =? 125)%N then
                                inr (PDict (dict_set k v acc), r4)
                              else inl JSONDecodeError
                          | [] => inl JSONDecodeError
                          end
                      end
                    else inl JSONDecodeError
                | [] => inl JSONDecodeError
                end
            end
          else inl JSONDecodeError
      | [] => inl JSONDecodeError
      end
  end.

End Containers.

Fixpoint parse_value (fuel : nat) (s : str) : exn + (pyval * str) :=
  match fuel with
  | O => inl JSONDecodeError
  | S fuel' =>
      match s with
      | [] => inl JSONDecodeError
      | c :: r =>
          if (c =? 34)%N then
            match scan_string (length r) r [] with
            | Some (x, r') => inr (PStr x, r')
            | None => inl JSONDecodeError
            end
          else if (c =? 123)%N then
            match skip_ws r with
            | d :: r' =>
                if (d =? 125)%N then inr (PDict [], r')
                else parse_members (parse_value fuel') (length r) (skip_ws r) []
            | [] => inl JSONDecodeError
            end
          else if (c =? 91)%N then
            match skip_ws r with
            | d :: r' =>
                if (d =? 93)%N then inr (PList [], r')
                else parse_elements (parse_value fuel') (length r) (skip_ws r) []
            | [] => inl JSONDecodeError
            end
          else if starts_with (lit "null") s then inr (PNone, skipn 4 s)
          else if starts_with (lit "true") s then inr (PBool true, skipn 4 s)
          else if starts_with (lit "false") s then inr (PBool false, skipn 5 s)
          else if starts_with (lit "NaN") s then inr (PFloat FNaN, skipn 3 s)
          else if starts_with (lit "Infinity") s then
            inr (PFloat (FInf false), skipn 8 s)
          else if starts_with (lit "-Infinity") s then
            inr (PFloat (FInf true), skipn 9 s)
          else if (c =? 45)%N then scan_number true r
          else scan_number false s
      end
  end.

(** [json.loads(s)] *)
Definition loads (s : str) : exn + pyval :=
  if starts_with [65279%N] s then inl JSONDecodeError
  else
    match parse_value (S (length s)) (skip_ws s) with
    | inl e => inl e
    | inr (v, r) =>
        match skip_ws r with
        | [] => inr v
        | _ :: _ => inl JSONDecodeError
        end
    end.

End RefJson.

(** * Vocabulary of the properties *)

(** ** The marker loop *)

(** The text after one iteration of the loop. *)
Definition strip_text_step (text : str) : str :=
  slice text None (Some (find THINK_OPEN text))
  ++ slice text (Some (find THINK_CLOSE text + 8)%Z) None.

(** The thought extracted by one iteration. *)
Definition strip_thought_step (text : str) : str :=
  strip (slice text (Some (find THINK_OPEN text + 7)%Z)
                    (Some (find THINK_CLOSE text))).

(** An end marker that comes first: the state from which the loop never
    leaves. *)
Definition close_first (text : str) : Prop :=
  exists e s, index THINK_CLOSE text = Some e
              /\ index THINK_OPEN text = Some s /\ e < s.

Definition head_unique (pat : str) : bool :=
  match pat with
  | [] => false
  | c :: pat' => forallb (fun x => negb (char_eqb c x)) pat'
  end.

(** A text written as marked spans: each pair is the text before a start
    marker and the text between that marker and its end marker. *)
Fixpoint render (segs : list (str * str)) (tail : str) : str :=
  match segs with
  | [] => tail
  | (before, inner) :: rest =>
      before ++ THINK_OPEN ++ inner ++ THINK_CLOSE ++ render rest tail
  end.

(** What is left when the marked spans are cut out. *)
Definition outside_text (segs : list (str * str)) (tail : str) : str :=
  concat (map fst segs) ++ tail.

(** The inner texts, each trimmed and followed by a blank line. *)
Definition inner_thoughts (segs : list (str * str)) : str :=
  concat (map (fun seg => strip (snd seg) ++ NL ++ NL) segs).

(** Balanced markers, read as brackets: scanning left to right every end
    marker closes an open start marker, and none stays open. *)
Fixpoint balanced_from (depth : nat) (s : str) : bool :=
  match s with
  | [] => Nat.eqb depth 0
  | _ :: s' =>
      if starts_with THINK_OPEN s then balanced_from (S depth) s'
      else if starts_with THINK_CLOSE s then
        match depth with
        | O => false
        | S d => balanced_from d s'
        end
      else balanced_from depth s'
  end.

Definition markers_balanced (s : str) : bool := balanced_from 0 s.

(** ** Target delimiter form *)

(** An opening delimiter somewhere in [seg] with the closing delimiter
    somewhere after it. *)
Fixpoint has_pair (op cl : str) (seg : str) : bool :=
  (starts_with op seg && contains cl (skipn (length op) seg))
  || match seg with
     | [] => false
     | _ :: seg' => has_pair op cl seg'
     end.

(** [P] on the segments at even positions, the ones outside code spans. *)
Fixpoint even_forall (P : str -> bool) (parts : list str) : bool :=
  match parts with
  | [] => true
  | seg :: rest =>
      P seg && match rest with
               | [] => true
               | _ :: rest' => even_forall P rest'
               end
  end.

(** Target delimiter form: outside code spans there is no opening bracket
    delimiter with its closing delimiter after it. *)
Definition in_target_form (text : str) : bool :=
  even_forall
    (fun seg => negb (has_pair DISPLAY_OPEN DISPLAY_CLOSE seg)
                && negb (has_pair INLINE_OPEN INLINE_CLOSE seg))
    (Re.split _CODE_BLOCK_RE text).

(** ** Worlds, events and notifiers *)

(** A notifier that is absent or returns normally on every call. *)
Definition quiet (notify : Notifier) : Prop :=
  match notify with
  | None => True
  | Some callback => forall log ev, callback log ev = None
  end.

(** The world after one more model call. *)
Definition tick_llm (w : World) : World :=
  {| events := events w; llm_calls := S (llm_calls w);
     search_calls := search_calls w; completed := completed w |}.

(** The world after the notifier, if there is one, received [evs]. *)
Definition logged (notify : Notifier) (evs : list event) (w : World) : World :=
  match notify with
  | None => w
  | Some _ =>
      {| events := events w ++ evs; llm_calls := llm_calls w;
         search_calls := search_calls w; completed := completed w |}
  end.

(** Two worlds that differ at most in the notifier's log. *)
Definition agree (w1 w2 : World) : Prop :=
  llm_calls w1 = llm_calls w2
  /\ search_calls w1 = search_calls w2
  /\ completed w1 = completed w2.

Definition thinking_event (thoughts : str) : event :=
  {| ev_name := "thinking"; ev_payload := [("thoughts", PStr thoughts)] |}.

Definition generate_query_event (rq rationale : pyval) (thoughts : str) : event :=
  {| ev_name := "generate_query";
     ev_payload := [("query", rq); ("rationale", rationale);
                    ("thoughts", PStr thoughts)] |}.

Definition reflection_event (query gap : pyval) : event :=
  {| ev_name := "reflection";
     ev_payload := [("query", query); ("knowledge_gap", gap)] |}.

Definition finalize_event (summary : str) (imgs : list pyval) : event :=
  {| ev_name := "finalize";
     ev_payload := [("summary", PStr summary); ("images", PList imgs)] |}.

(** ** Stages and updates *)

Definition fallback_query (state : SummaryState) : str :=
  TELL_ME_MORE ++ research_topic state.

(** [state] with its images replaced. *)
Definition with_images (state : SummaryState) (imgs : list pyval) : SummaryState :=
  {| research_topic := research_topic state; search_query := search_query state;
     rationale := rationale state;
     web_research_results := web_research_results state;
     sources_gathered := sources_gathered state;
     images := imgs;
     research_loop_count := research_loop_count state;
     running_summary := running_summary state;
     knowledge_gap := knowledge_gap state;
     websocket_id := websocket_id state; thoughts := thoughts state |}.

(** The update returned by [finalize_summary]. *)
Definition final_update (state : SummaryState) : Update :=
  {| u_search_query := None; u_rationale := None;
     u_sources_gathered := None; u_research_loop_count := None;
     u_web_research_results := None; u_images := None;
     u_running_summary := Some (final_report state); u_knowledge_gap := None |}.

(** [m] leaves the list of completed stages alone, whatever its outcome. *)
Definition keeps_completed {A} (m : M A) : Prop :=
  forall w, completed (snd (m w)) = completed w.

(** Every value [m] returns satisfies [P]. *)
Definition yields {A} (m : M A) (P : A -> Prop) : Prop :=
  forall w a w', m w = (Ok a, w') -> P a.

(** [m1] and [m2] have the same outcome from worlds that agree, and leave
    worlds that agree. *)
Definition sim {A} (m1 m2 : M A) : Prop :=
  forall w1 w2, agree w1 w2 ->
    fst (m1 w1) = fst (m2 w2) /\ agree (snd (m1 w1)) (snd (m2 w2)).

(** ** Runs of the graph *)

Definition is_web_research (n : node) : bool :=
  match n with
  | NWebResearch => true
  | _ => false
  end.

(** Number of completed web-research rounds. *)
Definition rounds (done : list node) : nat :=
  length (filter is_web_research done).

(** The stage the edges lead to from [n], once [n] has brought the loop
    counter to [count]. *)
Definition successor (n : node) (count : Z) : node :=
  match n with
  | NGenerateQuery => NWebResearch
  | NWebResearch => NSummarizeSources
  | NSummarizeSources => NReflectOnSummary
  | NReflectOnSummary =>
      if (count <=? 3)%Z then NWebResearch else NFinalizeSummary
  | NFinalizeSummary => END
  | END => END
  end.

(** The loop counter after stage [n]. *)
Definition count_after (n : node) (count : Z) : Z :=
  if is_web_research n then (count + 1)%Z else count.

(** The stages a run of at most [limit] steps goes through from [n]. *)
Fixpoint path (limit : nat) (n : node) (count : Z) : list node :=
  match n with
  | END => []
  | _ =>
      match limit with
      | O => []
      | S limit' =>
          n :: path limit' (successor n (count_after n count)) (count_after n count)
      end
  end.

(** Configurations a run goes through, from the start of the graph. *)
Inductive reachable (env : Env) (notify : Notifier) (topic : str)
  : node * SummaryState -> World -> Prop :=
| reach_start (w : World) :
    completed w = [] ->
    reachable env notify topic (NGenerateQuery, initial_state topic) w
| reach_step (c c' : node * SummaryState) (w w' : World) :
    reachable env notify topic c w ->
    graph_step env notify c w = (Ok c', w') ->
    reachable env notify topic c' w'.

(** [k] steps of the graph, one after the other. *)
Fixpoint run_steps (env : Env) (notify : Notifier) (k : nat)
    (c : node * SummaryState) : M (node * SummaryState) :=
  match k with
  | O => ret c
  | S k' => c' <- run_steps env notify k' c ;; graph_step env notify c'
  end.

(** ** Test doubles for the concrete examples *)

Definition QUOTE : str := [34%N].

(** A JSON string literal without escapes. *)
Definition jq (s : string) : str := QUOTE ++ lit s ++ QUOTE.

(** A model reply that serves every stage: an object with the keys read by
    query generation and by reflection. *)
Definition stub_reply : str :=
  lit "{" ++ jq "query" ++ lit ": " ++ jq "remote work productivity" ++ lit ", "
  ++ jq "rationale" ++ lit ": " ++ jq "start broad" ++ lit ", "
  ++ jq "follow_up_query" ++ lit ": " ++ jq "remote work studies" ++ lit ", "
  ++ jq "knowledge_gap" ++ lit ": " ++ jq "few figures" ++ lit "}".

(** The object [stub_reply] decodes to. *)
Definition stub_reply_object : pydict :=
  [(lit "query", PStr (lit "remote work productivity"));
   (lit "rationale", PStr (lit "start broad"));
   (lit "follow_up_query", PStr (lit "remote work studies"));
   (lit "knowledge_gap", PStr (lit "few figures"))].

(** A reply with a thinking span and no JSON in it. *)
Definition stub_bad_reply : str := lit "<think>hm</think>Sorry, no JSON.".

(** A reply whose object has a knowledge gap and a null follow-up query. *)
Definition stub_gap_only_reply : str :=
  lit "{" ++ jq "follow_up_query" ++ lit ": null, "
  ++ jq "knowledge_gap" ++ lit ": " ++ jq "few figures" ++ lit "}".

(** A reply that is valid JSON with both keys of query generation; its query
    string holds escaped backslashes before the round brackets. *)
Definition stub_latex_reply : str :=
  lit "{" ++ jq "query" ++ lit ": " ++ jq "\\(x\\) y" ++ lit ", "
  ++ jq "rationale" ++ lit ": " ++ jq "r" ++ lit "}".

(** A reply that is not valid JSON: a backslash before a round bracket is no
    JSON escape. *)
Definition stub_unescaped_reply : str :=
  lit "{" ++ jq "query" ++ lit ": " ++ jq "\(x\)" ++ lit ", "
  ++ jq "rationale" ++ lit ": null}".

(** A reply that is valid JSON with a null follow-up query; its knowledge
    gap holds escaped backslashes before the round brackets. *)
Definition stub_latex_gap_reply : str :=
  lit "{" ++ jq "follow_up_query" ++ lit ": null, "
  ++ jq "knowledge_gap" ++ lit ": " ++ jq "see \\(x\\)" ++ lit "}".

(** A reply that is valid JSON with a null follow-up query; its knowledge
    gap is an end marker followed by a start marker. *)
Definition stub_marker_gap_reply : str :=
  lit "{" ++ jq "follow_up_query" ++ lit ": null, "
  ++ jq "knowledge_gap" ++ lit ": " ++ jq "</think><think>" ++ lit "}".

Definition stub_search_result : pydict :=
  [(lit "results",
    PList [PDict [(lit "title", PStr (lit "t")); (lit "url", PStr (lit "u"));
                  (lit "content", PStr (lit "c"))]]);
   (lit "images", PList [PStr (lit "u1")])].

(** A model that always answers [reply], a search service with one fixed
    result, the reference decoder, and fixed prompts and formatters. *)
Definition stub_env (reply : str) : Env :=
  {| ainvoke := fun _ _ => inr reply;
     tavily_search := fun _ _ => inr stub_search_result;
     json_loads := RefJson.loads;
     get_current_date := lit "January 1, 2025";
     query_writer_instructions := fun date topic => date ++ topic;
     summarizer_instructions := lit "summarize";
     reflection_instructions := fun topic => topic;
     format_sources := fun _ => inr (lit "* t : u");
     deduplicate_and_format_sources := fun _ _ => inr (lit "Sources: t") |}.

Definition stub_topic : str := lit "impact of remote work on productivity".

Definition notifier_ok : Notifier := Some (fun _ _ => None).
Definition notifier_raising : Notifier := Some (fun _ _ => Some (ExternalError 1)).

(** The stub run after five steps: query generation, a full round, and the
    web research of the second round. *)
Definition stub_after_5 : outcome (node * SummaryState) * World :=
  run_steps (stub_env stub_reply) notifier_ok 5
    (NGenerateQuery, initial_state stub_topic) fresh_world.

Definition stub_config_5 : node * SummaryState :=
  match fst stub_after_5 with
  | Ok c => c
  | _ => (END, initial_state stub_topic)
  end.

(** A state of a later round: a summary and a knowledge gap are there. *)
Definition stub_later_state : SummaryState :=
  {| research_topic := stub_topic; search_query := PStr (lit "remote work studies");
     rationale := PStr (lit "start broad");
     web_research_results := [lit "Sources: t"]; sources_gathered := [lit "* t : u"];
     images := [PStr (lit "u1")];
     research_loop_count := 1; running_summary := lit "summary so far";
     knowledge_gap := PStr (lit "few figures");
     websocket_id := None; thoughts := [] |}.

Definition stub_fallback_update : Update :=
  {| u_search_query := Some (PStr (TELL_ME_MORE ++ stub_topic));
     u_rationale := None;
     u_sources_gathered := None; u_research_loop_count := None;
     u_web_research_results := None; u_images := None;
     u_running_summary := None; u_knowledge_gap := None |}.

(** ** Vocabulary of the further properties *)

(** [s] is empty or begins with a character that is not whitespace. *)
Definition no_lead (s : str) : Prop :=
  match s with
  | c :: _ => isspace c = false
  | [] => True
  end.

(** [s] has no occurrence of the character [c]. *)
Definition lacks (c : char) (s : str) : bool :=
  forallb (fun x => negb (char_eqb x c)) s.

Definition BACKSLASH : char := 92%N.
Definition BACKTICK : char := 96%N.
Definition TICK : str := lit "`".
Definition FENCE : str := lit "```".

(** A match of [m] can only begin with the character [c]. *)
Definition needs_head (c : char) (m : Re.matcher) : Prop :=
  forall s, match s with
            | d :: _ => char_eqb d c = false
            | [] => True
            end -> m s = None.

(** A match of [m] consumes at least one character. *)
Definition productive (m : Re.matcher) : Prop :=
  forall s n g, m s = Some (n, g) -> 1 <= n.

(** A search result moved [k] characters to the right. *)
Definition shift (k : nat) (r : option (nat * nat * str)) : option (nat * nat * str) :=
  match r with
  | Some (i, n, g) => Some (k + i, n, g)
  | None => None
  end.

(** The world after one more search call. *)
Definition tick_search (w : World) : World :=
  {| events := events w; llm_calls := llm_calls w;
     search_calls := S (search_calls w); completed := completed w |}.

(** [state] with its list of context blocks replaced. *)
Definition with_results (state : SummaryState) (blocks : list str) : SummaryState :=
  {| research_topic := research_topic state; search_query := search_query state;
     rationale := rationale state;
     web_research_results := blocks;
     sources_gathered := sources_gathered state;
     images := images state;
     research_loop_count := research_loop_count state;
     running_summary := running_summary state;
     knowledge_gap := knowledge_gap state;
     websocket_id := websocket_id state; thoughts := thoughts state |}.

(** The messages [summarize_sources] sends when the latest context block is
    [new_ctx]: the update prompt when there is a summary, the create prompt
    when there is none. *)
Definition summary_messages (env : Env) (state : SummaryState) (new_ctx : str)
  : list message :=
  [SystemMessage (summarizer_instructions env);
   HumanMessage
     (match running_summary state with
      | _ :: _ =>
          lit "<Existing Summary>" ++ NL ++ running_summary state ++ NL
          ++ lit "</Existing Summary>" ++ NL ++ NL
          ++ lit "<New Context>" ++ NL ++ new_ctx ++ NL ++ lit "</New Context>"
          ++ lit "Update the Existing Summary with the New Context on this topic:"
          ++ NL ++ lit "<User Input>" ++ NL ++ research_topic state ++ NL
          ++ lit "</User Input>" ++ NL ++ NL
      | [] =>
          lit "<Context>" ++ NL ++ new_ctx ++ NL ++ lit "</Context>"
          ++ lit "Create a Summary using the Context on this topic:"
          ++ NL ++ lit "<User Input>" ++ NL ++ research_topic state ++ NL
          ++ lit "</User Input>" ++ NL ++ NL
      end)].

Definition summarize_event (summary : str) : event :=
  {| ev_name := "summarize"; ev_payload := [("summary", PStr summary)] |}.

(** The update returned by the summarizer. *)
Definition summary_update (summary : str) : Update :=
  {| u_search_query := None; u_rationale := None;
     u_sources_gathered := None; u_research_loop_count := None;
     u_web_research_results := None; u_images := None;
     u_running_summary := Some summary; u_knowledge_gap := None |}.

(** The update of the [except] branch of reflection. *)
Definition fallback_update (state : SummaryState) : Update :=
  {| u_search_query := Some (PStr (fallback_query state));
     u_rationale := None;
     u_sources_gathered := None; u_research_loop_count := None;
     u_web_research_results := None; u_images := None;
     u_running_summary := None; u_knowledge_gap := None |}.

(** The update of the [try] branch of reflection. *)
Definition reflection_update (query gap : pyval) : Update :=
  {| u_search_query := Some query; u_rationale := None;
     u_sources_gathered := None; u_research_loop_count := None;
     u_web_research_results := None; u_images := None;
     u_running_summary := None; u_knowledge_gap := Some gap |}.

Definition is_dict (v : pyval) : bool :=
  match v with
  | PDict _ => true
  | _ => false
  end.

(** The stub graph after one web-research step from a later state. *)
Definition stub_web_config : node * SummaryState :=
  match fst (graph_step (stub_env stub_reply) notifier_ok
               (NWebResearch, stub_later_state) fresh_world) with
  | Ok c => c
  | _ => (END, stub_later_state)
  end.

(** A notifier that raises on the first reflection event it receives and
    returns on every other call. *)
Definition notifier_rejecting_reflection : list event -> event -> option exn :=
  fun log ev =>
    if String.eqb (ev_name ev) "reflection"
       && negb (existsb (fun old => String.eqb (ev_name old) "reflection") log)
    then Some (ExternalError 2)
    else None.

(** Model calls made by a stage. *)
Definition llm_cost (n : node) : nat :=
  match n with
  | NGenerateQuery | NSummarizeSources | NReflectOnSummary => 1
  | _ => 0
  end.

(** Search calls made by a stage. *)
Definition search_cost (n : node) : nat :=
  if is_web_research n then 1 else 0.

(** Names of the events of a step that returns, with a notifier that
    returns: those of the stage, then the one of the router. *)
Definition step_events (n : node) : list string :=
  match n with
  | NGenerateQuery => ["thinking"; "generate_query"]
  | NWebResearch => ["web_research"]
  | NSummarizeSources => ["thinking"; "summarize"]
  | NReflectOnSummary => ["thinking"; "reflection"; "routing"]
  | NFinalizeSummary => ["finalize"]
  | END => []
  end.

(** The stages of a run that returns. *)
Definition full_path : list node :=
  [NGenerateQuery;
   NWebResearch; NSummarizeSources; NReflectOnSummary;
   NWebResearch; NSummarizeSources; NReflectOnSummary;
   NWebResearch; NSummarizeSources; NReflectOnSummary;
   NWebResearch; NSummarizeSources; NReflectOnSummary;
   NFinalizeSummary].

(** The text of a report with the given summary and citation blocks. *)
Definition report_text (summary : str) (citations : list str) : str :=
  lit "## Summary" ++ NL ++ summary ++ NL ++ NL ++ lit "### Sources:" ++ NL
  ++ concat (map (fun src => src ++ NL) citations).

(** [m] changes neither call counter, whatever its outcome. *)
Definition keeps_calls {A} (m : M A) : Prop :=
  forall w, llm_calls (snd (m w)) = llm_calls w
            /\ search_calls (snd (m w)) = search_calls w.

(** When [m] returns it has made [dl] model calls and [ds] search calls. *)
Definition spends {A} (m : M A) (dl ds : nat) : Prop :=
  forall w a w', m w = (Ok a, w') ->
                 llm_calls w' = llm_calls w + dl
                 /\ search_calls w' = search_calls w + ds.

(** When [m] returns the notifier has received events with these names. *)
Definition emits {A} (m : M A) (names : list string) : Prop :=
  forall w a w', m w = (Ok a, w') ->
                 map ev_name (events w') = map ev_name (events w) ++ names.

(** A reply whose object has a query and no rationale. *)
Definition stub_query_only_reply : str :=
  lit "{" ++ jq "query" ++ lit ": " ++ jq "remote work" ++ lit "}".

(** The names of the events of a run that returns, with a notifier that
    returns. *)
Definition run_events : list string :=
  ["thinking"; "generate_query"]
  ++ concat (repeat ["web_research"; "thinking"; "summarize";
                     "thinking"; "reflection"; "routing"] 4)
  ++ ["finalize"].

(** [cite] is what [format_sources] made of a response of the search. *)
Definition is_citation (env : Env) (cite : str) : Prop :=
  exists k query res,
    tavily_search env k query = inr res /\ format_sources env res = inr cite.

(** When [m] raises, the notifier has received nothing from it. *)
Definition silent_raise {A} (m : M A) : Prop :=
  forall w e w', m w = (Raise e, w') -> events w' = events w.

(** The images of a search response: [res.get("images", []) or []]. *)
Definition response_images (res : pydict) : pyval :=
  por (dict_get res (lit "images") (PList [])) (PList []).

(** The event [web_research] sends for the response [res]. *)
Definition web_research_event (res : pydict) : event :=
  {| ev_name := "web_research";
     ev_payload := [("sources", dict_get res (lit "results") (PList []));
                    ("images", response_images res)] |}.

Definition is_list (v : pyval) : bool :=
  match v with
  | PList _ => true
  | _ => false
  end.

(** An environment whose citation formatter fails. *)
Definition stub_env_bad_format : Env :=
  {| ainvoke := fun _ _ => inr stub_reply;
     tavily_search := fun _ _ => inr stub_search_result;
     json_loads := RefJson.loads;
     get_current_date := [];
     query_writer_instructions := fun _ topic => topic;
     summarizer_instructions := [];
     reflection_instructions := fun topic => topic;
     format_sources := fun _ => inl (ExternalError 7);
     deduplicate_and_format_sources := fun _ _ => inr (lit "Sources: t") |}.

(** An environment whose search answers with a string under [images]. *)
Definition stub_env_bad_images : Env :=
  {| ainvoke := fun _ _ => inr stub_reply;
     tavily_search := fun _ _ => inr [(lit "images", PStr (lit "u1"))];
     json_loads := RefJson.loads;
     get_current_date := [];
     query_writer_instructions := fun _ topic => topic;
     summarizer_instructions := [];
     reflection_instructions := fun topic => topic;
     format_sources := fun _ => inr (lit "* t : u");
     deduplicate_and_format_sources := fun _ _ => inr (lit "Sources: t") |}.

(** * Properties *)

(** ** Strings *)

Lemma char_eqb_refl (c : char) : char_eqb c c = true.
Proof. apply N.eqb_refl. Qed.

Lemma char_eqb_eq (a b : char) : char_eqb a b = true <-> a = b.
Proof. apply N.eqb_eq. Qed.

Lemma starts_with_app (pat b : str) : starts_with pat (pat ++ b) = true.
Proof.
  induction pat as [|p pat IH]; simpl; [reflexivity|].
  now rewrite char_eqb_refl.
Qed.

Lemma starts_with_split (pat s : str) :
  starts_with pat s = true -> s = pat ++ skipn (length pat) s.
Proof.
  revert s; induction pat as [|p pat IH]; intros s H; simpl in *; [reflexivity|].
  destruct s as [|c s]; [discriminate|].
  apply andb_true_iff in H as [Hc Hs].
  apply char_eqb_eq in Hc; subst c.
  simpl. f_equal. now apply IH.
Qed.

(** Only the first [length pat] characters matter. *)
Lemma starts_with_app_long (pat u x : str) :
  length pat <= length u -> starts_with pat (u ++ x) = starts_with pat u.
Proof.
  revert u; induction pat as [|p pat IH]; intros u Hlen; simpl.
  - now destruct u.
  - destruct u as [|c u]; simpl in *; [lia|].
    rewrite IH by lia. reflexivity.
Qed.

Lemma starts_with_length (pat s : str) :
  starts_with pat s = true -> length pat <= length s.
Proof.
  intros H. rewrite (starts_with_split _ _ H), length_app. lia.
Qed.

Lemma index_Some_occ (pat s : str) (i : nat) :
  index pat s = Some i ->
  starts_with pat (skipn i s) = true /\ i <= length s.
Proof.
  revert i; induction s as [|c s IH]; intros i; simpl.
  - destruct (starts_with pat []) eqn:E; [|discriminate].
    intros [= <-]. simpl. split; [assumption|lia].
  - destruct (starts_with pat (c :: s)) eqn:E.
    + intros [= <-]. simpl. split; [assumption|lia].
    + destruct (index pat s) as [j|] eqn:Ej; simpl; [|discriminate].
      intros [= <-]. destruct (IH j eq_refl) as [H1 H2].
      simpl. split; [assumption|lia].
Qed.

Lemma index_first (pat s : str) (i j : nat) :
  index pat s = Some i -> j < i -> starts_with pat (skipn j s) = false.
Proof.
  revert i j; induction s as [|c s IH]; intros i j; simpl.
  - destruct (starts_with pat []); [intros [= <-]; lia | discriminate].
  - destruct (starts_with pat (c :: s)) eqn:E.
    + intros [= <-]; lia.
    + destruct (index pat s) as [k|] eqn:Ek; simpl; [|discriminate].
      intros [= <-] Hj. destruct j as [|j]; simpl; [assumption|].
      apply (IH k); [reflexivity | lia].
Qed.

Lemma occ_index (pat s : str) (j : nat) :
  starts_with pat (skipn j s) = true -> j <= length s ->
  exists i, index pat s = Some i /\ i <= j.
Proof.
  revert j; induction s as [|c s IH]; intros j H Hj; simpl in *.
  - assert (j = 0) by lia; subst j. simpl in H.
    rewrite H. exists 0; split; [reflexivity|lia].
  - destruct (starts_with pat (c :: s)) eqn:E.
    + exists 0; split; [reflexivity|lia].
    + destruct j as [|j]; simpl in H; [congruence|].
      destruct (IH j H ltac:(lia)) as (i & Hi & Hle).
      rewrite Hi. simpl. exists (S i); split; [reflexivity|lia].
Qed.

Lemma index_None_occ (pat s : str) (j : nat) :
  index pat s = None -> j <= length s -> starts_with pat (skipn j s) = false.
Proof.
  intros Hn Hj. destruct (starts_with pat (skipn j s)) eqn:E; [|reflexivity].
  destruct (occ_index _ _ _ E Hj) as (i & Hi & _). congruence.
Qed.

Lemma index_decomp (pat s : str) (i : nat) :
  index pat s = Some i ->
  s = firstn i s ++ pat ++ skipn (i + length pat) s.
Proof.
  intros H. apply index_Some_occ in H as [H _].
  apply starts_with_split in H.
  rewrite <- (firstn_skipn i s) at 1. f_equal.
  rewrite H at 1. f_equal. rewrite skipn_skipn. f_equal. lia.
Qed.

Lemma contains_true_index (pat s : str) :
  contains pat s = true -> exists i, index pat s = Some i.
Proof.
  unfold contains. destruct (index pat s) as [i|]; [eauto|discriminate].
Qed.

Lemma contains_false_index (pat s : str) :
  contains pat s = false -> index pat s = None.
Proof.
  unfold contains. destruct (index pat s); [discriminate|reflexivity].
Qed.

Lemma find_index (pat s : str) (i : nat) :
  index pat s = Some i -> find pat s = Z.of_nat i.
Proof. unfold find. now intros ->. Qed.

(** An occurrence whose window lies inside a common prefix is an occurrence
    in both texts. *)
Lemma occ_prefix (pat p x y : str) (j : nat) :
  j + length pat <= length p ->
  starts_with pat (skipn j (p ++ x)) = starts_with pat (skipn j (p ++ y)).
Proof.
  intros H. rewrite !skipn_app.
  rewrite !starts_with_app_long by (rewrite length_skipn; lia).
  reflexivity.
Qed.

(** The leftmost occurrence does not depend on what follows it. *)
Lemma index_app_stable (pat a x y : str) :
  index pat (a ++ pat ++ x) = Some (length a) ->
  index pat (a ++ pat ++ y) = Some (length a).
Proof.
  intros H.
  assert (Hocc : starts_with pat (skipn (length a) (a ++ pat ++ y)) = true).
  { rewrite skipn_app, skipn_all, Nat.sub_diag. simpl. apply starts_with_app. }
  destruct (occ_index _ _ _ Hocc) as (i & Hi & Hle).
  { rewrite length_app. lia. }
  destruct (Nat.eq_dec i (length a)) as [->|Hne]; [assumption|].
  exfalso. assert (Hlt : i < length a) by lia.
  pose proof (index_first _ _ _ _ H Hlt) as Hf.
  apply index_Some_occ in Hi as [Hi _].
  rewrite !app_assoc in Hf, Hi.
  rewrite (occ_prefix pat (a ++ pat) x y) in Hf
    by (rewrite length_app; lia).
  congruence.
Qed.

Lemma skipn_app_plus (a b : str) (k : nat) :
  skipn (length a + k) (a ++ b) = skipn k b.
Proof.
  rewrite Nat.add_comm, <- skipn_skipn, skipn_app, skipn_all, Nat.sub_diag.
  reflexivity.
Qed.

(** *** Slices *)

Lemma clamp_of_nat (len i : nat) : clamp len (Z.of_nat i) = Nat.min i len.
Proof.
  unfold clamp. destruct (Z.ltb_spec (Z.of_nat i) 0); [lia|].
  now rewrite Nat2Z.id.
Qed.

Lemma slice_prefix (s : str) (i : nat) :
  slice s None (Some (Z.of_nat i)) = firstn i s.
Proof.
  unfold slice. rewrite clamp_of_nat. simpl.
  destruct (Nat.le_ge_cases i (length s)).
  - now rewrite Nat.min_l.
  - rewrite Nat.min_r by assumption. now rewrite !firstn_all2 by lia.
Qed.

Lemma slice_suffix (s : str) (i : nat) :
  slice s (Some (Z.of_nat i)) None = skipn i s.
Proof.
  unfold slice. rewrite clamp_of_nat, firstn_all.
  destruct (Nat.le_ge_cases i (length s)).
  - now rewrite Nat.min_l.
  - rewrite Nat.min_r by assumption. now rewrite !skipn_all2 by lia.
Qed.

Lemma slice_middle (s : str) (i j : nat) :
  slice s (Some (Z.of_nat i)) (Some (Z.of_nat j)) = skipn i (firstn j s).
Proof.
  unfold slice. rewrite !clamp_of_nat.
  destruct (Nat.le_ge_cases j (length s)) as [Hj|Hj].
  - rewrite (Nat.min_l j) by assumption.
    destruct (Nat.le_ge_cases i (length s)).
    + now rewrite Nat.min_l.
    + rewrite Nat.min_r by assumption.
      rewrite !skipn_all2; [reflexivity | | ]; rewrite length_firstn; lia.
  - rewrite (Nat.min_r j) by assumption. rewrite !firstn_all2 by lia.
    destruct (Nat.le_ge_cases i (length s)).
    + now rewrite Nat.min_l.
    + rewrite Nat.min_r by assumption. now rewrite !skipn_all2 by lia.
Qed.

(** ** The thinking-marker loop *)

Lemma strip_loop_S (fuel : nat) (thoughts text : str) :
  strip_loop (S fuel) thoughts text =
  if contains THINK_OPEN text && contains THINK_CLOSE text
  then strip_loop fuel (thoughts ++ strip_thought_step text ++ NL ++ NL)
                       (strip_text_step text)
  else Some (thoughts, text).
Proof. reflexivity. Qed.

Lemma strip_loop_exit (fuel : nat) (thoughts text : str) :
  contains THINK_OPEN text && contains THINK_CLOSE text = false ->
  strip_loop fuel thoughts text = Some (thoughts, text).
Proof. intros H. destruct fuel; simpl; now rewrite H. Qed.

Lemma open_not_inside_close (b : str) (k : nat) :
  1 <= k <= 7 -> starts_with THINK_OPEN (skipn k (THINK_CLOSE ++ b)) = false.
Proof.
  intros H. do 8 (destruct k as [|k]; [try lia; reflexivity|]). lia.
Qed.

Lemma close_first_gap (text : str) (e s : nat) :
  index THINK_CLOSE text = Some e -> index THINK_OPEN text = Some s ->
  e < s -> e + 8 <= s.
Proof.
  intros He Hs Hlt.
  destruct (Nat.le_gt_cases (e + 8) s) as [|Hin]; [assumption|exfalso].
  pose proof (index_decomp _ _ _ He) as Hd.
  apply index_Some_occ in Hs as [Hs _].
  apply index_Some_occ in He as [_ Hle].
  rewrite Hd in Hs.
  replace s with (length (firstn e text) + (s - e)) in Hs
    by (rewrite length_firstn; lia).
  rewrite skipn_app_plus in Hs.
  rewrite open_not_inside_close in Hs by lia. discriminate.
Qed.

Lemma close_first_step (text : str) :
  close_first text -> close_first (strip_text_step text).
Proof.
  intros (e & s & He & Hs & Hlt).
  pose proof (close_first_gap _ _ _ He Hs Hlt) as Hgap.
  unfold strip_text_step.
  rewrite (find_index _ _ _ Hs), (find_index _ _ _ He).
  replace (Z.of_nat e + 8)%Z with (Z.of_nat (e + 8)) by lia.
  rewrite slice_prefix, slice_suffix.
  pose proof (index_decomp _ _ _ He) as Hd.
  destruct (index_Some_occ _ _ _ He) as [_ Hele].
  destruct (index_Some_occ _ _ _ Hs) as [Hsocc Hsle].
  set (A := firstn e text) in *.
  set (B := skipn (e + length THINK_CLOSE) text) in *.
  assert (HA : length A = e) by (unfold A; rewrite length_firstn; lia).
  change (length THINK_CLOSE) with 8 in *.
  assert (Hsk : skipn (e + 8) text = B) by reflexivity.
  assert (Hfs : firstn s text = A ++ THINK_CLOSE ++ firstn (s - e - 8) B).
  { rewrite Hd at 1. rewrite firstn_app, HA.
    rewrite (firstn_all2 (n := s) A) by lia. f_equal.
    rewrite firstn_app. change (length THINK_CLOSE) with 8.
    rewrite (firstn_all2 (n := s - e) THINK_CLOSE) by (simpl; lia).
    reflexivity. }
  rewrite Hsk, Hfs. rewrite <- !app_assoc.
  set (X := firstn (s - e - 8) B ++ B).
  assert (He' : index THINK_CLOSE (A ++ THINK_CLOSE ++ X) = Some e).
  { rewrite <- HA. apply index_app_stable with (x := B).
    rewrite HA, <- Hd. assumption. }
  (* the start marker of [B] is still there *)
  assert (HoccB : starts_with THINK_OPEN (skipn (s - e - 8) B) = true).
  { rewrite Hd in Hsocc.
    replace s with (length (A ++ THINK_CLOSE) + (s - e - 8)) in Hsocc
      by (rewrite length_app, HA; simpl; lia).
    rewrite app_assoc, skipn_app_plus in Hsocc.
    exact Hsocc. }
  assert (HlenB : s - e - 8 <= length B).
  { unfold B. rewrite length_skipn. lia. }
  assert (Hocc' : starts_with THINK_OPEN
            (skipn (length (A ++ THINK_CLOSE ++ firstn (s - e - 8) B) + (s - e - 8))
                   (A ++ THINK_CLOSE ++ X)) = true).
  { replace (A ++ THINK_CLOSE ++ X)
      with ((A ++ THINK_CLOSE ++ firstn (s - e - 8) B) ++ B)
      by (unfold X; now rewrite <- !app_assoc).
    rewrite skipn_app_plus. exact HoccB. }
  destruct (occ_index _ _ _ Hocc') as (s' & Hs' & _).
  { unfold X. rewrite !length_app, length_firstn. lia. }
  exists e, s'. split; [assumption|]. split; [assumption|].
  destruct (Nat.le_gt_cases s' e) as [Hbad|]; [exfalso|assumption].
  apply index_Some_occ in Hs' as [Hs' _].
  rewrite app_assoc in Hs'.
  rewrite (occ_prefix THINK_OPEN (A ++ THINK_CLOSE) X B) in Hs'
    by (rewrite length_app, HA; simpl; lia).
  rewrite <- app_assoc, <- Hd in Hs'.
  assert (Hlt' : s' < s) by lia.
  rewrite (index_first _ _ _ _ Hs Hlt') in Hs'. discriminate.
Qed.

Lemma close_first_contains (text : str) :
  close_first text ->
  contains THINK_OPEN text && contains THINK_CLOSE text = true.
Proof.
  intros (e & s & He & Hs & _). unfold contains. now rewrite He, Hs.
Qed.

(** Once the first end marker precedes the first start marker, no number of
    iterations reaches the exit of the loop. *)
Lemma strip_loop_close_first (fuel : nat) (thoughts text : str) :
  close_first text -> strip_loop fuel thoughts text = None.
Proof.
  revert thoughts text; induction fuel as [|fuel IH]; intros thoughts text H.
  - simpl. now rewrite (close_first_contains _ H).
  - rewrite strip_loop_S, (close_first_contains _ H).
    apply IH. now apply close_first_step.
Qed.

Lemma strip_loop_mono (fuel : nat) (thoughts text : str) (r : str * str) :
  strip_loop fuel thoughts text = Some r ->
  strip_loop (S fuel) thoughts text = Some r.
Proof.
  revert thoughts text; induction fuel as [|fuel IH]; intros thoughts text.
  - simpl. destruct (contains THINK_OPEN text && contains THINK_CLOSE text);
      [discriminate | trivial].
  - rewrite (strip_loop_S (S fuel)), strip_loop_S.
    destruct (contains THINK_OPEN text && contains THINK_CLOSE text);
      [apply IH | trivial].
Qed.

Lemma strip_loop_mono_le (fuel fuel' : nat) (thoughts text : str) (r : str * str) :
  fuel <= fuel' ->
  strip_loop fuel thoughts text = Some r ->
  strip_loop fuel' thoughts text = Some r.
Proof.
  induction 1 as [|m _ IH]; [trivial|].
  intros H. apply strip_loop_mono, IH, H.
Qed.

Lemma open_close_distinct (text : str) (i : nat) :
  index THINK_OPEN text = Some i -> index THINK_CLOSE text = Some i -> False.
Proof.
  intros Ho Hc.
  apply index_Some_occ in Ho as [Ho _]. apply index_Some_occ in Hc as [Hc _].
  apply starts_with_split in Ho, Hc. rewrite Ho in Hc.
  cbv in Hc. discriminate.
Qed.

(** When the start marker comes first the text gets shorter. *)
Lemma strip_text_step_shorter (text : str) (s e : nat) :
  index THINK_OPEN text = Some s -> index THINK_CLOSE text = Some e ->
  s < e -> length (strip_text_step text) < length text.
Proof.
  intros Hs He Hlt. unfold strip_text_step.
  rewrite (find_index _ _ _ Hs), (find_index _ _ _ He).
  replace (Z.of_nat e + 8)%Z with (Z.of_nat (e + 8)) by lia.
  rewrite slice_prefix, slice_suffix, length_app, length_firstn, length_skipn.
  apply index_Some_occ in He as [He _].
  apply starts_with_length in He. rewrite length_skipn in He.
  change (length THINK_CLOSE) with 8 in He. lia.
Qed.

(** The loop either exits within [length text] iterations or never exits. *)
Lemma strip_loop_exhausted (fuel : nat) (thoughts text : str) :
  strip_loop fuel thoughts text = None ->
  fuel < length text \/ forall fuel' thoughts', strip_loop fuel' thoughts' text = None.
Proof.
  revert thoughts text; induction fuel as [|fuel IH]; intros thoughts text H.
  - left. simpl in H.
    destruct text; [discriminate | simpl; lia].
  - rewrite strip_loop_S in H.
    destruct (contains THINK_OPEN text && contains THINK_CLOSE text) eqn:Hc;
      [|discriminate].
    apply andb_true_iff in Hc as [Ho Hcl].
    destruct (contains_true_index _ _ Ho) as [s Hs].
    destruct (contains_true_index _ _ Hcl) as [e He].
    destruct (Nat.lt_trichotomy s e) as [Hlt | [Heq | Hgt]].
    + pose proof (strip_text_step_shorter _ _ _ Hs He Hlt) as Hshort.
      destruct (IH _ _ H) as [Hf | Hdiv]; [left; lia | right].
      intros [|fuel'] thoughts'.
      * simpl. now rewrite Ho, Hcl.
      * rewrite strip_loop_S, Ho, Hcl. apply Hdiv.
    + subst e. destruct (open_close_distinct _ _ Hs He).
    + right. intros fuel' thoughts'. apply strip_loop_close_first.
      exists e, s. auto.
Qed.

(** Running the stripper with [length text] iterations loses nothing. *)
Lemma strip_fuel_adequate (text : str) (fuel : nat) :
  length text <= fuel ->
  _strip_thinking_tokens fuel text = _strip_thinking_tokens (length text) text.
Proof.
  intros Hle. unfold _strip_thinking_tokens.
  destruct (strip_loop (length text) [] text) as [r|] eqn:E.
  - now rewrite (strip_loop_mono_le _ _ _ _ _ Hle E).
  - destruct (strip_loop_exhausted _ _ _ E) as [Hlt | Hdiv]; [lia|].
    now rewrite Hdiv.
Qed.

(** *** Texts made of marked spans *)

Lemma starts_with_tail_blocked (c0 : char) (pat u w : str) :
  forallb (fun x => negb (char_eqb c0 x)) pat = true ->
  starts_with pat u = false ->
  starts_with pat (u ++ c0 :: w) = false.
Proof.
  revert u; induction pat as [|q pat IH]; intros u Hu H; [discriminate|].
  simpl in Hu. apply andb_true_iff in Hu as [Hq Hu].
  destruct u as [|d u]; simpl in *.
  - rewrite N.eqb_sym in Hq. unfold char_eqb in *.
    destruct (q =? c0)%N; [discriminate | reflexivity].
  - destruct (char_eqb q d); [|reflexivity]. simpl in *. now apply IH.
Qed.

Lemma starts_with_blocked (pat u w : str) (c0 : char) (pat' : str) :
  pat = c0 :: pat' -> head_unique pat = true ->
  u <> [] -> starts_with pat u = false ->
  starts_with pat (u ++ c0 :: w) = false.
Proof.
  intros -> Hu Hne H. simpl in Hu.
  destruct u as [|d u]; [congruence|]. simpl in *.
  destruct (char_eqb c0 d); [|reflexivity]. simpl in *.
  now apply starts_with_tail_blocked.
Qed.

(** A marker right after a text that has none is the leftmost one. *)
Lemma index_after_clean (pat a x : str) :
  head_unique pat = true -> contains pat a = false ->
  index pat (a ++ pat ++ x) = Some (length a).
Proof.
  intros Hu Hc. apply contains_false_index in Hc.
  assert (Hocc : starts_with pat (skipn (length a + 0) (a ++ pat ++ x)) = true).
  { rewrite skipn_app_plus. apply starts_with_app. }
  rewrite Nat.add_0_r in Hocc.
  destruct (occ_index _ _ _ Hocc) as (i & Hi & Hle).
  { rewrite length_app. lia. }
  destruct (Nat.eq_dec i (length a)) as [->|Hne]; [assumption|exfalso].
  apply index_Some_occ in Hi as [Hi _].
  rewrite skipn_app in Hi.
  replace (i - length a) with 0 in Hi by lia. simpl skipn at 2 in Hi.
  destruct pat as [|c0 pat']; [discriminate|].
  change ((c0 :: pat') ++ x) with (c0 :: (pat' ++ x)) in Hi.
  rewrite (starts_with_blocked (c0 :: pat') _ _ c0 pat' eq_refl Hu) in Hi;
    [discriminate | | ].
  - intros Hnil. apply (f_equal (@length _)) in Hnil.
    rewrite length_skipn in Hnil. simpl in Hnil. lia.
  - apply index_None_occ; [assumption | lia].
Qed.

Lemma contains_cons (pat : str) (c : char) (s : str) :
  contains pat (c :: s) = starts_with pat (c :: s) || contains pat s.
Proof.
  unfold contains. simpl index.
  destruct (starts_with pat (c :: s)); [reflexivity|].
  now destruct (index pat s).
Qed.

Lemma contains_app_false (pat a b : str) :
  contains pat (a ++ b) = false ->
  contains pat a = false /\ contains pat b = false.
Proof.
  intros H. apply contains_false_index in H. split.
  - destruct (contains pat a) eqn:E; [exfalso|reflexivity].
    destruct (contains_true_index _ _ E) as [i Hi].
    apply index_Some_occ in Hi as [Hi Hle].
    pose proof (starts_with_length _ _ Hi) as Hlen. rewrite length_skipn in Hlen.
    assert (Hf : starts_with pat (skipn i (a ++ b)) = false).
    { apply index_None_occ; [assumption | rewrite length_app; lia]. }
    rewrite skipn_app, starts_with_app_long in Hf by (rewrite length_skipn; lia).
    congruence.
  - destruct (contains pat b) eqn:E; [exfalso|reflexivity].
    destruct (contains_true_index _ _ E) as [i Hi].
    apply index_Some_occ in Hi as [Hi Hle].
    assert (Hf : starts_with pat (skipn (length a + i) (a ++ b)) = false).
    { apply index_None_occ; [assumption | rewrite length_app; lia]. }
    rewrite skipn_app_plus in Hf. congruence.
Qed.

(** No occurrence can straddle the junction when the right part begins with
    the first character of the marker. *)
Lemma contains_junction (pat a w : str) (c0 : char) (pat' : str) :
  pat = c0 :: pat' -> head_unique pat = true ->
  contains pat a = false -> contains pat (c0 :: w) = false ->
  contains pat (a ++ c0 :: w) = false.
Proof.
  intros Hp Hu Ha Hw. induction a as [|c a IH]; [assumption|].
  rewrite contains_cons in Ha. apply orb_false_iff in Ha as [Hs Ha].
  simpl app. rewrite contains_cons. apply orb_false_iff. split.
  - change (c :: a ++ c0 :: w) with ((c :: a) ++ c0 :: w).
    apply (starts_with_blocked pat _ _ c0 pat' Hp Hu); [discriminate | assumption].
  - now apply IH.
Qed.

Lemma close_not_in_open (i : str) :
  contains THINK_CLOSE i = false -> contains THINK_CLOSE (THINK_OPEN ++ i) = false.
Proof.
  intros H. change (THINK_OPEN ++ i)
    with (60 :: 116 :: 104 :: 105 :: 110 :: 107 :: 62 :: i)%N.
  repeat (rewrite contains_cons; apply orb_false_iff; split; [reflexivity|]).
  assumption.
Qed.

Lemma strip_loop_render (segs : list (str * str)) (tail : str) :
  Forall (fun seg => contains THINK_CLOSE (snd seg) = false) segs ->
  forall (acc thoughts : str) (fuel : nat),
    contains THINK_OPEN (acc ++ outside_text segs tail) = false ->
    contains THINK_CLOSE (acc ++ outside_text segs tail) = false ->
    length segs <= fuel ->
    strip_loop fuel thoughts (acc ++ render segs tail)
    = Some (thoughts ++ inner_thoughts segs, acc ++ outside_text segs tail).
Proof.
  induction 1 as [|[before inner] rest Hin _ IH]; intros acc thoughts fuel Ho Hc Hf.
  - unfold outside_text, inner_thoughts in *. simpl in *.
    rewrite app_nil_r. apply strip_loop_exit. now rewrite Ho.
  - destruct fuel as [|fuel]; [simpl in Hf; lia|].
    simpl in Hin. cbn [render].
    assert (Hout : acc ++ outside_text ((before, inner) :: rest) tail
                   = (acc ++ before) ++ outside_text rest tail).
    { unfold outside_text. simpl. now rewrite <- !app_assoc. }
    rewrite Hout in *.
    destruct (contains_app_false _ _ _ Ho) as [Hoa _].
    destruct (contains_app_false _ _ _ Hc) as [Hca _].
    set (a := acc ++ before) in *.
    set (rest_text := render rest tail).
    assert (Htext : acc ++ before ++ THINK_OPEN ++ inner ++ THINK_CLOSE ++ rest_text
                    = a ++ THINK_OPEN ++ inner ++ THINK_CLOSE ++ rest_text).
    { unfold a. now rewrite <- app_assoc. }
    rewrite Htext.
    assert (Hs : index THINK_OPEN
                   (a ++ THINK_OPEN ++ inner ++ THINK_CLOSE ++ rest_text)
                 = Some (length a)).
    { now apply index_after_clean. }
    assert (He : index THINK_CLOSE
                   (a ++ THINK_OPEN ++ inner ++ THINK_CLOSE ++ rest_text)
                 = Some (length a + 7 + length inner)).
    { replace (a ++ THINK_OPEN ++ inner ++ THINK_CLOSE ++ rest_text)
        with ((a ++ THINK_OPEN ++ inner) ++ THINK_CLOSE ++ rest_text)
        by now rewrite <- !app_assoc.
      replace (length a + 7 + length inner) with (length (a ++ THINK_OPEN ++ inner))
        by (rewrite !length_app; simpl; lia).
      apply index_after_clean; [reflexivity|].
      change (THINK_OPEN ++ inner) with (60%N :: skipn 1 THINK_OPEN ++ inner).
      apply (contains_junction THINK_CLOSE a _ 60%N (skipn 1 THINK_CLOSE));
        [reflexivity | reflexivity | assumption |].
      now apply close_not_in_open. }
    rewrite strip_loop_S.
    unfold contains at 1 2. rewrite Hs, He. simpl andb. cbv iota.
    unfold strip_thought_step, strip_text_step.
    rewrite (find_index _ _ _ Hs), (find_index _ _ _ He).
    replace (Z.of_nat (length a) + 7)%Z with (Z.of_nat (length a + 7)) by lia.
    replace (Z.of_nat (length a + 7 + length inner) + 8)%Z
      with (Z.of_nat (length a + 7 + length inner + 8)) by lia.
    rewrite slice_middle, slice_prefix, slice_suffix.
    assert (Hmid : skipn (length a + 7)
                     (firstn (length a + 7 + length inner)
                        (a ++ THINK_OPEN ++ inner ++ THINK_CLOSE ++ rest_text))
                   = inner).
    { replace (a ++ THINK_OPEN ++ inner ++ THINK_CLOSE ++ rest_text)
        with ((a ++ THINK_OPEN ++ inner) ++ THINK_CLOSE ++ rest_text)
        by now rewrite <- !app_assoc.
      replace (length a + 7 + length inner) with (length (a ++ THINK_OPEN ++ inner) + 0)
        by (rewrite !length_app; simpl; lia).
      rewrite firstn_app_2. simpl firstn. rewrite app_nil_r.
      replace (a ++ THINK_OPEN ++ inner) with ((a ++ THINK_OPEN) ++ inner)
        by now rewrite <- !app_assoc.
      replace (length a + 7) with (length (a ++ THINK_OPEN) + 0)
        by (rewrite !length_app; simpl; lia).
      now rewrite skipn_app_plus. }
    assert (Hpre : firstn (length a)
                     (a ++ THINK_OPEN ++ inner ++ THINK_CLOSE ++ rest_text) = a).
    { rewrite <- (Nat.add_0_r (length a)), firstn_app_2. simpl.
      now rewrite app_nil_r. }
    assert (Hsuf : skipn (length a + 7 + length inner + 8)
                     (a ++ THINK_OPEN ++ inner ++ THINK_CLOSE ++ rest_text)
                   = rest_text).
    { replace (a ++ THINK_OPEN ++ inner ++ THINK_CLOSE ++ rest_text)
        with ((a ++ THINK_OPEN ++ inner ++ THINK_CLOSE) ++ rest_text)
        by now rewrite <- !app_assoc.
      replace (length a + 7 + length inner + 8)
        with (length (a ++ THINK_OPEN ++ inner ++ THINK_CLOSE) + 0)
        by (rewrite !length_app; simpl; lia).
      now rewrite skipn_app_plus. }
    rewrite Hmid, Hpre, Hsuf.
    unfold rest_text. rewrite IH; [|assumption|assumption|simpl in Hf; lia].
    f_equal. f_equal. unfold inner_thoughts. simpl.
    now rewrite <- !app_assoc.
Qed.

Lemma lstrip_suffix (s : str) : exists a, s = a ++ lstrip s.
Proof.
  induction s as [|c s [a IH]]; [now exists []|].
  simpl. destruct (isspace c).
  - exists (c :: a). simpl. now f_equal.
  - now exists [].
Qed.

Lemma strip_substring (s : str) : exists a b, s = a ++ strip s ++ b.
Proof.
  unfold strip, rstrip.
  destruct (lstrip_suffix s) as [a Ha].
  destruct (lstrip_suffix (rev (lstrip s))) as [b Hb].
  exists a, (rev b).
  rewrite <- rev_app_distr, <- Hb, rev_involutive. exact Ha.
Qed.

Lemma contains_strip_false (pat s : str) :
  contains pat s = false -> contains pat (strip s) = false.
Proof.
  intros H. destruct (strip_substring s) as (a & b & Hs).
  rewrite Hs in H.
  apply contains_app_false in H as [_ H].
  now apply contains_app_false in H as [H _].
Qed.

(** C8, as the code has it: for a text written as marked spans, where the
    text outside the spans contains no marker and no span's inner text
    contains an end marker, the stripper returns with the outside text
    (trimmed) as [cleanedText], which contains neither marker, and with the
    inner texts, each trimmed and followed by a blank line, concatenated in
    order and trimmed, as [thoughts]. *)
Theorem C8_strip_marked_spans (segs : list (str * str)) (tail : str) (fuel : nat) :
  contains THINK_OPEN (outside_text segs tail) = false ->
  contains THINK_CLOSE (outside_text segs tail) = false ->
  forallb (fun seg => negb (contains THINK_CLOSE (snd seg))) segs = true ->
  length segs <= fuel ->
  _strip_thinking_tokens fuel (render segs tail)
  = Some (strip (inner_thoughts segs), strip (outside_text segs tail))
  /\ contains THINK_OPEN (strip (outside_text segs tail)) = false
  /\ contains THINK_CLOSE (strip (outside_text segs tail)) = false.
Proof.
  intros Ho Hc Hin Hf. split; [|split; now apply contains_strip_false].
  unfold _strip_thinking_tokens.
  assert (Hall : Forall (fun seg => contains THINK_CLOSE (snd seg) = false) segs).
  { apply Forall_forall. intros seg Hseg.
    rewrite forallb_forall in Hin. specialize (Hin seg Hseg).
    now apply negb_true_iff in Hin. }
  pose proof (strip_loop_render segs tail Hall [] [] fuel Ho Hc Hf) as H.
  simpl app in H. now rewrite H.
Qed.

Lemma C8_strip_marked_spans_witness :
  _strip_thinking_tokens 2
    (render [(lit "", lit " a b "); (lit " {x} ", lit "c")] (lit ""))
  = Some (strip (inner_thoughts [(lit "", lit " a b "); (lit " {x} ", lit "c")]),
          strip (outside_text [(lit "", lit " a b "); (lit " {x} ", lit "c")] (lit "")))
  /\ contains THINK_OPEN
       (strip (outside_text [(lit "", lit " a b "); (lit " {x} ", lit "c")] (lit "")))
     = false
  /\ contains THINK_CLOSE
       (strip (outside_text [(lit "", lit " a b "); (lit " {x} ", lit "c")] (lit "")))
     = false.
Proof.
  apply C8_strip_marked_spans; [reflexivity | reflexivity | reflexivity | simpl; lia].
Defined.

(** C8, as stated, fails: in this text the only start marker is followed by
    the only end marker, and cutting the span out joins the characters
    around it into a new start marker, which stays in [cleanedText]. *)
Lemma C8_balanced_input_leaves_marker :
  markers_balanced (lit "<<think>a</think>think>") = true
  /\ _strip_thinking_tokens 23 (lit "<<think>a</think>think>")
     = Some (lit "a", lit "<think>")
  /\ contains THINK_OPEN (lit "<think>") = true.
Proof. split; [|split]; vm_compute; reflexivity. Qed.

(** C9: on a text whose end marker comes before its start marker the loop
    of the stripper never exits, whatever number of iterations is allowed. *)
Theorem C9_end_marker_first_never_exits :
  forall fuel : nat, _strip_thinking_tokens fuel (lit "</think><think>") = None.
Proof.
  intros fuel. unfold _strip_thinking_tokens.
  rewrite strip_loop_close_first; [reflexivity|].
  exists 0, 8. split; [reflexivity | split; [reflexivity | lia]].
Qed.

(** ** The math-delimiter normalizer *)

Lemma sub_no_match (m : Re.matcher) (repl : str -> str) (s : str) :
  Re.search m s = None -> Re.sub m repl s = s.
Proof.
  intros H. unfold Re.sub. destruct (length s); simpl; [reflexivity|].
  now rewrite H.
Qed.

Lemma search_no_pair (op cl seg : str) :
  has_pair op cl seg = false -> Re.search (Re.lazy_between op cl) seg = None.
Proof.
  induction seg as [|c seg IH]; simpl; intros H;
    apply orb_false_iff in H as [Hhead Htail]; unfold Re.lazy_between at 1.
  - destruct (starts_with op []); [|reflexivity].
    simpl in Hhead. unfold contains in Hhead.
    now destruct (index cl (skipn (length op) [])).
  - rewrite (IH Htail).
    destruct (starts_with op (c :: seg)); [|reflexivity].
    simpl in Hhead. unfold contains in Hhead.
    now destruct (index cl (skipn (length op) (c :: seg))).
Qed.

Lemma normalize_segment_clean (seg : str) :
  negb (has_pair DISPLAY_OPEN DISPLAY_CLOSE seg)
  && negb (has_pair INLINE_OPEN INLINE_CLOSE seg) = true ->
  normalize_segment seg = seg.
Proof.
  intros H. apply andb_true_iff in H as [H1 H2].
  apply negb_true_iff in H1, H2.
  apply search_no_pair in H1, H2.
  unfold normalize_segment, DISPLAY_RE, INLINE_RE.
  rewrite (sub_no_match _ _ _ H1). now apply sub_no_match.
Qed.

Lemma map_even_fixed (f : str -> str) (P : str -> bool) (parts : list str) :
  (forall seg, P seg = true -> f seg = seg) ->
  even_forall P parts = true -> map_even f parts = parts.
Proof.
  intros Hf. revert parts. fix IH 1. intros [|seg [|code rest]]; simpl; intros H.
  - reflexivity.
  - rewrite andb_true_r in H. now rewrite Hf.
  - apply andb_true_iff in H as [Hseg Hrest].
    rewrite Hf by assumption. now rewrite IH.
Qed.

Lemma search_whole_group (m : Re.matcher) (s : str) (i n : nat) (g : str) :
  Re.search (Re.whole m) s = Some (i, n, g) -> g = firstn n (skipn i s).
Proof.
  revert i; induction s as [|c s IH]; intros i; simpl; unfold Re.whole at 1.
  - destruct (m []) as [[k _]|]; [|discriminate]. now intros [= <- <- <-].
  - destruct (m (c :: s)) as [[k _]|].
    + now intros [= <- <- <-].
    + destruct (Re.search (Re.whole m) s) as [[[j k] g']|]; [|discriminate].
      intros [= <- <- <-]. now apply IH.
Qed.

(** Joining the parts of a split gives the text back. *)
Lemma join_split_fuel (m : Re.matcher) (fuel : nat) (s : str) :
  join (Re.split_fuel fuel (Re.whole m) s) = s.
Proof.
  revert s; induction fuel as [|fuel IH]; intros s; simpl.
  - apply app_nil_r.
  - destruct (Re.search (Re.whole m) s) as [[[i n] g]|] eqn:E; simpl.
    + unfold join in IH. rewrite IH.
      rewrite (search_whole_group _ _ _ _ _ E).
      rewrite <- (firstn_skipn i s) at 4. f_equal.
      rewrite <- (firstn_skipn n (skipn i s)) at 2. f_equal.
      rewrite skipn_skipn. f_equal. lia.
    + apply app_nil_r.
Qed.

(** C7, as the code has it: a text in target delimiter form is returned
    unchanged, so a second pass changes nothing whenever the first pass
    ended in target form. *)
Theorem C7_normalize_fixes_target_form (text : str) :
  in_target_form text = true ->
  _normalize_latex text = text
  /\ _normalize_latex (_normalize_latex text) = _normalize_latex text.
Proof.
  intros H.
  assert (Hfix : _normalize_latex text = text).
  { unfold _normalize_latex, in_target_form in *.
    rewrite (map_even_fixed _ _ _ normalize_segment_clean H).
    apply join_split_fuel. }
  split; [assumption | now rewrite !Hfix].
Qed.

Lemma C7_normalize_fixes_target_form_witness :
  _normalize_latex (lit "x $q$ `a\(b\)` \] y \[ ```c \[d\]``` \) z \(") =
  lit "x $q$ `a\(b\)` \] y \[ ```c \[d\]``` \) z \("
  /\ _normalize_latex
       (_normalize_latex (lit "x $q$ `a\(b\)` \] y \[ ```c \[d\]``` \) z \("))
     = _normalize_latex (lit "x $q$ `a\(b\)` \] y \[ ```c \[d\]``` \) z \(").
Proof. apply C7_normalize_fixes_target_form. reflexivity. Defined.

(** C7, as stated, fails: the first pass pairs the first opening delimiter
    with the first closing one, which leaves the second opening delimiter
    and the second closing one behind as a pair for the second pass. *)
Lemma C7_second_pass_differs :
  _normalize_latex (lit "\[a\[b\]c\]") = lit "$$a\[b$$c\]"
  /\ _normalize_latex (lit "$$a\[b$$c\]") = lit "$$a$$b$$c$$"
  /\ _normalize_latex (_normalize_latex (lit "\[a\[b\]c\]"))
     <> _normalize_latex (lit "\[a\[b\]c\]").
Proof.
  split; [|split]; [vm_compute; reflexivity | vm_compute; reflexivity |].
  vm_compute. discriminate.
Qed.

(** ** Reasoning about stages *)

Create HintDb stage discriminated.

Lemma kc_ret {A} (a : A) : keeps_completed (ret a).
Proof. now intros w. Qed.

Lemma kc_raise {A} (e : exn) : keeps_completed (@raise A e).
Proof. now intros w. Qed.

Lemma kc_lift {A} (r : exn + A) : keeps_completed (lift r).
Proof. destruct r; now intros w. Qed.

Lemma kc_bind {A B} (m : M A) (k : A -> M B) :
  keeps_completed m -> (forall a, keeps_completed (k a)) ->
  keeps_completed (bind m k).
Proof.
  intros Hm Hk w. unfold bind. specialize (Hm w).
  destruct (m w) as [[a| e |] w1]; simpl in *; [|assumption|assumption].
  now rewrite Hk.
Qed.

Lemma kc_try {A} (body handler : M A) :
  keeps_completed body -> keeps_completed handler ->
  keeps_completed (try_except body handler).
Proof.
  intros Hb Hh w. unfold try_except. specialize (Hb w).
  destruct (body w) as [[a| e |] w1]; simpl in *; try assumption.
  destruct (is_Exception e); simpl; [|assumption]. now rewrite Hh.
Qed.

Lemma kc_invoke_model (env : Env) (msgs : list message) :
  keeps_completed (invoke_model env msgs).
Proof. intros w. unfold invoke_model. now destruct (ainvoke env _ _). Qed.

Lemma kc_search_web (env : Env) (q : pyval) : keeps_completed (search_web env q).
Proof. intros w. unfold search_web. now destruct (tavily_search env _ _). Qed.

Lemma kc_notify (notify : Notifier) (name : string) (payload : list (string * pyval)) :
  keeps_completed (notify_event notify name payload).
Proof.
  intros w. unfold notify_event. destruct notify as [f|]; [|reflexivity].
  now destruct (f _ _).
Qed.

Lemma kc_clean_output (content : str) : keeps_completed (clean_output content).
Proof.
  intros w. unfold clean_output.
  now destruct (_strip_thinking_tokens _ _) as [[? ?]|].
Qed.

#[export] Hint Resolve kc_ret kc_raise kc_lift kc_try kc_invoke_model
  kc_search_web kc_notify kc_clean_output : stage.

Lemma yields_ret {A} (a : A) (P : A -> Prop) : P a -> yields (ret a) P.
Proof. intros H w b w' [= <- _]. exact H. Qed.

Lemma yields_bind_any {A B} (m : M A) (k : A -> M B) (P : B -> Prop) :
  (forall a, yields (k a) P) -> yields (bind m k) P.
Proof.
  intros Hk w b w'. unfold bind.
  destruct (m w) as [[a| e |] w1]; [|discriminate|discriminate].
  apply Hk.
Qed.

Lemma yields_try {A} (body handler : M A) (P : A -> Prop) :
  yields body P -> yields handler P -> yields (try_except body handler) P.
Proof.
  intros Hb Hh w a w'. unfold try_except.
  destruct (body w) as [[b| e |] w1] eqn:E.
  - intros [= <- <-]. eapply Hb, E.
  - destruct (is_Exception e); [apply Hh | discriminate].
  - discriminate.
Qed.

Ltac stage_step :=
  match goal with
  | |- keeps_completed (bind _ _) => apply kc_bind; [|intros]
  | |- keeps_completed (match ?x with (_, _) => _ end) => destruct x
  | |- keeps_completed (if ?b then _ else _) => destruct b
  | |- yields (bind _ _) _ => apply yields_bind_any; intros
  | |- yields (match ?x with (_, _) => _ end) _ => destruct x
  | |- yields (if ?b then _ else _) _ => destruct b
  | |- _ => solve [auto with stage]
  end
with stage_tac := repeat stage_step.

Section StageFacts.

Variable env : Env.
Variable notify : Notifier.

Lemma kc_run_node (n : node) (state : SummaryState) :
  keeps_completed (run_node env notify n state).
Proof.
  destruct n; simpl;
    unfold generate_query, web_research, summarize_sources, reflect_on_summary,
      finalize_summary;
    stage_tac.
  apply kc_try; stage_tac.
Qed.

Lemma kc_next_node (n : node) (state : SummaryState) :
  keeps_completed (next_node notify n state).
Proof. destruct n; simpl; unfold route_research; stage_tac. Qed.

(** What [web_research] returns for the three counted fields. *)
Lemma web_research_update (state : SummaryState) :
  yields (web_research env notify state)
    (fun u => (exists cite, u_sources_gathered u = Some [cite])
              /\ (exists ctx, u_web_research_results u = Some [ctx])
              /\ u_research_loop_count u = Some (research_loop_count state + 1)%Z).
Proof.
  unfold web_research. stage_tac. apply yields_ret. simpl. eauto.
Qed.

(** The other stages return none of the three counted fields. *)
Lemma other_stage_update (n : node) (state : SummaryState) :
  n <> NWebResearch ->
  yields (run_node env notify n state)
    (fun u => u_sources_gathered u = None
              /\ u_web_research_results u = None
              /\ u_research_loop_count u = None).
Proof.
  intros Hn. destruct n; try congruence; simpl;
    unfold generate_query, summarize_sources, reflect_on_summary, finalize_summary;
    stage_tac; try (apply yields_ret; simpl; auto).
  apply yields_try; stage_tac; apply yields_ret; simpl; auto.
Qed.

Lemma route_research_decision (state : SummaryState) :
  yields (route_research notify state)
    (fun n => n = if (research_loop_count state <=? 3)%Z
                  then NWebResearch else NFinalizeSummary).
Proof.
  unfold route_research.
  destruct (research_loop_count state <=? 3)%Z; stage_tac;
    now apply yields_ret.
Qed.

End StageFacts.

Lemma node_eq_END (n : node) : {n = END} + {n <> END}.
Proof. destruct n; (now left) || (now right). Qed.

Section GraphFacts.

Variable env : Env.
Variable notify : Notifier.

Lemma graph_step_inv (n n' : node) (state state' : SummaryState) (w w' : World) :
  graph_step env notify (n, state) w = (Ok (n', state'), w') ->
  exists u w1,
    run_node env notify n state w = (Ok u, w1)
    /\ state' = apply_update state u
    /\ completed w' = completed w ++ [n]
    /\ n' = successor n (research_loop_count state').
Proof.
  unfold graph_step, bind.
  pose proof (kc_run_node env notify n state w) as Hkc.
  destruct (run_node env notify n state w) as [[u| e |] w1] eqn:Erun;
    [|discriminate|discriminate].
  simpl in Hkc. unfold mark_completed.
  set (w2 := {| events := events w1; llm_calls := llm_calls w1;
                search_calls := search_calls w1;
                completed := completed w1 ++ [n] |}).
  pose proof (kc_next_node notify n (apply_update state u) w2) as Hkn.
  destruct (next_node notify n (apply_update state u) w2) as [[m| e |] w3] eqn:Enext;
    [|discriminate|discriminate].
  intros [= <- <- <-]. exists u, w1.
  split; [reflexivity|]. split; [reflexivity|].
  split; [simpl in Hkn; rewrite Hkn; simpl; now rewrite Hkc|].
  destruct n; simpl in Enext; try (now injection Enext as <- _).
  apply (route_research_decision notify _ _ _ _ Enext).
Qed.

(** The loop counter and the two accumulated lists after a step. *)
Lemma graph_step_counts (n n' : node) (state state' : SummaryState) (w w' : World) :
  graph_step env notify (n, state) w = (Ok (n', state'), w') ->
  research_loop_count state' = count_after n (research_loop_count state)
  /\ length (web_research_results state')
     = length (web_research_results state) + (if is_web_research n then 1 else 0)
  /\ length (sources_gathered state')
     = length (sources_gathered state) + (if is_web_research n then 1 else 0).
Proof.
  intros H. destruct (graph_step_inv _ _ _ _ _ _ H) as (u & w1 & Hrun & -> & _ & _).
  unfold count_after.
  destruct (is_web_research n) eqn:Hweb.
  - destruct n; try discriminate. simpl in Hrun.
    destruct (web_research_update env notify state _ _ _ Hrun)
      as ((cite & Hc) & (ctx & Hx) & Hn).
    simpl. rewrite Hc, Hx, Hn. simpl. rewrite !length_app. simpl. auto.
  - assert (Hne : n <> NWebResearch) by (intros ->; discriminate).
    destruct (other_stage_update env notify n state Hne _ _ _ Hrun)
      as (Hc & Hx & Hn).
    simpl. rewrite Hc, Hx, Hn. simpl. lia.
Qed.

Lemma graph_run_S (limit : nat) (n : node) (state : SummaryState) :
  n <> END ->
  graph_run env notify (S limit) (n, state)
  = bind (graph_step env notify (n, state)) (graph_run env notify limit).
Proof. destruct n; (reflexivity || congruence). Qed.

Lemma graph_run_END (limit : nat) (state : SummaryState) :
  graph_run env notify limit (END, state) = ret state.
Proof. now destruct limit. Qed.

Lemma path_S (limit : nat) (n : node) (count : Z) :
  n <> END ->
  path (S limit) n count
  = n :: path limit (successor n (count_after n count)) (count_after n count).
Proof. destruct n; (reflexivity || congruence). Qed.

(** A run that returns has gone through exactly the stages of [path]. *)
Lemma graph_run_path (limit : nat) :
  forall (n : node) (state final : SummaryState) (w w' : World),
    graph_run env notify limit (n, state) w = (Ok final, w') ->
    completed w' = completed w ++ path limit n (research_loop_count state).
Proof.
  induction limit as [|limit IH]; intros n state final w w' H.
  - destruct n; simpl in H; try discriminate.
    injection H as _ <-. simpl. now rewrite app_nil_r.
  - destruct (node_eq_END n) as [->|Hn].
    + rewrite graph_run_END in H. injection H as _ <-.
      simpl. now rewrite app_nil_r.
    + rewrite (graph_run_S _ _ _ Hn) in H. unfold bind in H.
      destruct (graph_step env notify (n, state) w)
        as [[[n' state']| e |] w1] eqn:Estep; [|discriminate|discriminate].
      destruct (graph_step_inv _ _ _ _ _ _ Estep) as (_ & _ & _ & _ & Hdone & Hnext).
      destruct (graph_step_counts _ _ _ _ _ _ Estep) as (Hcount & _ & _).
      apply IH in H. rewrite H, Hdone, <- app_assoc, (path_S _ _ _ Hn).
      simpl. now rewrite Hnext, Hcount.
Qed.

End GraphFacts.

Lemma reachable_run_steps (env : Env) (notify : Notifier) (topic : str) (k : nat) :
  forall c w0 w,
    completed w0 = [] ->
    run_steps env notify k (NGenerateQuery, initial_state topic) w0 = (Ok c, w) ->
    reachable env notify topic c w.
Proof.
  induction k as [|k IH]; intros c w0 w Hw0 H.
  - injection H as <- <-. now constructor.
  - simpl in H. unfold bind in H.
    destruct (run_steps env notify k (NGenerateQuery, initial_state topic) w0)
      as [[c1| e |] w1] eqn:E; [|discriminate|discriminate].
    eapply reach_step; [eapply IH; eassumption | exact H].
Qed.

(** ** Routing and rounds *)

Lemma bind_Ok_inv {A B} (m : M A) (k : A -> M B) (w w' : World) (b : B) :
  bind m k w = (Ok b, w') ->
  exists a w1, m w = (Ok a, w1) /\ k a w1 = (Ok b, w').
Proof.
  unfold bind.
  destruct (m w) as [[a| e |] w1]; [eauto | discriminate | discriminate].
Qed.

Lemma run_deep_research_unfold (env : Env) (notify : Notifier) (topic : str) :
  run_deep_research env notify topic
  = bind (graph_run env notify DEFAULT_RECURSION_LIMIT
            (NGenerateQuery, initial_state topic))
         (fun result => ret (running_summary result)).
Proof. reflexivity. Qed.

Lemma rounds_snoc (done : list node) (n : node) :
  rounds (done ++ [n]) = rounds done + (if is_web_research n then 1 else 0).
Proof.
  unfold rounds. rewrite filter_app, length_app. simpl.
  now destruct (is_web_research n).
Qed.

(** C1: the router's decision is a function of the loop counter alone, web
    research up to 3 and finalize from 4 on, and it returns whenever the
    notifier does; a run that returns has gone through query generation,
    exactly four rounds of web research, summary and reflection, and then
    finalize. *)
Theorem C1_routing_and_rounds (env : Env) (notify : Notifier) :
  (forall state w n w',
      route_research notify state w = (Ok n, w') ->
      n = successor NReflectOnSummary (research_loop_count state)
      /\ ((0 <= research_loop_count state <= 3)%Z -> n = NWebResearch)
      /\ ((4 <= research_loop_count state)%Z -> n = NFinalizeSummary))
  /\ (forall state w,
         quiet notify -> exists n w', route_research notify state w = (Ok n, w'))
  /\ (forall topic w report w',
         run_deep_research env notify topic w = (Ok report, w') ->
         completed w'
         = completed w
           ++ [NGenerateQuery;
               NWebResearch; NSummarizeSources; NReflectOnSummary;
               NWebResearch; NSummarizeSources; NReflectOnSummary;
               NWebResearch; NSummarizeSources; NReflectOnSummary;
               NWebResearch; NSummarizeSources; NReflectOnSummary;
               NFinalizeSummary]
         /\ rounds (completed w') = rounds (completed w) + 4).
Proof.
  split; [|split].
  - intros state w n w' H.
    pose proof (route_research_decision notify state _ _ _ H) as Hn.
    split; [exact Hn|]. simpl in Hn. split; intros Hc.
    + destruct (Z.leb_spec (research_loop_count state) 3); [assumption|lia].
    + destruct (Z.leb_spec (research_loop_count state) 3); [lia|assumption].
  - intros state w Hq. unfold route_research, bind, notify_event.
    destruct notify as [f|]; simpl in Hq;
      destruct (research_loop_count state <=? 3)%Z; simpl;
      try rewrite Hq; unfold ret; eauto.
  - intros topic w report w' H.
    rewrite run_deep_research_unfold in H.
    apply bind_Ok_inv in H as (final & w1 & E & H).
    injection H as _ <-.
    apply graph_run_path in E.
    replace (path DEFAULT_RECURSION_LIMIT NGenerateQuery
               (research_loop_count (initial_state topic)))
      with [NGenerateQuery;
            NWebResearch; NSummarizeSources; NReflectOnSummary;
            NWebResearch; NSummarizeSources; NReflectOnSummary;
            NWebResearch; NSummarizeSources; NReflectOnSummary;
            NWebResearch; NSummarizeSources; NReflectOnSummary;
            NFinalizeSummary] in E by (vm_compute; reflexivity).
    split; [exact E|]. rewrite E. unfold rounds.
    rewrite filter_app, length_app. simpl. reflexivity.
Qed.

Lemma C1_routing_and_rounds_witness :
  rounds (completed (snd (run_deep_research (stub_env stub_reply) None stub_topic
                            fresh_world)))
  = rounds (completed fresh_world) + 4.
Proof.
  destruct (C1_routing_and_rounds (stub_env stub_reply) None) as (_ & _ & H).
  refine (proj2 (H stub_topic fresh_world _ _ _)).
  vm_compute. reflexivity.
Defined.

(** ** The round invariant *)

Lemma web_research_inv (env : Env) (notify : Notifier) (state : SummaryState)
    (w w' : World) (u : Update) :
  web_research env notify state w = (Ok u, w') ->
  exists res ctx cite,
    tavily_search env (search_calls w) (search_query state) = inr res
    /\ deduplicate_and_format_sources env res 1000 = inr ctx
    /\ format_sources env res = inr cite
    /\ u_web_research_results u = Some [ctx]
    /\ u_sources_gathered u = Some [cite]
    /\ u_research_loop_count u = Some (research_loop_count state + 1)%Z.
Proof.
  unfold web_research, bind, search_web, lift.
  destruct (tavily_search env (search_calls w) (search_query state)) as [e|res];
    [discriminate|].
  destruct (deduplicate_and_format_sources env res 1000) as [e|ctx] eqn:Hd;
    [discriminate|].
  unfold ret at 1.
  match goal with
  | |- context [notify_event ?n ?name ?payload ?w0] =>
      destruct (notify_event n name payload w0) as [[[]| e |] w2]
  end; [|discriminate|discriminate].
  destruct (format_sources env res) as [e|cite] eqn:Hf; [discriminate|].
  unfold ret at 1.
  destruct (list_add (images state) _) as [e|imgs]; [discriminate|].
  intros [= <- _]. exists res, ctx, cite. simpl. auto 10.
Qed.

Lemma graph_step_fields (env : Env) (notify : Notifier) (n n' : node)
    (state state' : SummaryState) (w w' : World) :
  graph_step env notify (n, state) w = (Ok (n', state'), w') ->
  if is_web_research n then
    exists res ctx cite,
      tavily_search env (search_calls w) (search_query state) = inr res
      /\ deduplicate_and_format_sources env res 1000 = inr ctx
      /\ format_sources env res = inr cite
      /\ web_research_results state' = web_research_results state ++ [ctx]
      /\ sources_gathered state' = sources_gathered state ++ [cite]
      /\ research_loop_count state' = (research_loop_count state + 1)%Z
  else
    web_research_results state' = web_research_results state
    /\ sources_gathered state' = sources_gathered state
    /\ research_loop_count state' = research_loop_count state.
Proof.
  intros H. destruct (graph_step_inv _ _ _ _ _ _ _ _ H) as (u & w1 & Hrun & -> & _ & _).
  destruct (is_web_research n) eqn:Hweb.
  - destruct n; try discriminate. simpl in Hrun.
    destruct (web_research_inv _ _ _ _ _ _ Hrun)
      as (res & ctx & cite & Hs & Hd & Hf & Hx & Hc & Hn).
    exists res, ctx, cite. simpl. rewrite Hx, Hc, Hn. simpl. auto 10.
  - assert (Hne : n <> NWebResearch) by (intros ->; discriminate).
    destruct (other_stage_update env notify n state Hne _ _ _ Hrun)
      as (Hc & Hx & Hn).
    simpl. rewrite Hc, Hx, Hn. simpl. auto.
Qed.

(** ** Evaluating stages *)

Lemma bind_Ok {A B} (m : M A) (k : A -> M B) (w w1 : World) (a : A) :
  m w = (Ok a, w1) -> bind m k w = k a w1.
Proof. unfold bind. now intros ->. Qed.

Lemma bind_Raise {A B} (m : M A) (k : A -> M B) (w w1 : World) (e : exn) :
  m w = (Raise e, w1) -> bind m k w = (Raise e, w1).
Proof. unfold bind. now intros ->. Qed.

Lemma try_except_Ok {A} (body handler : M A) (w w1 : World) (a : A) :
  body w = (Ok a, w1) -> try_except body handler w = (Ok a, w1).
Proof. unfold try_except. now intros ->. Qed.

Lemma try_except_caught {A} (body handler : M A) (w w1 : World) (e : exn) :
  body w = (Raise e, w1) -> is_Exception e = true ->
  try_except body handler w = handler w1.
Proof. unfold try_except. now intros -> ->. Qed.

Lemma notify_event_quiet (notify : Notifier) (name : string)
    (payload : list (string * pyval)) (w : World) :
  quiet notify ->
  notify_event notify name payload w
  = (Ok tt, logged notify [{| ev_name := name; ev_payload := payload |}] w).
Proof.
  unfold notify_event, logged. destruct notify as [f|]; simpl; [|reflexivity].
  now intros ->.
Qed.

Lemma logged_logged (notify : Notifier) (a b : list event) (w : World) :
  logged notify b (logged notify a w) = logged notify (a ++ b) w.
Proof.
  unfold logged. destruct notify; [|reflexivity]. simpl. now rewrite <- app_assoc.
Qed.

Lemma invoke_model_Ok (env : Env) (msgs : list message) (w : World) (content : str) :
  ainvoke env (llm_calls w) msgs = inr content ->
  invoke_model env msgs w = (Ok content, tick_llm w).
Proof. unfold invoke_model. now intros ->. Qed.

Lemma clean_output_Some (content thoughts text : str) (w : World) :
  _strip_thinking_tokens (length content) content = Some (thoughts, text) ->
  clean_output content w = (Ok (thoughts, _normalize_latex text), w).
Proof. unfold clean_output. now intros ->. Qed.

Lemma lift_inr {A} (a : A) (w : World) : lift (inr a) w = (Ok a, w).
Proof. reflexivity. Qed.

(** A web-research step whose collaborators return. *)
Lemma web_research_step_returns (env : Env) (notify : Notifier)
    (state : SummaryState) (w : World) (res : pydict) (ctx cite : str)
    (new : list pyval) :
  quiet notify ->
  tavily_search env (search_calls w) (search_query state) = inr res ->
  deduplicate_and_format_sources env res 1000 = inr ctx ->
  format_sources env res = inr cite ->
  por (dict_get res (lit "images") (PList [])) (PList []) = PList new ->
  exists state' w',
    graph_step env notify (NWebResearch, state) w
    = (Ok (NSummarizeSources, state'), w')
    /\ web_research_results state' = web_research_results state ++ [ctx]
    /\ sources_gathered state' = sources_gathered state ++ [cite]
    /\ research_loop_count state' = (research_loop_count state + 1)%Z
    /\ completed w' = completed w ++ [NWebResearch].
Proof.
  intros Hq Hs Hd Hf Hi.
  assert (Hsearch : search_web env (search_query state) w = (Ok res, tick_search w)).
  { unfold search_web. now rewrite Hs. }
  assert (Hweb : web_research env notify state w
                 = (Ok {| u_search_query := None; u_rationale := None;
                          u_sources_gathered := Some [cite];
                          u_research_loop_count :=
                            Some (research_loop_count state + 1)%Z;
                          u_web_research_results := Some [ctx];
                          u_images := Some (images state ++ new);
                          u_running_summary := None; u_knowledge_gap := None |},
                    logged notify
                      [{| ev_name := "web_research";
                          ev_payload :=
                            [("sources", dict_get res (lit "results") (PList []));
                             ("images", PList new)] |}]
                      (tick_search w))).
  { unfold web_research.
    rewrite (bind_Ok _ _ _ _ _ Hsearch).
    rewrite Hd, Hi.
    rewrite (bind_Ok _ _ _ _ _ (lift_inr _ _)).
    rewrite (bind_Ok _ _ _ _ _ (notify_event_quiet _ _ _ _ Hq)).
    rewrite Hf.
    rewrite (bind_Ok _ _ _ _ _ (lift_inr _ _)).
    reflexivity. }
  eexists. eexists. split.
  - unfold graph_step. cbn [run_node].
    rewrite (bind_Ok _ _ _ _ _ Hweb). reflexivity.
  - unfold logged. destruct notify; simpl; auto.
Qed.

(** C2: in every configuration a run goes through, the loop counter and the
    lengths of the two accumulated lists equal the number of completed
    web-research rounds; a web-research step appends the one context block
    and the one citation block formatted from its search response and adds
    one to the counter, and every other step leaves the three fields as
    they are; and a web-research step whose search and formatters return,
    with a notifier that is absent or returns, does complete: it hands over
    to the summarizer with one block more in each list and the counter one
    higher. *)
Theorem C2_round_invariant (env : Env) (notify : Notifier) :
  (forall topic c w,
      reachable env notify topic c w ->
      research_loop_count (snd c) = Z.of_nat (rounds (completed w))
      /\ length (web_research_results (snd c)) = rounds (completed w)
      /\ length (sources_gathered (snd c)) = rounds (completed w))
  /\ (forall n state n' state' w w',
         graph_step env notify (n, state) w = (Ok (n', state'), w') ->
         if is_web_research n then
           exists res ctx cite,
             tavily_search env (search_calls w) (search_query state) = inr res
             /\ deduplicate_and_format_sources env res 1000 = inr ctx
             /\ format_sources env res = inr cite
             /\ web_research_results state' = web_research_results state ++ [ctx]
             /\ sources_gathered state' = sources_gathered state ++ [cite]
             /\ research_loop_count state' = (research_loop_count state + 1)%Z
         else
           web_research_results state' = web_research_results state
           /\ sources_gathered state' = sources_gathered state
           /\ research_loop_count state' = research_loop_count state)
  /\ (forall state w res ctx cite new,
         quiet notify ->
         tavily_search env (search_calls w) (search_query state) = inr res ->
         deduplicate_and_format_sources env res 1000 = inr ctx ->
         format_sources env res = inr cite ->
         por (dict_get res (lit "images") (PList [])) (PList []) = PList new ->
         exists state' w',
           graph_step env notify (NWebResearch, state) w
           = (Ok (NSummarizeSources, state'), w')
           /\ web_research_results state' = web_research_results state ++ [ctx]
           /\ sources_gathered state' = sources_gathered state ++ [cite]
           /\ research_loop_count state' = (research_loop_count state + 1)%Z
           /\ completed w' = completed w ++ [NWebResearch]).
Proof.
  split; [|split].
  - intros topic c w H. induction H as [w Hw | [n state] [n' state'] w w' Hr IH Hstep].
    + rewrite Hw. simpl. auto.
    + destruct IH as (Hn & Hx & Hc). simpl in Hn, Hx, Hc.
      destruct (graph_step_inv _ _ _ _ _ _ _ _ Hstep) as (_ & _ & _ & _ & Hdone & _).
      pose proof (graph_step_fields _ _ _ _ _ _ _ _ Hstep) as Hf.
      rewrite Hdone, rounds_snoc. simpl.
      destruct (is_web_research n).
      * destruct Hf as (res & ctx & cite & _ & _ & _ & -> & -> & ->).
        rewrite !length_app. simpl. lia.
      * destruct Hf as (-> & -> & ->). lia.
  - intros n state n' state' w w'. apply graph_step_fields.
  - intros state w res ctx cite new. apply web_research_step_returns.
Qed.

Lemma C2_round_invariant_witness :
  fst stub_after_5 = Ok stub_config_5
  /\ rounds (completed (snd stub_after_5)) = 2
  /\ research_loop_count (snd stub_config_5) = 2%Z
  /\ length (web_research_results (snd stub_config_5)) = 2
  /\ length (sources_gathered (snd stub_config_5)) = 2
  /\ exists state' w',
       graph_step (stub_env stub_reply) notifier_ok
         (NWebResearch, stub_later_state) fresh_world
       = (Ok (NSummarizeSources, state'), w')
       /\ web_research_results state' = [lit "Sources: t"; lit "Sources: t"]
       /\ sources_gathered state' = [lit "* t : u"; lit "* t : u"]
       /\ research_loop_count state' = 2%Z
       /\ completed w' = [NWebResearch].
Proof.
  assert (Hrounds : rounds (completed (snd stub_after_5)) = 2)
    by (vm_compute; reflexivity).
  destruct (C2_round_invariant (stub_env stub_reply) notifier_ok)
    as (Hinv & _ & Hprog).
  destruct (Hinv stub_topic stub_config_5 (snd stub_after_5)) as (Hn & Hx & Hc).
  { apply reachable_run_steps with (k := 5) (w0 := fresh_world);
      [reflexivity | vm_compute; reflexivity]. }
  rewrite Hrounds in Hn, Hx, Hc.
  split; [vm_compute; reflexivity|]. split; [exact Hrounds|].
  split; [exact Hn|]. split; [exact Hx|]. split; [exact Hc|].
  apply (Hprog stub_later_state fresh_world stub_search_result
           (lit "Sources: t") (lit "* t : u") [PStr (lit "u1")]).
  - intros log ev. reflexivity.
  - reflexivity.
  - reflexivity.
  - reflexivity.
  - reflexivity.
Defined.

Section QueryGeneration.

Variable env : Env.
Variable notify : Notifier.
Variables content thoughts text : str.
Hypothesis Hquiet : quiet notify.
Hypothesis Hstrip :
  _strip_thinking_tokens (length content) content = Some (thoughts, text).

Lemma generate_query_parse_error (state : SummaryState) (w : World) (e : exn) :
  ainvoke env (llm_calls w) (query_messages env state) = inr content ->
  json_loads env (_normalize_latex text) = inl e ->
  generate_query env notify state w
  = (Raise e, logged notify [thinking_event thoughts] (tick_llm w)).
Proof.
  intros Hai Hjson. unfold generate_query.
  rewrite (bind_Ok _ _ _ _ _ (invoke_model_Ok _ _ _ _ Hai)).
  rewrite (bind_Ok _ _ _ _ _ (clean_output_Some _ _ _ _ Hstrip)).
  rewrite (bind_Ok _ _ _ _ _ (notify_event_quiet _ _ _ _ Hquiet)).
  rewrite Hjson. apply bind_Raise. reflexivity.
Qed.

Lemma generate_query_parsed (state : SummaryState) (w : World)
    (kvs : pydict) (rq rationale : pyval) :
  ainvoke env (llm_calls w) (query_messages env state) = inr content ->
  json_loads env (_normalize_latex text) = inr (PDict kvs) ->
  dict_lookup (lit "query") kvs = Some rq ->
  dict_lookup (lit "rationale") kvs = Some rationale ->
  generate_query env notify state w
  = (Ok {| u_search_query := Some rq; u_rationale := Some rationale;
           u_sources_gathered := None; u_research_loop_count := None;
           u_web_research_results := None; u_images := None;
           u_running_summary := None; u_knowledge_gap := None |},
     logged notify
       [thinking_event thoughts; generate_query_event rq rationale thoughts]
       (tick_llm w)).
Proof.
  intros Hai Hjson Hq Hr. unfold generate_query.
  rewrite (bind_Ok _ _ _ _ _ (invoke_model_Ok _ _ _ _ Hai)).
  rewrite (bind_Ok _ _ _ _ _ (clean_output_Some _ _ _ _ Hstrip)).
  rewrite (bind_Ok _ _ _ _ _ (notify_event_quiet _ _ _ _ Hquiet)).
  rewrite Hjson.
  rewrite (bind_Ok _ _ _ _ _ (lift_inr _ _)).
  unfold getitem. rewrite Hq, Hr.
  rewrite !(bind_Ok _ _ _ _ _ (lift_inr _ _)).
  rewrite (bind_Ok _ _ _ _ _ (notify_event_quiet _ _ _ _ Hquiet)).
  rewrite logged_logged. reflexivity.
Qed.

End QueryGeneration.

Section Propagation.

Variable env : Env.
Variable notify : Notifier.

Lemma graph_step_Raise (n : node) (state : SummaryState) (w w1 : World) (e : exn) :
  run_node env notify n state w = (Raise e, w1) ->
  graph_step env notify (n, state) w = (Raise e, w1).
Proof. intros H. unfold graph_step. now apply bind_Raise. Qed.

Lemma graph_run_Raise (limit : nat) (n : node) (state : SummaryState)
    (w w1 : World) (e : exn) :
  n <> END ->
  run_node env notify n state w = (Raise e, w1) ->
  graph_run env notify (S limit) (n, state) w = (Raise e, w1).
Proof.
  intros Hn H. rewrite (graph_run_S _ _ _ _ _ Hn).
  apply bind_Raise. now apply graph_step_Raise.
Qed.

(** An exception raised by the first stage is the outcome of the run. *)
Lemma run_deep_research_Raise (topic : str) (w w1 : World) (e : exn) :
  generate_query env notify (initial_state topic) w = (Raise e, w1) ->
  run_deep_research env notify topic w = (Raise e, w1).
Proof.
  intros H. rewrite run_deep_research_unfold. apply bind_Raise.
  apply graph_run_Raise; [discriminate | exact H].
Qed.

End Propagation.

(** C5, as the code has it: the decoder receives the response of the model
    after the thinking spans are removed and the math delimiters rewritten.
    When the stripper returns and the decoder rejects that cleaned text,
    query generation raises the decoder's exception and the run ends with
    that same exception, after one model call, no search call, no completed
    stage and no report; when the cleaned text decodes to an object with
    the two keys, the stage returns them as the new query and rationale. *)
Theorem C5_query_parse_error_propagates (env : Env) (notify : Notifier)
    (content thoughts text : str) :
  quiet notify ->
  _strip_thinking_tokens (length content) content = Some (thoughts, text) ->
  (forall state w e,
      ainvoke env (llm_calls w) (query_messages env state) = inr content ->
      json_loads env (_normalize_latex text) = inl e ->
      generate_query env notify state w
      = (Raise e, logged notify [thinking_event thoughts] (tick_llm w)))
  /\ (forall topic w e,
         ainvoke env (llm_calls w) (query_messages env (initial_state topic))
         = inr content ->
         json_loads env (_normalize_latex text) = inl e ->
         run_deep_research env notify topic w
         = (Raise e, logged notify [thinking_event thoughts] (tick_llm w)))
  /\ (forall state w kvs rq rationale,
         ainvoke env (llm_calls w) (query_messages env state) = inr content ->
         json_loads env (_normalize_latex text) = inr (PDict kvs) ->
         dict_lookup (lit "query") kvs = Some rq ->
         dict_lookup (lit "rationale") kvs = Some rationale ->
         generate_query env notify state w
         = (Ok {| u_search_query := Some rq; u_rationale := Some rationale;
                  u_sources_gathered := None; u_research_loop_count := None;
                  u_web_research_results := None; u_images := None;
                  u_running_summary := None; u_knowledge_gap := None |},
            logged notify
              [thinking_event thoughts; generate_query_event rq rationale thoughts]
              (tick_llm w))).
Proof.
  intros Hq Hs. split; [|split].
  - intros state w e. now apply generate_query_parse_error with (content := content) (text := text).
  - intros topic w e Hai Hjson. apply run_deep_research_Raise.
    now apply generate_query_parse_error with (content := content) (text := text).
  - intros state w kvs rq rationale.
    now apply generate_query_parsed with (content := content) (text := text).
Qed.

Lemma C5_query_parse_error_propagates_witness :
  run_deep_research (stub_env stub_bad_reply) notifier_ok stub_topic fresh_world
  = (Raise JSONDecodeError,
     logged notifier_ok [thinking_event (lit "hm")] (tick_llm fresh_world))
  /\ generate_query (stub_env stub_reply) notifier_ok (initial_state stub_topic)
       fresh_world
     = (Ok {| u_search_query := Some (PStr (lit "remote work productivity"));
              u_rationale := Some (PStr (lit "start broad"));
              u_sources_gathered := None; u_research_loop_count := None;
              u_web_research_results := None; u_images := None;
              u_running_summary := None; u_knowledge_gap := None |},
        logged notifier_ok
          [thinking_event [];
           generate_query_event (PStr (lit "remote work productivity"))
             (PStr (lit "start broad")) []]
          (tick_llm fresh_world)).
Proof.
  split.
  - refine (proj1 (proj2 (C5_query_parse_error_propagates
                            (stub_env stub_bad_reply) notifier_ok
                            stub_bad_reply (lit "hm") (lit "Sorry, no JSON.") _ _))
              stub_topic fresh_world JSONDecodeError _ _).
    + intros log ev. reflexivity.
    + vm_compute. reflexivity.
    + reflexivity.
    + vm_compute. reflexivity.
  - refine (proj2 (proj2 (C5_query_parse_error_propagates
                            (stub_env stub_reply) notifier_ok
                            stub_reply [] stub_reply _ _))
              (initial_state stub_topic) fresh_world stub_reply_object
              (PStr (lit "remote work productivity")) (PStr (lit "start broad"))
              _ _ _ _).
    + intros log ev. reflexivity.
    + vm_compute. reflexivity.
    + reflexivity.
    + vm_compute. reflexivity.
    + reflexivity.
    + reflexivity.
Defined.

(** C5, as stated, fails in both directions, because the response is
    rewritten before it is decoded.  A response that is valid JSON with both
    keys makes query generation raise [JSONDecodeError]: the escaped
    backslashes of its query string are taken for math delimiters and
    rewritten into an escape JSON does not have.  A response that is not
    valid JSON is rewritten into valid JSON, and the stage returns.  On a
    response that is an end marker followed by a start marker the stage
    neither raises nor returns. *)
Lemma C5_valid_json_reply_raises :
  RefJson.loads stub_latex_reply
  = inr (PDict [(lit "query", PStr (lit "\(x\) y"));
                (lit "rationale", PStr (lit "r"))])
  /\ generate_query (stub_env stub_latex_reply) notifier_ok
       (initial_state stub_topic) fresh_world
     = (Raise JSONDecodeError,
        logged notifier_ok [thinking_event []] (tick_llm fresh_world))
  /\ RefJson.loads stub_unescaped_reply = inl JSONDecodeError
  /\ generate_query (stub_env stub_unescaped_reply) notifier_ok
       (initial_state stub_topic) fresh_world
     = (Ok {| u_search_query := Some (PStr (lit "$x$"));
              u_rationale := Some PNone;
              u_sources_gathered := None; u_research_loop_count := None;
              u_web_research_results := None; u_images := None;
              u_running_summary := None; u_knowledge_gap := None |},
        logged notifier_ok
          [thinking_event [];
           generate_query_event (PStr (lit "$x$")) PNone []]
          (tick_llm fresh_world))
  /\ RefJson.loads (lit "</think><think>") = inl JSONDecodeError
  /\ generate_query (stub_env (lit "</think><think>")) notifier_ok
       (initial_state stub_topic) fresh_world
     = (Hang, tick_llm fresh_world).
Proof.
  split; [|split; [|split; [|split; [|split]]]]; vm_compute; reflexivity.
Qed.

(** ** Reflection *)

Section Reflection.

Variable env : Env.
Variable notify : Notifier.
Variables content thoughts text : str.
Hypothesis Hquiet : quiet notify.
Hypothesis Hstrip :
  _strip_thinking_tokens (length content) content = Some (thoughts, text).

(** The [except] branch. *)
Lemma reflect_on_summary_fallback (state : SummaryState) (w : World) (e : exn) :
  ainvoke env (llm_calls w) (reflection_messages env state) = inr content ->
  json_loads env (_normalize_latex text) = inl e ->
  is_Exception e = true ->
  reflect_on_summary env notify state w
  = (Ok {| u_search_query := Some (PStr (fallback_query state));
           u_rationale := None;
           u_sources_gathered := None; u_research_loop_count := None;
           u_web_research_results := None; u_images := None;
           u_running_summary := None; u_knowledge_gap := None |},
     logged notify
       [thinking_event thoughts;
        reflection_event (PStr (fallback_query state)) (PStr UNABLE_GAP)]
       (tick_llm w)).
Proof.
  intros Hai Hjson He. unfold reflect_on_summary.
  rewrite (bind_Ok _ _ _ _ _ (invoke_model_Ok _ _ _ _ Hai)).
  rewrite (bind_Ok _ _ _ _ _ (clean_output_Some _ _ _ _ Hstrip)).
  rewrite (bind_Ok _ _ _ _ _ (notify_event_quiet _ _ _ _ Hquiet)).
  rewrite Hjson.
  erewrite try_except_caught; [|apply bind_Raise; reflexivity | exact He].
  rewrite (bind_Ok _ _ _ _ _ (notify_event_quiet _ _ _ _ Hquiet)).
  rewrite logged_logged. reflexivity.
Qed.

(** The [try] branch when the object has no usable follow-up query. *)
Lemma reflect_on_summary_no_query (state : SummaryState) (w : World) (kvs : pydict) :
  ainvoke env (llm_calls w) (reflection_messages env state) = inr content ->
  json_loads env (_normalize_latex text) = inr (PDict kvs) ->
  dict_lookup (lit "follow_up_query") kvs = None
  \/ dict_lookup (lit "follow_up_query") kvs = Some PNone ->
  reflect_on_summary env notify state w
  = (Ok {| u_search_query := Some (PStr (fallback_query state));
           u_rationale := None;
           u_sources_gathered := None; u_research_loop_count := None;
           u_web_research_results := None; u_images := None;
           u_running_summary := None;
           u_knowledge_gap :=
             Some (dict_get kvs (lit "knowledge_gap") (PStr [])) |},
     logged notify
       [thinking_event thoughts;
        reflection_event (PStr [])
          (dict_get kvs (lit "knowledge_gap") (PStr []))]
       (tick_llm w)).
Proof.
  intros Hai Hjson Hq. unfold reflect_on_summary.
  rewrite (bind_Ok _ _ _ _ _ (invoke_model_Ok _ _ _ _ Hai)).
  rewrite (bind_Ok _ _ _ _ _ (clean_output_Some _ _ _ _ Hstrip)).
  rewrite (bind_Ok _ _ _ _ _ (notify_event_quiet _ _ _ _ Hquiet)).
  rewrite Hjson.
  assert (Hget : dict_get kvs (lit "follow_up_query") PNone = PNone).
  { unfold dict_get. now destruct Hq as [-> | ->]. }
  apply try_except_Ok.
  rewrite (bind_Ok _ _ _ _ _ (lift_inr _ _)).
  unfold get_method.
  rewrite !(bind_Ok _ _ _ _ _ (lift_inr _ _)).
  rewrite Hget.
  rewrite (bind_Ok _ _ _ _ _ (notify_event_quiet _ _ _ _ Hquiet)).
  rewrite logged_logged. reflexivity.
Qed.

End Reflection.

(** C10, as the code has it: the decoder receives the response of the model
    after the thinking spans are removed and the math delimiters rewritten.
    When the stripper returns and that cleaned text decodes to an object
    whose [follow_up_query] is missing or null, reflection returns through
    its [try] branch: the new query is the templated one for the topic and
    the knowledge gap, in the update and in the event, is the decoded
    [knowledge_gap] value, the empty string when the key is absent. *)
Theorem C10_reflect_missing_query (env : Env) (notify : Notifier)
    (content thoughts text : str) (state : SummaryState) (w : World)
    (kvs : pydict) :
  quiet notify ->
  ainvoke env (llm_calls w) (reflection_messages env state) = inr content ->
  _strip_thinking_tokens (length content) content = Some (thoughts, text) ->
  json_loads env (_normalize_latex text) = inr (PDict kvs) ->
  dict_lookup (lit "follow_up_query") kvs = None
  \/ dict_lookup (lit "follow_up_query") kvs = Some PNone ->
  reflect_on_summary env notify state w
  = (Ok {| u_search_query := Some (PStr (TELL_ME_MORE ++ research_topic state));
           u_rationale := None;
           u_sources_gathered := None; u_research_loop_count := None;
           u_web_research_results := None; u_images := None;
           u_running_summary := None;
           u_knowledge_gap :=
             Some (match dict_lookup (lit "knowledge_gap") kvs with
                   | Some gap => gap
                   | None => PStr []
                   end) |},
     logged notify
       [thinking_event thoughts;
        reflection_event (PStr [])
          (match dict_lookup (lit "knowledge_gap") kvs with
           | Some gap => gap
           | None => PStr []
           end)]
       (tick_llm w)).
Proof.
  intros Hq Hai Hs Hjson Hmissing.
  now apply reflect_on_summary_no_query with (content := content) (text := text).
Qed.

Lemma C10_reflect_missing_query_witness :
  reflect_on_summary (stub_env stub_gap_only_reply) notifier_ok
    (initial_state stub_topic) fresh_world
  = (Ok {| u_search_query := Some (PStr (TELL_ME_MORE ++ stub_topic));
           u_rationale := None;
           u_sources_gathered := None; u_research_loop_count := None;
           u_web_research_results := None; u_images := None;
           u_running_summary := None;
           u_knowledge_gap := Some (PStr (lit "few figures")) |},
     logged notifier_ok
       [thinking_event []; reflection_event (PStr []) (PStr (lit "few figures"))]
       (tick_llm fresh_world)).
Proof.
  refine (C10_reflect_missing_query (stub_env stub_gap_only_reply) notifier_ok
            stub_gap_only_reply [] stub_gap_only_reply
            (initial_state stub_topic) fresh_world
            [(lit "follow_up_query", PNone);
             (lit "knowledge_gap", PStr (lit "few figures"))] _ _ _ _ _).
  - intros log ev. reflexivity.
  - reflexivity.
  - vm_compute. reflexivity.
  - vm_compute. reflexivity.
  - right. reflexivity.
Defined.

(** C10, as stated, fails: a response that is valid JSON with a null
    follow-up query takes the exception path.  The escaped backslashes of
    its knowledge gap are taken for math delimiters and rewritten into an
    escape JSON does not have, the decoder raises, and the stage returns
    the templated query with no knowledge gap, telling the notifier the
    fixed diagnostic string.  On a valid response whose knowledge gap is an
    end marker followed by a start marker the stage never returns. *)
Lemma C10_valid_json_takes_fallback :
  RefJson.loads stub_latex_gap_reply
  = inr (PDict [(lit "follow_up_query", PNone);
                (lit "knowledge_gap", PStr (lit "see \(x\)"))])
  /\ reflect_on_summary (stub_env stub_latex_gap_reply) notifier_ok
       (initial_state stub_topic) fresh_world
     = (Ok {| u_search_query := Some (PStr (TELL_ME_MORE ++ stub_topic));
              u_rationale := None;
              u_sources_gathered := None; u_research_loop_count := None;
              u_web_research_results := None; u_images := None;
              u_running_summary := None; u_knowledge_gap := None |},
        logged notifier_ok
          [thinking_event [];
           reflection_event (PStr (TELL_ME_MORE ++ stub_topic)) (PStr UNABLE_GAP)]
          (tick_llm fresh_world))
  /\ RefJson.loads stub_marker_gap_reply
     = inr (PDict [(lit "follow_up_query", PNone);
                   (lit "knowledge_gap", PStr (lit "</think><think>"))])
  /\ reflect_on_summary (stub_env stub_marker_gap_reply) notifier_ok
       (initial_state stub_topic) fresh_world
     = (Hang, tick_llm fresh_world).
Proof.
  split; [|split; [|split]]; vm_compute; reflexivity.
Qed.

(** C3: on a reply that is not JSON, reflection returns the templated query
    and nothing for the knowledge gap: the fixed diagnostic string goes to
    the notifier only, and the state keeps the gap of the earlier round. *)
Theorem C3_fallback_update_omits_gap :
  reflect_on_summary (stub_env stub_bad_reply) notifier_ok stub_later_state
    fresh_world
  = (Ok stub_fallback_update,
     logged notifier_ok
       [thinking_event (lit "hm");
        reflection_event (PStr (TELL_ME_MORE ++ stub_topic)) (PStr UNABLE_GAP)]
       (tick_llm fresh_world))
  /\ u_knowledge_gap stub_fallback_update = None
  /\ knowledge_gap (apply_update stub_later_state stub_fallback_update)
     = PStr (lit "few figures").
Proof.
  split; [|split; reflexivity].
  apply reflect_on_summary_fallback
    with (content := stub_bad_reply) (text := lit "Sorry, no JSON.")
         (e := JSONDecodeError).
  - intros log ev. reflexivity.
  - vm_compute. reflexivity.
  - reflexivity.
  - vm_compute. reflexivity.
  - reflexivity.
Qed.

(** ** Finalize *)

Lemma fold_left_append (srcs : list str) (init : str) :
  fold_left (fun final src => final ++ src ++ NL) srcs init
  = init ++ concat (map (fun src => src ++ NL) srcs).
Proof.
  revert init; induction srcs as [|src srcs IH]; intros init; simpl.
  - now rewrite app_nil_r.
  - rewrite IH. now rewrite <- !app_assoc.
Qed.

(** C6: the report is the summary header, the running summary, the sources
    header and every gathered citation block on its own line, in the order
    gathered; the finalize event, sent to the notifier when there is one,
    carries that report and the first two accumulated images, or all of
    them when there are fewer; the stage returns the report as the new
    running summary, and the edge out of it leads to the end of the graph. *)
Theorem C6_finalize_report_and_event (notify : Notifier) (state : SummaryState)
    (w : World) :
  final_report state
  = lit "## Summary" ++ NL ++ running_summary state ++ NL ++ NL
    ++ lit "### Sources:" ++ NL
    ++ concat (map (fun src => src ++ NL) (sources_gathered state))
  /\ finalize_summary None state w = (Ok (final_update state), w)
  /\ (forall callback,
         finalize_summary (Some callback) state w
         = (match callback (events w)
                    (finalize_event (final_report state) (firstn 2 (images state)))
            with
            | Some e => Raise e
            | None => Ok (final_update state)
            end,
            logged (Some callback)
              [finalize_event (final_report state) (firstn 2 (images state))] w))
  /\ length (firstn 2 (images state)) = Nat.min 2 (length (images state))
  /\ (forall callback u1 u2 u3,
         snd (finalize_summary (Some callback) (with_images state [u1; u2; u3]) w)
         = logged (Some callback)
             [finalize_event (final_report state) [u1; u2]] w)
  /\ next_node notify NFinalizeSummary (apply_update state (final_update state)) w
     = (Ok END, w).
Proof.
  split; [|split; [|split; [|split; [|split]]]].
  - unfold final_report. rewrite fold_left_append. now rewrite <- !app_assoc.
  - reflexivity.
  - intros callback. unfold finalize_summary, bind, notify_event.
    fold (finalize_event (final_report state) (firstn 2 (images state))).
    now destruct (callback _ _).
  - apply length_firstn.
  - intros callback u1 u2 u3. unfold finalize_summary, bind, notify_event. simpl.
    now destruct (callback _ _).
  - reflexivity.
Qed.

(** ** A notifier that raises *)

Lemma yields_bind_first {A B} (m : M A) (k : A -> M B) (P : B -> Prop) :
  yields m (fun _ => False) -> yields (bind m k) P.
Proof.
  intros Hm w b w'. unfold bind.
  destruct (m w) as [[a| e |] w1] eqn:E; [|discriminate|discriminate].
  destruct (Hm _ _ _ E).
Qed.

Lemma yields_notify_raising (callback : list event -> event -> option exn)
    (name : string) (payload : list (string * pyval)) :
  (forall log ev, callback log ev <> None) ->
  yields (notify_event (Some callback) name payload) (fun _ => False).
Proof.
  intros Hr w a w'. unfold notify_event.
  destruct (callback _ _) eqn:E; [discriminate|]. now apply Hr in E.
Qed.

Ltac raising_step H :=
  match goal with
  | |- yields (bind (notify_event _ _ _) _) _ =>
      apply yields_bind_first, yields_notify_raising, H
  | |- yields (bind _ _) _ => apply yields_bind_any; intros
  | |- yields (match ?x with (_, _) => _ end) _ => destruct x
  end.

Lemma run_node_raising (env : Env) (callback : list event -> event -> option exn)
    (n : node) (state : SummaryState) :
  (forall log ev, callback log ev <> None) ->
  n <> END ->
  yields (run_node env (Some callback) n state) (fun _ => False).
Proof.
  intros Hr Hn. destruct n; try congruence; simpl;
    unfold generate_query, web_research, summarize_sources,
      reflect_on_summary, finalize_summary;
    repeat raising_step Hr.
Qed.

(** *** A notifier that returns *)

Lemma sim_ret {A} (a : A) : sim (ret a) (ret a).
Proof. intros w1 w2 H. now split. Qed.

Lemma sim_lift {A} (r : exn + A) : sim (lift r) (lift r).
Proof. intros w1 w2 H. destruct r; now split. Qed.

Lemma sim_bind {A B} (m1 m2 : M A) (k1 k2 : A -> M B) :
  sim m1 m2 -> (forall a, sim (k1 a) (k2 a)) -> sim (bind m1 k1) (bind m2 k2).
Proof.
  intros Hm Hk w1 w2 H. unfold bind. destruct (Hm w1 w2 H) as [Ho Hw].
  destruct (m1 w1) as [o1 w1'], (m2 w2) as [o2 w2']. simpl in Ho, Hw. subst o2.
  destruct o1 as [a| e |]; [now apply Hk | now split | now split].
Qed.

Lemma sim_try {A} (b1 b2 h1 h2 : M A) :
  sim b1 b2 -> sim h1 h2 -> sim (try_except b1 h1) (try_except b2 h2).
Proof.
  intros Hb Hh w1 w2 H. unfold try_except. destruct (Hb w1 w2 H) as [Ho Hw].
  destruct (b1 w1) as [o1 w1'], (b2 w2) as [o2 w2']. simpl in Ho, Hw. subst o2.
  destruct o1 as [a| e |]; [now split | | now split].
  destruct (is_Exception e); [now apply Hh | now split].
Qed.

Lemma sim_invoke_model (env : Env) (msgs : list message) :
  sim (invoke_model env msgs) (invoke_model env msgs).
Proof.
  intros w1 w2 (Hl & Hs & Hc). unfold invoke_model. rewrite Hl.
  destruct (ainvoke env _ _); (split; [reflexivity|]); repeat split; simpl; congruence.
Qed.

Lemma sim_search_web (env : Env) (q : pyval) : sim (search_web env q) (search_web env q).
Proof.
  intros w1 w2 (Hl & Hs & Hc). unfold search_web. rewrite Hs.
  destruct (tavily_search env _ _); (split; [reflexivity|]);
    repeat split; simpl; congruence.
Qed.

Lemma sim_clean_output (content : str) : sim (clean_output content) (clean_output content).
Proof.
  intros w1 w2 H. unfold clean_output.
  destruct (_strip_thinking_tokens _ _) as [[? ?]|]; now split.
Qed.

Lemma sim_mark_completed (n : node) : sim (mark_completed n) (mark_completed n).
Proof.
  intros w1 w2 (Hl & Hs & Hc). unfold mark_completed.
  split; [reflexivity|]. repeat split; simpl; congruence.
Qed.

Lemma sim_notify (n1 n2 : Notifier) (name : string) (payload : list (string * pyval)) :
  quiet n1 -> quiet n2 ->
  sim (notify_event n1 name payload) (notify_event n2 name payload).
Proof.
  intros H1 H2 w1 w2 (Hl & Hs & Hc). unfold notify_event.
  destruct n1 as [f1|], n2 as [f2|]; simpl in H1, H2;
    try rewrite H1; try rewrite H2; (split; [reflexivity|]);
    repeat split; simpl; assumption.
Qed.

#[export] Hint Resolve sim_ret sim_lift sim_invoke_model sim_search_web
  sim_clean_output sim_mark_completed sim_notify : stage.

Ltac sim_step :=
  match goal with
  | |- sim (bind _ _) (bind _ _) => apply sim_bind; [|intros]
  | |- sim (try_except _ _) (try_except _ _) => apply sim_try
  | |- sim (match ?x with (_, _) => _ end) _ => destruct x
  | |- sim (if ?b then _ else _) _ => destruct b
  | |- _ => solve [auto with stage]
  end.

Section QuietNotifiers.

Variable env : Env.
Variables n1 n2 : Notifier.
Hypothesis Hq1 : quiet n1.
Hypothesis Hq2 : quiet n2.

Lemma sim_run_node (n : node) (state : SummaryState) :
  sim (run_node env n1 n state) (run_node env n2 n state).
Proof.
  destruct n; simpl;
    unfold generate_query, web_research, summarize_sources, reflect_on_summary,
      finalize_summary;
    repeat sim_step.
Qed.

Lemma sim_next_node (n : node) (state : SummaryState) :
  sim (next_node n1 n state) (next_node n2 n state).
Proof. destruct n; simpl; unfold route_research; repeat sim_step. Qed.

Lemma sim_graph_step (c : node * SummaryState) :
  sim (graph_step env n1 c) (graph_step env n2 c).
Proof.
  destruct c as [n state]. unfold graph_step.
  apply sim_bind; [apply sim_run_node | intros u].
  apply sim_bind; [apply sim_mark_completed | intros _].
  apply sim_bind; [apply sim_next_node | intros n']. apply sim_ret.
Qed.

Lemma sim_graph_run (limit : nat) (c : node * SummaryState) :
  sim (graph_run env n1 limit c) (graph_run env n2 limit c).
Proof.
  revert c; induction limit as [|limit IH]; intros [n state].
  - destruct n; simpl; (apply sim_ret || (intros w1 w2 H; now split)).
  - destruct (node_eq_END n) as [->|Hn].
    + rewrite !graph_run_END. apply sim_ret.
    + rewrite !graph_run_S by assumption.
      apply sim_bind; [apply sim_graph_step | apply IH].
Qed.

Lemma sim_run_deep_research (topic : str) :
  sim (run_deep_research env n1 topic) (run_deep_research env n2 topic).
Proof.
  rewrite !run_deep_research_unfold.
  apply sim_bind; [apply sim_graph_run | intros result; apply sim_ret].
Qed.

End QuietNotifiers.

Lemma agree_refl (w : World) : agree w w.
Proof. now repeat split. Qed.




(** * Further properties *)

(** ** The stripper on other inputs *)

Lemma find_nonneg_index (pat s : str) :
  (0 <= find pat s)%Z -> exists i, index pat s = Some i /\ find pat s = Z.of_nat i.
Proof.
  unfold find. destruct (index pat s) as [i|]; [eauto | lia].
Qed.

(** One iteration from a text whose first end marker comes first. *)
Lemma close_first_iteration (text : str) (e s : nat) :
  index THINK_CLOSE text = Some e -> index THINK_OPEN text = Some s -> e < s ->
  strip_thought_step text = []
  /\ strip_text_step text = firstn s text ++ skipn (e + 8) text
  /\ length (strip_text_step text) = length text + (s - (e + 8)).
Proof.
  intros He Hs Hlt.
  pose proof (close_first_gap _ _ _ He Hs Hlt) as Hgap.
  destruct (index_Some_occ _ _ _ Hs) as [_ Hsle].
  assert (Ht : strip_text_step text = firstn s text ++ skipn (e + 8) text).
  { unfold strip_text_step.
    rewrite (find_index _ _ _ Hs), (find_index _ _ _ He).
    replace (Z.of_nat e + 8)%Z with (Z.of_nat (e + 8)) by lia.
    now rewrite slice_prefix, slice_suffix. }
  split; [|split; [exact Ht|]].
  - unfold strip_thought_step.
    rewrite (find_index _ _ _ Hs), (find_index _ _ _ He).
    replace (Z.of_nat s + 7)%Z with (Z.of_nat (s + 7)) by lia.
    rewrite slice_middle, skipn_all2; [reflexivity|].
    rewrite length_firstn. lia.
  - rewrite Ht, length_app, length_firstn, length_skipn. lia.
Qed.

(** X1: whenever the first end marker of a text lies before its first start
    marker, the stripper never returns, whatever number of iterations is
    allowed.  An iteration from such a text extracts an empty thought and
    writes the text between the two markers twice, so the text grows by the
    length of that gap (and is the same text only when the gap is empty),
    and the first end marker still lies before the first start marker. *)
Theorem X1_end_marker_first_diverges (text : str) (fuel : nat) :
  (0 <= find THINK_CLOSE text < find THINK_OPEN text)%Z ->
  _strip_thinking_tokens fuel text = None
  /\ strip_thought_step text = []
  /\ (find THINK_CLOSE text + 8 <= find THINK_OPEN text)%Z
  /\ Z.of_nat (length (strip_text_step text))
     = (Z.of_nat (length text)
        + (find THINK_OPEN text - (find THINK_CLOSE text + 8)))%Z
  /\ (0 <= find THINK_CLOSE (strip_text_step text)
      < find THINK_OPEN (strip_text_step text))%Z.
Proof.
  intros [H0 Hlt].
  destruct (find_nonneg_index _ _ H0) as (e & He & Hfe).
  assert (H1 : (0 <= find THINK_OPEN text)%Z) by lia.
  destruct (find_nonneg_index _ _ H1) as (s & Hs & Hfs).
  assert (Hes : e < s) by lia.
  assert (Hcf : close_first text).
  { exists e, s. split; [assumption|]. split; assumption. }
  pose proof (close_first_gap _ _ _ He Hs Hes) as Hgap.
  destruct (close_first_iteration _ _ _ He Hs Hes) as (Hth & _ & Hlen).
  destruct (close_first_step _ Hcf) as (e' & s' & He' & Hs' & Hlt').
  split; [|split; [exact Hth|split; [lia|split]]].
  - unfold _strip_thinking_tokens.
    now rewrite (strip_loop_close_first _ _ _ Hcf).
  - rewrite Hlen, Hfe, Hfs. lia.
  - rewrite (find_index _ _ _ He'), (find_index _ _ _ Hs'). lia.
Qed.

Lemma X1_end_marker_first_diverges_witness :
  _strip_thinking_tokens 1000 (lit "done</think> and now <think>more") = None
  /\ length (lit "done</think> and now <think>more") = 32
  /\ length (strip_text_step (lit "done</think> and now <think>more")) = 41.
Proof.
  destruct (X1_end_marker_first_diverges
              (lit "done</think> and now <think>more") 1000)
    as (Hnone & _ & _ & Hlen & _).
  - vm_compute. split; [discriminate | reflexivity].
  - split; [exact Hnone|]. split; [reflexivity|].
    apply Nat2Z.inj. rewrite Hlen. vm_compute. reflexivity.
Defined.

(** X2: on every text the stripper either returns within as many iterations
    as the text has characters, with the same result for every larger
    bound, or never returns. *)
Theorem X2_strip_returns_early_or_never (text : str) :
  (exists r, forall fuel, length text <= fuel ->
                          _strip_thinking_tokens fuel text = Some r)
  \/ (forall fuel, _strip_thinking_tokens fuel text = None).
Proof.
  unfold _strip_thinking_tokens.
  destruct (strip_loop (length text) [] text) as [[th tx]|] eqn:E.
  - left. exists (strip th, strip tx). intros fuel Hle.
    now rewrite (strip_loop_mono_le _ _ _ _ _ Hle E).
  - right. intros fuel.
    destruct (strip_loop_exhausted _ _ _ E) as [Hlt | Hdiv]; [lia|].
    now rewrite Hdiv.
Qed.

(** X3: a text that lacks the start marker or lacks the end marker is only
    trimmed: the thoughts are empty and a lone marker stays in the text. *)
Theorem X3_strip_without_pair (text : str) (fuel : nat) :
  contains THINK_OPEN text && contains THINK_CLOSE text = false ->
  _strip_thinking_tokens fuel text = Some ([], strip text).
Proof.
  intros H. unfold _strip_thinking_tokens. now rewrite (strip_loop_exit _ _ _ H).
Qed.

Lemma X3_strip_without_pair_witness :
  _strip_thinking_tokens 0 (lit " <think>never closed ")
  = Some ([], strip (lit " <think>never closed ")).
Proof. apply X3_strip_without_pair. reflexivity. Defined.

Lemma lstrip_no_lead (s : str) : no_lead (lstrip s).
Proof.
  induction s as [|c s IH]; simpl; [exact I|].
  destruct (isspace c) eqn:E; [assumption | exact E].
Qed.

Lemma lstrip_fixed (s : str) : no_lead s -> lstrip s = s.
Proof. destruct s as [|c s]; simpl; [reflexivity|]. now intros ->. Qed.

Lemma no_lead_prefix (a b : str) : no_lead (a ++ b) -> no_lead a.
Proof. destruct a; simpl; auto. Qed.

Lemma rstrip_prefix (s : str) : exists b, s = rstrip s ++ b.
Proof.
  unfold rstrip. destruct (lstrip_suffix (rev s)) as [a Ha].
  exists (rev a). rewrite <- rev_app_distr, <- Ha. now rewrite rev_involutive.
Qed.

Lemma strip_no_lead (s : str) : no_lead (strip s).
Proof.
  unfold strip. destruct (rstrip_prefix (lstrip s)) as [b Hb].
  apply no_lead_prefix with (b := b). rewrite <- Hb. apply lstrip_no_lead.
Qed.

Lemma strip_no_trail (s : str) : no_lead (rev (strip s)).
Proof. unfold strip, rstrip. rewrite rev_involutive. apply lstrip_no_lead. Qed.

Lemma strip_idempotent (s : str) : strip (strip s) = strip s.
Proof.
  unfold strip at 1. rewrite (lstrip_fixed _ (strip_no_lead s)).
  unfold rstrip. rewrite (lstrip_fixed _ (strip_no_trail s)).
  apply rev_involutive.
Qed.

(** X4: whatever the stripper returns is trimmed: neither the thoughts nor
    the cleaned text begins or ends with a whitespace character, and
    trimming them again changes nothing. *)
Theorem X4_strip_results_trimmed (text thoughts cleaned : str) (fuel : nat) :
  _strip_thinking_tokens fuel text = Some (thoughts, cleaned) ->
  no_lead thoughts /\ no_lead (rev thoughts)
  /\ no_lead cleaned /\ no_lead (rev cleaned)
  /\ strip thoughts = thoughts /\ strip cleaned = cleaned.
Proof.
  unfold _strip_thinking_tokens.
  destruct (strip_loop fuel [] text) as [[th tx]|]; [|discriminate].
  intros [= <- <-].
  repeat split; auto using strip_no_lead, strip_no_trail, strip_idempotent.
Qed.

Lemma X4_strip_results_trimmed_witness :
  no_lead (lit "a b") /\ no_lead (rev (lit "a b"))
  /\ no_lead (lit "{x}") /\ no_lead (rev (lit "{x}"))
  /\ strip (lit "a b") = lit "a b" /\ strip (lit "{x}") = lit "{x}".
Proof.
  apply (X4_strip_results_trimmed (lit " <think> a b </think> {x}  ") _ _ 3).
  vm_compute. reflexivity.
Defined.

(** ** The normalizer on simple texts *)

Lemma lacks_app (c : char) (a b : str) :
  lacks c (a ++ b) = lacks c a && lacks c b.
Proof. apply forallb_app. Qed.

Lemma starts_with_head (c d : char) (pat s : str) :
  char_eqb d c = false -> starts_with (c :: pat) (d :: s) = false.
Proof.
  intros H. simpl. unfold char_eqb in *. rewrite N.eqb_sym, H. reflexivity.
Qed.

Lemma needs_head_lazy_between (c : char) (op cl : str) :
  needs_head c (Re.lazy_between (c :: op) cl).
Proof.
  intros [|d s] H; unfold Re.lazy_between; [reflexivity|].
  now rewrite (starts_with_head _ _ _ _ H).
Qed.

Lemma needs_head_code_block : needs_head BACKTICK _CODE_BLOCK_RE.
Proof.
  intros s H.
  change _CODE_BLOCK_RE
    with (Re.whole (Re.alt (Re.lazy_between (BACKTICK :: skipn 1 FENCE) FENCE)
                           (Re.lazy_between (BACKTICK :: []) TICK))).
  unfold Re.whole, Re.alt.
  rewrite (needs_head_lazy_between BACKTICK (skipn 1 FENCE) FENCE s H).
  now rewrite (needs_head_lazy_between BACKTICK [] TICK s H).
Qed.

Lemma search_cons_None (m : Re.matcher) (c : char) (s : str) :
  m (c :: s) = None -> Re.search m (c :: s) = shift 1 (Re.search m s).
Proof.
  intros H. simpl. rewrite H. unfold shift.
  now destruct (Re.search m s) as [[[i n] g]|].
Qed.

Lemma shift_shift (j k : nat) (r : option (nat * nat * str)) :
  shift j (shift k r) = shift (j + k) r.
Proof. destruct r as [[[i n] g]|]; simpl; [|reflexivity]. do 3 f_equal. lia. Qed.

(** A prefix without the first character of the pattern is skipped. *)
Lemma search_skip_clean (c : char) (m : Re.matcher) (x r : str) :
  needs_head c m -> lacks c x = true ->
  Re.search m (x ++ r) = shift (length x) (Re.search m r).
Proof.
  intros Hm. induction x as [|d x IH]; simpl; intros Hx.
  - now destruct (Re.search m r) as [[[i n] g]|].
  - apply andb_true_iff in Hx as [Hd Hx]. apply negb_true_iff in Hd.
    rewrite (Hm (d :: x ++ r) Hd).
    rewrite (IH Hx). unfold shift.
    now destruct (Re.search m r) as [[[i n] g]|].
Qed.

Lemma search_lacks (c : char) (m : Re.matcher) (x : str) :
  needs_head c m -> lacks c x = true -> Re.search m x = None.
Proof.
  intros Hm Hx. rewrite <- (app_nil_r x), (search_skip_clean c m x [] Hm Hx).
  simpl. now rewrite (Hm [] I).
Qed.

Lemma index_skip_clean (c : char) (pat x r : str) :
  lacks c x = true ->
  index (c :: pat) (x ++ r) = option_map (Nat.add (length x)) (index (c :: pat) r).
Proof.
  induction x as [|d x IH]; intros Hx.
  - simpl app. now destruct (index (c :: pat) r).
  - simpl in Hx. apply andb_true_iff in Hx as [Hd Hx]. apply negb_true_iff in Hd.
    change ((d :: x) ++ r) with (d :: (x ++ r)).
    cbn [index]. rewrite (starts_with_head _ _ _ _ Hd), (IH Hx).
    now destruct (index (c :: pat) r).
Qed.

Lemma index_head (pat r : str) : index pat (pat ++ r) = Some 0.
Proof.
  destruct pat as [|c pat]; [now destruct r|].
  change ((c :: pat) ++ r) with (c :: (pat ++ r)). cbn [index].
  change (c :: (pat ++ r)) with ((c :: pat) ++ r).
  now rewrite starts_with_app.
Qed.

(** The lazy pattern at the head of a text that begins with it. *)
Lemma lazy_between_head (c d : char) (op cl x b : str) :
  lacks d x = true ->
  Re.lazy_between (c :: op) (d :: cl) ((c :: op) ++ x ++ (d :: cl) ++ b)
  = Some (length (c :: op) + length x + length (d :: cl), x).
Proof.
  intros Hx. unfold Re.lazy_between.
  rewrite starts_with_app.
  assert (Hsk : skipn (length (c :: op)) ((c :: op) ++ x ++ (d :: cl) ++ b)
                = x ++ (d :: cl) ++ b).
  { rewrite skipn_app, skipn_all, Nat.sub_diag. reflexivity. }
  rewrite Hsk.
  assert (Hi : index (d :: cl) (x ++ (d :: cl) ++ b) = Some (length x)).
  { rewrite (index_skip_clean d cl x _ Hx), index_head. simpl.
    f_equal. lia. }
  rewrite Hi. f_equal. f_equal.
  rewrite firstn_app, firstn_all, Nat.sub_diag. simpl. apply app_nil_r.
Qed.

Lemma search_head (m : Re.matcher) (s : str) (n : nat) (g : str) :
  m s = Some (n, g) -> Re.search m s = Some (0, n, g).
Proof. intros H. destruct s; simpl; now rewrite H. Qed.

Lemma sub_fuel_no_match (m : Re.matcher) (repl : str -> str) (fuel : nat) (s : str) :
  Re.search m s = None -> Re.sub_fuel fuel m repl s = s.
Proof. intros H. destruct fuel; simpl; [reflexivity | now rewrite H]. Qed.

(** One delimited span in a text without other backslashes is replaced. *)
Lemma sub_single (c d : char) (op cl : str) (repl : str -> str) (a x b : str) :
  lacks c a = true -> lacks d x = true -> lacks c b = true ->
  Re.sub (Re.lazy_between (c :: op) (d :: cl)) repl
    (a ++ (c :: op) ++ x ++ (d :: cl) ++ b)
  = a ++ repl x ++ b.
Proof.
  intros Ha Hx Hb. unfold Re.sub.
  set (m := Re.lazy_between (c :: op) (d :: cl)).
  assert (Hm : needs_head c m) by apply needs_head_lazy_between.
  assert (Hs : Re.search m (a ++ (c :: op) ++ x ++ (d :: cl) ++ b)
               = Some (length a + 0,
                       length (c :: op) + length x + length (d :: cl), x)).
  { rewrite (search_skip_clean c m a _ Hm Ha).
    unfold m. now rewrite (search_head _ _ _ _ (lazy_between_head c d op cl x b Hx)). }
  destruct (length (a ++ (c :: op) ++ x ++ (d :: cl) ++ b)) as [|fuel] eqn:Hlen.
  - rewrite length_app in Hlen. simpl in Hlen. lia.
  - cbn [Re.sub_fuel]. rewrite Hs.
    rewrite firstn_app_2. simpl firstn. rewrite app_nil_r.
    replace (length a + 0 + (length (c :: op) + length x + length (d :: cl)))
      with (length (a ++ (c :: op) ++ x ++ (d :: cl)) + 0)
      by (rewrite !length_app; lia).
    replace (a ++ (c :: op) ++ x ++ (d :: cl) ++ b)
      with ((a ++ (c :: op) ++ x ++ (d :: cl)) ++ b)
      by (now rewrite <- !app_assoc).
    rewrite skipn_app_plus. simpl skipn.
    rewrite (sub_fuel_no_match _ _ _ _ (search_lacks c m b Hm Hb)). reflexivity.
Qed.

Lemma split_lacks (s : str) :
  lacks BACKTICK s = true -> Re.split _CODE_BLOCK_RE s = [s].
Proof.
  intros H. unfold Re.split. destruct (length s); simpl; [reflexivity|].
  now rewrite (search_lacks _ _ _ needs_head_code_block H).
Qed.

Lemma sub_lacks (c : char) (op cl : str) (repl : str -> str) (s : str) :
  lacks c s = true -> Re.sub (Re.lazy_between (c :: op) cl) repl s = s.
Proof.
  intros H. apply sub_fuel_no_match.
  apply (search_lacks c); [apply needs_head_lazy_between | assumption].
Qed.

(** X5: in a text that has no backtick and no backslash other than those of
    one delimited span, the span with square brackets becomes a span between
    double dollars and the span with round brackets a span between single
    dollars; the text around and inside the span is kept. *)
Theorem X5_normalize_single_span (a x b : str) :
  lacks BACKSLASH (a ++ x ++ b) = true ->
  lacks BACKTICK (a ++ x ++ b) = true ->
  _normalize_latex (a ++ DISPLAY_OPEN ++ x ++ DISPLAY_CLOSE ++ b)
  = a ++ DOLLAR ++ DOLLAR ++ x ++ DOLLAR ++ DOLLAR ++ b
  /\ _normalize_latex (a ++ INLINE_OPEN ++ x ++ INLINE_CLOSE ++ b)
     = a ++ DOLLAR ++ x ++ DOLLAR ++ b.
Proof.
  intros Hs Ht.
  rewrite !lacks_app in Hs, Ht.
  apply andb_true_iff in Hs as [Hsa Hs]. apply andb_true_iff in Hs as [Hsx Hsb].
  apply andb_true_iff in Ht as [Hta Ht]. apply andb_true_iff in Ht as [Htx Htb].
  split; unfold _normalize_latex.
  - rewrite split_lacks
      by (rewrite !lacks_app, Hta, Htx, Htb; reflexivity).
    simpl map_even. unfold join. simpl concat. rewrite app_nil_r.
    unfold normalize_segment, DISPLAY_RE, INLINE_RE.
    unfold DISPLAY_OPEN, DISPLAY_CLOSE.
    rewrite (sub_single 92%N 92%N [91%N] [93%N] _ a x b Hsa Hsx Hsb).
    rewrite <- !app_assoc.
    apply sub_lacks. rewrite !lacks_app. fold BACKSLASH.
    now rewrite Hsa, Hsx, Hsb.
  - rewrite split_lacks
      by (rewrite !lacks_app, Hta, Htx, Htb; reflexivity).
    simpl map_even. unfold join. simpl concat. rewrite app_nil_r.
    unfold normalize_segment, DISPLAY_RE, INLINE_RE.
    assert (Hd : Re.sub (Re.lazy_between DISPLAY_OPEN DISPLAY_CLOSE)
                   (fun g => DOLLAR ++ DOLLAR ++ g ++ DOLLAR ++ DOLLAR)
                   (a ++ INLINE_OPEN ++ x ++ INLINE_CLOSE ++ b)
                 = a ++ INLINE_OPEN ++ x ++ INLINE_CLOSE ++ b).
    { apply sub_fuel_no_match.
      set (m := Re.lazy_between DISPLAY_OPEN DISPLAY_CLOSE).
      assert (Hm : needs_head BACKSLASH m) by apply needs_head_lazy_between.
      rewrite (search_skip_clean _ m a _ Hm Hsa).
      change (INLINE_OPEN ++ x ++ INLINE_CLOSE ++ b)
        with (92%N :: ([40%N] ++ x) ++ INLINE_CLOSE ++ b).
      rewrite search_cons_None by reflexivity.
      rewrite (search_skip_clean _ m ([40%N] ++ x) _ Hm)
        by (rewrite lacks_app, Hsx; reflexivity).
      change (INLINE_CLOSE ++ b) with (92%N :: [41%N] ++ b).
      rewrite search_cons_None by reflexivity.
      rewrite (search_lacks _ m ([41%N] ++ b) Hm)
        by (rewrite lacks_app, Hsb; reflexivity).
      reflexivity. }
    change (a ++ 92%N :: 40%N :: x ++ 92%N :: 41%N :: b)
      with (a ++ INLINE_OPEN ++ x ++ INLINE_CLOSE ++ b).
    rewrite Hd. unfold INLINE_OPEN, INLINE_CLOSE.
    rewrite (sub_single 92%N 92%N [40%N] [41%N] _ a x b Hsa Hsx Hsb).
    now rewrite <- !app_assoc.
Qed.

Lemma X5_normalize_single_span_witness :
  _normalize_latex (lit "Energy: " ++ DISPLAY_OPEN ++ lit "E = mc^2"
                    ++ DISPLAY_CLOSE ++ lit " (Einstein)")
  = lit "Energy: " ++ DOLLAR ++ DOLLAR ++ lit "E = mc^2" ++ DOLLAR ++ DOLLAR
    ++ lit " (Einstein)"
  /\ _normalize_latex (lit "Energy: " ++ INLINE_OPEN ++ lit "E = mc^2"
                       ++ INLINE_CLOSE ++ lit " (Einstein)")
     = lit "Energy: " ++ DOLLAR ++ lit "E = mc^2" ++ DOLLAR ++ lit " (Einstein)".
Proof. apply X5_normalize_single_span; reflexivity. Defined.

(** ** Code spans *)

Lemma productive_lazy_between (c : char) (op cl : str) :
  productive (Re.lazy_between (c :: op) cl).
Proof.
  intros s n g. unfold Re.lazy_between.
  destruct (starts_with (c :: op) s); [|discriminate].
  destruct (index cl _); [|discriminate].
  intros [= <- _]. simpl. lia.
Qed.

Lemma productive_code_block : productive _CODE_BLOCK_RE.
Proof.
  intros s n g.
  change _CODE_BLOCK_RE
    with (Re.whole (Re.alt (Re.lazy_between (BACKTICK :: skipn 1 FENCE) FENCE)
                           (Re.lazy_between (BACKTICK :: []) TICK))).
  unfold Re.whole, Re.alt.
  destruct (Re.lazy_between (BACKTICK :: skipn 1 FENCE) FENCE s)
    as [[k h]|] eqn:E1.
  - intros [= <- _]. exact (productive_lazy_between _ _ _ _ _ _ E1).
  - destruct (Re.lazy_between [BACKTICK] TICK s) as [[k h]|] eqn:E2; [|discriminate].
    intros [= <- _]. exact (productive_lazy_between _ _ _ _ _ _ E2).
Qed.

Lemma search_productive (m : Re.matcher) (s : str) (i n : nat) (g : str) :
  productive m -> Re.search m s = Some (i, n, g) -> 1 <= n.
Proof.
  intros Hm. revert i; induction s as [|c s IH]; intros i; simpl.
  - destruct (m []) as [[k h]|] eqn:E; [|discriminate].
    intros [= _ <- _]. exact (Hm _ _ _ E).
  - destruct (m (c :: s)) as [[k h]|] eqn:E.
    + intros [= _ <- _]. exact (Hm _ _ _ E).
    + destruct (Re.search m s) as [[[j k] h]|] eqn:Es; [|discriminate].
      intros [= _ <- <-]. now apply (IH j).
Qed.

(** More rounds than the text has characters change nothing. *)
Lemma split_fuel_enough (c : char) (m : Re.matcher) :
  needs_head c m -> productive m ->
  forall n fuel s, length s <= n -> n <= fuel ->
                   Re.split_fuel fuel m s = Re.split_fuel n m s.
Proof.
  intros Hh Hp. induction n as [|n IH]; intros fuel s Hs Hn.
  - destruct s; [|simpl in Hs; lia].
    destruct fuel; simpl; [reflexivity|]. now rewrite (Hh [] I).
  - destruct fuel as [|fuel]; [lia|]. simpl.
    destruct (Re.search m s) as [[[i k] g]|] eqn:E; [|reflexivity].
    do 2 f_equal. apply IH; [|lia].
    pose proof (search_productive _ _ _ _ _ Hp E).
    rewrite length_skipn. lia.
Qed.

(** The split around the first code span of a text. *)
Lemma split_at_span (a code b : str) :
  lacks BACKTICK a = true ->
  _CODE_BLOCK_RE (code ++ b) = Some (length code, code) ->
  Re.split _CODE_BLOCK_RE (a ++ code ++ b) = a :: code :: Re.split _CODE_BLOCK_RE b.
Proof.
  intros Ha Hc. unfold Re.split.
  assert (Hpos : 1 <= length code) by exact (productive_code_block _ _ _ Hc).
  destruct (length (a ++ code ++ b)) as [|fuel] eqn:Hlen.
  - rewrite !length_app in Hlen. lia.
  - cbn [Re.split_fuel].
    rewrite (search_skip_clean _ _ a _ needs_head_code_block Ha).
    rewrite (search_head _ _ _ _ Hc). cbn [shift].
    rewrite Nat.add_0_r, firstn_app, firstn_all, Nat.sub_diag. simpl firstn.
    rewrite app_nil_r. f_equal. f_equal.
    replace (a ++ code ++ b) with ((a ++ code) ++ b) by now rewrite <- app_assoc.
    replace (length a + length code) with (length (a ++ code) + 0)
      by (rewrite length_app; lia).
    rewrite skipn_app_plus. simpl skipn.
    apply (split_fuel_enough _ _ needs_head_code_block productive_code_block);
      [lia|].
    rewrite !length_app in Hlen. lia.
Qed.

Lemma firstn_exact (a b : str) (n : nat) :
  n = length a -> firstn n (a ++ b) = a.
Proof.
  intros ->. rewrite firstn_app, firstn_all, Nat.sub_diag. simpl.
  apply app_nil_r.
Qed.

Lemma starts_with_second (c c' e d : char) (pat s : str) :
  char_eqb d e = false -> starts_with (c :: e :: pat) (c' :: d :: s) = false.
Proof.
  intros H. simpl. unfold char_eqb in *. rewrite (N.eqb_sym e d), H.
  now destruct (c =? c')%N.
Qed.

Lemma code_block_tick_span (y b : str) :
  y <> [] -> lacks BACKTICK y = true ->
  _CODE_BLOCK_RE ((TICK ++ y ++ TICK) ++ b)
  = Some (length (TICK ++ y ++ TICK), TICK ++ y ++ TICK).
Proof.
  intros Hne Hy.
  change _CODE_BLOCK_RE
    with (Re.whole (Re.alt (Re.lazy_between (BACKTICK :: skipn 1 FENCE) FENCE)
                           (Re.lazy_between (BACKTICK :: []) (BACKTICK :: []))))
    at 1.
  unfold Re.whole, Re.alt.
  assert (H1 : Re.lazy_between (BACKTICK :: skipn 1 FENCE) FENCE
                 ((TICK ++ y ++ TICK) ++ b) = None).
  { unfold Re.lazy_between. destruct y as [|d y]; [congruence|].
    simpl in Hy. apply andb_true_iff in Hy as [Hd _]. apply negb_true_iff in Hd.
    change ((TICK ++ (d :: y) ++ TICK) ++ b) with (96%N :: d :: (y ++ TICK) ++ b).
    change (BACKTICK :: skipn 1 FENCE) with (96%N :: BACKTICK :: [BACKTICK]).
    now rewrite (starts_with_second _ _ _ _ _ _ Hd). }
  rewrite H1.
  replace ((TICK ++ y ++ TICK) ++ b)
    with ((BACKTICK :: []) ++ y ++ (BACKTICK :: []) ++ b) at 1
    by (unfold TICK, BACKTICK; simpl; now rewrite <- !app_assoc).
  rewrite (lazy_between_head BACKTICK BACKTICK [] [] y b Hy).
  f_equal. f_equal; [rewrite !length_app; simpl; lia|].
  apply firstn_exact. rewrite !length_app. simpl. lia.
Qed.

Lemma code_block_fence_span (y b : str) :
  lacks BACKTICK y = true ->
  _CODE_BLOCK_RE ((FENCE ++ y ++ FENCE) ++ b)
  = Some (length (FENCE ++ y ++ FENCE), FENCE ++ y ++ FENCE).
Proof.
  intros Hy.
  change _CODE_BLOCK_RE
    with (Re.whole (Re.alt (Re.lazy_between (BACKTICK :: skipn 1 FENCE)
                              (BACKTICK :: skipn 1 FENCE))
                           (Re.lazy_between (BACKTICK :: []) (BACKTICK :: []))))
    at 1.
  unfold Re.whole, Re.alt.
  replace ((FENCE ++ y ++ FENCE) ++ b)
    with ((BACKTICK :: skipn 1 FENCE) ++ y ++ (BACKTICK :: skipn 1 FENCE) ++ b) at 1
    by (now rewrite <- !app_assoc).
  rewrite (lazy_between_head BACKTICK BACKTICK _ _ y b Hy).
  f_equal. f_equal; [rewrite !length_app; simpl; lia|].
  apply firstn_exact. rewrite !length_app. simpl. lia.
Qed.

Lemma normalize_around_span (a code b : str) :
  lacks BACKTICK a = true ->
  _CODE_BLOCK_RE (code ++ b) = Some (length code, code) ->
  _normalize_latex (a ++ code ++ b)
  = normalize_segment a ++ code ++ _normalize_latex b.
Proof.
  intros Ha Hc. unfold _normalize_latex.
  rewrite (split_at_span a code b Ha Hc). reflexivity.
Qed.

(** X6: code is copied as it is.  After a text without backticks, a span
    between single backticks (not empty) or between triple backticks, itself
    without backticks, is kept character for character, whatever math
    delimiters it contains; the text before it and the text after it are
    normalized on their own. *)
Theorem X6_normalize_skips_code (a y b : str) :
  lacks BACKTICK a = true ->
  lacks BACKTICK y = true ->
  (y <> [] ->
   _normalize_latex (a ++ (TICK ++ y ++ TICK) ++ b)
   = normalize_segment a ++ (TICK ++ y ++ TICK) ++ _normalize_latex b)
  /\ _normalize_latex (a ++ (FENCE ++ y ++ FENCE) ++ b)
     = normalize_segment a ++ (FENCE ++ y ++ FENCE) ++ _normalize_latex b.
Proof.
  intros Ha Hy. split.
  - intros Hne. apply normalize_around_span; [assumption|].
    now apply code_block_tick_span.
  - apply normalize_around_span; [assumption|].
    now apply code_block_fence_span.
Qed.

Lemma X6_normalize_skips_code_witness :
  _normalize_latex (lit "see " ++ (TICK ++ lit "a\[i\]" ++ TICK) ++ lit " and \(x\)")
  = normalize_segment (lit "see ") ++ (TICK ++ lit "a\[i\]" ++ TICK)
    ++ _normalize_latex (lit " and \(x\)")
  /\ _normalize_latex (lit "see " ++ (FENCE ++ lit "a\[i\]" ++ FENCE) ++ lit " and \(x\)")
     = normalize_segment (lit "see ") ++ (FENCE ++ lit "a\[i\]" ++ FENCE)
       ++ _normalize_latex (lit " and \(x\)").
Proof.
  destruct (X6_normalize_skips_code (lit "see ") (lit "a\[i\]") (lit " and \(x\)")
              eq_refl eq_refl) as [H1 H2].
  split; [apply H1; discriminate | exact H2].
Defined.

(** ** Stages on other inputs *)

Lemma notify_event_returns (callback : list event -> event -> option exn)
    (name : string) (payload : list (string * pyval)) (w : World) :
  callback (events w) {| ev_name := name; ev_payload := payload |} = None ->
  notify_event (Some callback) name payload w
  = (Ok tt, logged (Some callback) [{| ev_name := name; ev_payload := payload |}] w).
Proof. unfold notify_event, logged. now intros ->. Qed.

Lemma notify_event_raises (callback : list event -> event -> option exn)
    (name : string) (payload : list (string * pyval)) (w : World) (e : exn) :
  callback (events w) {| ev_name := name; ev_payload := payload |} = Some e ->
  notify_event (Some callback) name payload w
  = (Raise e,
     logged (Some callback) [{| ev_name := name; ev_payload := payload |}] w).
Proof. unfold notify_event, logged. now intros ->. Qed.

Lemma web_research_images_inv (env : Env) (notify : Notifier) (state : SummaryState)
    (w w' : World) (u : Update) :
  web_research env notify state w = (Ok u, w') ->
  exists res new,
    tavily_search env (search_calls w) (search_query state) = inr res
    /\ por (dict_get res (lit "images") (PList [])) (PList []) = PList new
    /\ u_images u = Some (images state ++ new).
Proof.
  unfold web_research, bind, search_web, lift.
  destruct (tavily_search env (search_calls w) (search_query state)) as [e|res];
    [discriminate|].
  destruct (deduplicate_and_format_sources env res 1000) as [e|ctx];
    [discriminate|].
  unfold ret at 1.
  match goal with
  | |- context [notify_event ?n ?name ?payload ?w0] =>
      destruct (notify_event n name payload w0) as [[[]| e |] w2]
  end; [|discriminate|discriminate].
  destruct (format_sources env res) as [e|cite]; [discriminate|].
  unfold ret at 1. unfold list_add.
  destruct (por (dict_get res (lit "images") (PList [])) (PList []))
    as [| | | | |new|] eqn:Hi; try discriminate.
  intros [= <- _]. exists res, new. simpl. auto.
Qed.

Lemma other_stage_images (env : Env) (notify : Notifier) (n : node)
    (state : SummaryState) :
  n <> NWebResearch ->
  yields (run_node env notify n state) (fun u => u_images u = None).
Proof.
  intros Hn. destruct n; try congruence; simpl;
    unfold generate_query, summarize_sources, reflect_on_summary, finalize_summary;
    stage_tac; try (apply yields_ret; simpl; auto).
  apply yields_try; stage_tac; apply yields_ret; simpl; auto.
Qed.

(** X7: a web-research step leaves in the state the images it had, then the
    same images once more, then the images of the new search response: the
    stage returns the old images with the new ones and the graph adds what
    a stage returns to what the state has.  Every other step leaves the
    images as they are. *)
Theorem X7_images_accumulate (env : Env) (notify : Notifier) (n n' : node)
    (state state' : SummaryState) (w w' : World) :
  graph_step env notify (n, state) w = (Ok (n', state'), w') ->
  if is_web_research n then
    exists res new,
      tavily_search env (search_calls w) (search_query state) = inr res
      /\ por (dict_get res (lit "images") (PList [])) (PList []) = PList new
      /\ images state' = images state ++ images state ++ new
  else images state' = images state.
Proof.
  intros H. destruct (graph_step_inv _ _ _ _ _ _ _ _ H) as (u & w1 & Hrun & -> & _ & _).
  destruct (is_web_research n) eqn:Hweb.
  - destruct n; try discriminate. simpl in Hrun.
    destruct (web_research_images_inv _ _ _ _ _ _ Hrun) as (res & new & Hs & Hi & Hu).
    exists res, new. simpl. now rewrite Hu.
  - assert (Hne : n <> NWebResearch) by (intros ->; discriminate).
    simpl. now rewrite (other_stage_images env notify n state Hne _ _ _ Hrun).
Qed.

Lemma X7_images_accumulate_witness :
  exists res new,
    tavily_search (stub_env stub_reply) (search_calls fresh_world)
      (search_query stub_later_state) = inr res
    /\ por (dict_get res (lit "images") (PList [])) (PList []) = PList new
    /\ images (snd stub_web_config)
       = images stub_later_state ++ images stub_later_state ++ new.
Proof.
  apply (X7_images_accumulate (stub_env stub_reply) notifier_ok NWebResearch
           (fst stub_web_config) stub_later_state (snd stub_web_config)
           fresh_world
           (snd (graph_step (stub_env stub_reply) notifier_ok
                   (NWebResearch, stub_later_state) fresh_world))).
  vm_compute. reflexivity.
Defined.

(** X8: when the search call raises, web research raises the same
    exception without notifying and without returning an update, and a run
    that is at this stage ends with that exception; the failed call is the
    only change to the world. *)
Theorem X8_search_error_propagates (env : Env) (notify : Notifier)
    (state : SummaryState) (w : World) (e : exn) (limit : nat) :
  tavily_search env (search_calls w) (search_query state) = inl e ->
  web_research env notify state w = (Raise e, tick_search w)
  /\ graph_run env notify (S limit) (NWebResearch, state) w
     = (Raise e, tick_search w).
Proof.
  intros H.
  assert (Hw : web_research env notify state w = (Raise e, tick_search w)).
  { unfold web_research. apply bind_Raise. unfold search_web. now rewrite H. }
  split; [exact Hw|]. apply graph_run_Raise; [discriminate | exact Hw].
Qed.

Lemma X8_search_error_propagates_witness :
  web_research
    {| ainvoke := fun _ _ => inr stub_reply;
       tavily_search := fun _ _ => inl (ExternalError 3);
       json_loads := RefJson.loads;
       get_current_date := [];
       query_writer_instructions := fun _ topic => topic;
       summarizer_instructions := [];
       reflection_instructions := fun topic => topic;
       format_sources := fun _ => inr [];
       deduplicate_and_format_sources := fun _ _ => inr [] |}
    notifier_ok stub_later_state fresh_world
  = (Raise (ExternalError 3), tick_search fresh_world)
  /\ graph_run
       {| ainvoke := fun _ _ => inr stub_reply;
          tavily_search := fun _ _ => inl (ExternalError 3);
          json_loads := RefJson.loads;
          get_current_date := [];
          query_writer_instructions := fun _ topic => topic;
          summarizer_instructions := [];
          reflection_instructions := fun topic => topic;
          format_sources := fun _ => inr [];
          deduplicate_and_format_sources := fun _ _ => inr [] |}
       notifier_ok 25 (NWebResearch, stub_later_state) fresh_world
     = (Raise (ExternalError 3), tick_search fresh_world).
Proof. apply X8_search_error_propagates. reflexivity. Defined.

Lemma last_item_snoc (older : list str) (latest : str) :
  last_item (older ++ [latest]) = inr latest.
Proof. unfold last_item. now rewrite rev_app_distr. Qed.

(** X9: with no context block in the state the summarizer raises
    [IndexError] before it calls the model or the notifier. *)
Theorem X9_summarize_without_context (env : Env) (notify : Notifier)
    (state : SummaryState) (w : World) :
  web_research_results state = [] ->
  summarize_sources env notify state w = (Raise IndexError, w).
Proof.
  intros H. unfold summarize_sources. rewrite H. reflexivity.
Qed.

Lemma X9_summarize_without_context_witness :
  summarize_sources (stub_env stub_reply) notifier_ok (initial_state stub_topic)
    fresh_world
  = (Raise IndexError, fresh_world).
Proof. apply X9_summarize_without_context. reflexivity. Defined.

(** X10: the summarizer reads the most recent context block only: on a
    state with earlier blocks it does, from any world, exactly what it does
    on the state that holds the most recent block alone. *)
Theorem X10_summarize_reads_latest_block (env : Env) (notify : Notifier)
    (state : SummaryState) (older : list str) (latest : str) (w : World) :
  summarize_sources env notify (with_results state (older ++ [latest])) w
  = summarize_sources env notify (with_results state [latest]) w.
Proof.
  unfold summarize_sources. cbn [web_research_results with_results].
  now rewrite last_item_snoc.
Qed.

(** X11: when the model answers and the notifier returns, the summarizer
    sends the update prompt if there is a summary and the create prompt if
    there is none, each with the most recent context block, and returns the
    cleaned and normalized answer as the running summary, which replaces the
    earlier one when the graph merges it. *)
Theorem X11_summarize_replaces_summary (env : Env) (notify : Notifier)
    (state : SummaryState) (older : list str) (latest : str) (w : World)
    (content thoughts text : str) :
  quiet notify ->
  web_research_results state = older ++ [latest] ->
  ainvoke env (llm_calls w) (summary_messages env state latest) = inr content ->
  _strip_thinking_tokens (length content) content = Some (thoughts, text) ->
  summarize_sources env notify state w
  = (Ok (summary_update (_normalize_latex text)),
     logged notify
       [thinking_event thoughts; summarize_event (_normalize_latex text)]
       (tick_llm w))
  /\ running_summary (apply_update state (summary_update (_normalize_latex text)))
     = _normalize_latex text.
Proof.
  intros Hq Hres Hai Hs. split; [|reflexivity].
  unfold summarize_sources. rewrite Hres, last_item_snoc.
  rewrite (bind_Ok _ _ _ _ _ (lift_inr _ _)).
  fold (summary_messages env state latest).
  rewrite (bind_Ok _ _ _ _ _ (invoke_model_Ok _ _ _ _ Hai)).
  rewrite (bind_Ok _ _ _ _ _ (clean_output_Some _ _ _ _ Hs)).
  rewrite (bind_Ok _ _ _ _ _ (notify_event_quiet _ _ _ _ Hq)).
  rewrite (bind_Ok _ _ _ _ _ (notify_event_quiet _ _ _ _ Hq)).
  rewrite logged_logged. reflexivity.
Qed.

Lemma X11_summarize_replaces_summary_witness :
  summarize_sources (stub_env (lit "<think>merge</think> New summary. "))
    notifier_ok stub_later_state fresh_world
  = (Ok (summary_update (_normalize_latex (lit "New summary."))),
     logged notifier_ok
       [thinking_event (lit "merge");
        summarize_event (_normalize_latex (lit "New summary."))]
       (tick_llm fresh_world))
  /\ running_summary
       (apply_update stub_later_state
          (summary_update (_normalize_latex (lit "New summary."))))
     = _normalize_latex (lit "New summary.").
Proof.
  apply (X11_summarize_replaces_summary
           (stub_env (lit "<think>merge</think> New summary. ")) notifier_ok
           stub_later_state [] (lit "Sources: t") fresh_world
           (lit "<think>merge</think> New summary. ")).
  - intros log ev. reflexivity.
  - reflexivity.
  - reflexivity.
  - vm_compute. reflexivity.
Defined.

(** ** Reflection and query generation on other replies *)

Section ReflectionMore.

Variable env : Env.
Variables content thoughts text : str.
Hypothesis Hstrip :
  _strip_thinking_tokens (length content) content = Some (thoughts, text).

Lemma reflect_on_summary_not_object (notify : Notifier) (state : SummaryState)
    (w : World) (v : pyval) :
  quiet notify ->
  ainvoke env (llm_calls w) (reflection_messages env state) = inr content ->
  json_loads env (_normalize_latex text) = inr v ->
  is_dict v = false ->
  reflect_on_summary env notify state w
  = (Ok (fallback_update state),
     logged notify
       [thinking_event thoughts;
        reflection_event (PStr (fallback_query state)) (PStr UNABLE_GAP)]
       (tick_llm w)).
Proof.
  intros Hq Hai Hjson Hv. unfold reflect_on_summary.
  rewrite (bind_Ok _ _ _ _ _ (invoke_model_Ok _ _ _ _ Hai)).
  rewrite (bind_Ok _ _ _ _ _ (clean_output_Some _ _ _ _ Hstrip)).
  rewrite (bind_Ok _ _ _ _ _ (notify_event_quiet _ _ _ _ Hq)).
  rewrite Hjson.
  erewrite try_except_caught with (e := AttributeError);
    [ | rewrite (bind_Ok _ _ _ _ _ (lift_inr _ _)); apply bind_Raise;
        destruct v; try discriminate; reflexivity
      | reflexivity ].
  rewrite (bind_Ok _ _ _ _ _ (notify_event_quiet _ _ _ _ Hq)).
  rewrite logged_logged. reflexivity.
Qed.

Lemma reflect_on_summary_with_query (notify : Notifier) (state : SummaryState)
    (w : World) (kvs : pydict) (query : pyval) :
  quiet notify ->
  ainvoke env (llm_calls w) (reflection_messages env state) = inr content ->
  json_loads env (_normalize_latex text) = inr (PDict kvs) ->
  dict_lookup (lit "follow_up_query") kvs = Some query ->
  truthy query = true ->
  reflect_on_summary env notify state w
  = (Ok (reflection_update query (dict_get kvs (lit "knowledge_gap") (PStr []))),
     logged notify
       [thinking_event thoughts;
        reflection_event query (dict_get kvs (lit "knowledge_gap") (PStr []))]
       (tick_llm w)).
Proof.
  intros Hq Hai Hjson Hl Ht. unfold reflect_on_summary.
  rewrite (bind_Ok _ _ _ _ _ (invoke_model_Ok _ _ _ _ Hai)).
  rewrite (bind_Ok _ _ _ _ _ (clean_output_Some _ _ _ _ Hstrip)).
  rewrite (bind_Ok _ _ _ _ _ (notify_event_quiet _ _ _ _ Hq)).
  rewrite Hjson.
  assert (Hget : dict_get kvs (lit "follow_up_query") PNone = query).
  { unfold dict_get. now rewrite Hl. }
  apply try_except_Ok.
  rewrite (bind_Ok _ _ _ _ _ (lift_inr _ _)).
  unfold get_method.
  rewrite !(bind_Ok _ _ _ _ _ (lift_inr _ _)).
  rewrite Hget. unfold por. rewrite Ht.
  rewrite (bind_Ok _ _ _ _ _ (notify_event_quiet _ _ _ _ Hq)).
  rewrite logged_logged. reflexivity.
Qed.

Lemma reflect_on_summary_notifier_caught
    (callback : list event -> event -> option exn) (state : SummaryState)
    (w : World) (kvs : pydict) (e : exn) :
  ainvoke env (llm_calls w) (reflection_messages env state) = inr content ->
  json_loads env (_normalize_latex text) = inr (PDict kvs) ->
  callback (events w) (thinking_event thoughts) = None ->
  callback (events w ++ [thinking_event thoughts])
    (reflection_event (por (dict_get kvs (lit "follow_up_query") PNone) (PStr []))
       (dict_get kvs (lit "knowledge_gap") (PStr [])))
  = Some e ->
  is_Exception e = true ->
  callback
    (events w
     ++ [thinking_event thoughts;
         reflection_event
           (por (dict_get kvs (lit "follow_up_query") PNone) (PStr []))
           (dict_get kvs (lit "knowledge_gap") (PStr []))])
    (reflection_event (PStr (fallback_query state)) (PStr UNABLE_GAP))
  = None ->
  reflect_on_summary env (Some callback) state w
  = (Ok (fallback_update state),
     logged (Some callback)
       [thinking_event thoughts;
        reflection_event
          (por (dict_get kvs (lit "follow_up_query") PNone) (PStr []))
          (dict_get kvs (lit "knowledge_gap") (PStr []));
        reflection_event (PStr (fallback_query state)) (PStr UNABLE_GAP)]
       (tick_llm w)).
Proof.
  intros Hai Hjson H1 H2 He H3. unfold reflect_on_summary.
  rewrite (bind_Ok _ _ _ _ _ (invoke_model_Ok _ _ _ _ Hai)).
  rewrite (bind_Ok _ _ _ _ _ (clean_output_Some _ _ _ _ Hstrip)).
  rewrite (bind_Ok _ _ _ _ _ (notify_event_returns callback _ _ (tick_llm w) H1)).
  rewrite Hjson.
  set (w1 := logged (Some callback) [{| ev_name := "thinking";
                                        ev_payload := [("thoughts", PStr thoughts)] |}]
               (tick_llm w)).
  set (ev2 := reflection_event
                (por (dict_get kvs (lit "follow_up_query") PNone) (PStr []))
                (dict_get kvs (lit "knowledge_gap") (PStr []))) in *.
  set (ev3 := reflection_event (PStr (fallback_query state)) (PStr UNABLE_GAP)) in *.
  assert (E1 : events w1 = events w ++ [thinking_event thoughts]) by reflexivity.
  rewrite <- E1 in H2.
  assert (Hn2 : notify_event (Some callback) "reflection"
                  [("query", por (dict_get kvs (lit "follow_up_query") PNone) (PStr []));
                   ("knowledge_gap", dict_get kvs (lit "knowledge_gap") (PStr []))]
                  w1
                = (Raise e, logged (Some callback) [ev2] w1))
    by (apply notify_event_raises; exact H2).
  set (w2 := logged (Some callback) [ev2] w1) in *.
  assert (E2 : events w2 = events w ++ [thinking_event thoughts; ev2]).
  { unfold w2, logged. cbn [events]. rewrite E1, <- app_assoc. reflexivity. }
  rewrite <- E2 in H3.
  assert (Hn3 : notify_event (Some callback) "reflection"
                  [("query", PStr (TELL_ME_MORE ++ research_topic state));
                   ("knowledge_gap", PStr UNABLE_GAP)]
                  w2
                = (Ok tt, logged (Some callback) [ev3] w2))
    by (apply notify_event_returns; exact H3).
  assert (Hw : logged (Some callback) [ev3] w2
               = logged (Some callback) [thinking_event thoughts; ev2; ev3]
                   (tick_llm w)).
  { unfold w2, w1. rewrite !logged_logged. reflexivity. }
  rewrite Hw in Hn3.
  rewrite try_except_caught with (e := e) (w1 := w2); [ | | exact He].
  - rewrite (bind_Ok _ _ _ _ _ Hn3). reflexivity.
  - rewrite (bind_Ok _ _ _ _ _ (lift_inr _ _)).
    unfold get_method.
    rewrite !(bind_Ok _ _ _ _ _ (lift_inr _ _)).
    apply bind_Raise. exact Hn2.
Qed.

End ReflectionMore.

(** X12: when the cleaned reply decodes to a JSON value that is not an
    object (a list, a string, a number, null), reflection takes its
    [except] branch: it returns the templated query for the topic and no
    knowledge gap, and the notifier is told the fixed diagnostic gap. *)
Theorem X12_reflect_not_an_object (env : Env) (notify : Notifier)
    (content thoughts text : str) (state : SummaryState) (w : World) (v : pyval) :
  quiet notify ->
  ainvoke env (llm_calls w) (reflection_messages env state) = inr content ->
  _strip_thinking_tokens (length content) content = Some (thoughts, text) ->
  json_loads env (_normalize_latex text) = inr v ->
  is_dict v = false ->
  reflect_on_summary env notify state w
  = (Ok (fallback_update state),
     logged notify
       [thinking_event thoughts;
        reflection_event (PStr (TELL_ME_MORE ++ research_topic state))
          (PStr UNABLE_GAP)]
       (tick_llm w)).
Proof.
  intros Hq Hai Hs Hjson Hv.
  now apply reflect_on_summary_not_object with (content := content) (text := text) (v := v).
Qed.

Lemma X12_reflect_not_an_object_witness :
  reflect_on_summary (stub_env (lit "[1, 2]")) notifier_ok stub_later_state
    fresh_world
  = (Ok (fallback_update stub_later_state),
     logged notifier_ok
       [thinking_event [];
        reflection_event (PStr (TELL_ME_MORE ++ research_topic stub_later_state))
          (PStr UNABLE_GAP)]
       (tick_llm fresh_world)).
Proof.
  apply (X12_reflect_not_an_object (stub_env (lit "[1, 2]")) notifier_ok
           (lit "[1, 2]") [] (lit "[1, 2]") stub_later_state fresh_world
           (PList [PInt 1; PInt 2])).
  - intros log ev. reflexivity.
  - reflexivity.
  - vm_compute. reflexivity.
  - vm_compute. reflexivity.
  - reflexivity.
Defined.

(** X13: when the cleaned reply decodes to an object whose
    [follow_up_query] is a value Python counts as true, reflection returns
    that value, whatever its type, as the next search query together with
    the decoded knowledge gap (the empty string when the key is absent), and
    reports both to the notifier. *)
Theorem X13_reflect_uses_follow_up (env : Env) (notify : Notifier)
    (content thoughts text : str) (state : SummaryState) (w : World)
    (kvs : pydict) (query : pyval) :
  quiet notify ->
  ainvoke env (llm_calls w) (reflection_messages env state) = inr content ->
  _strip_thinking_tokens (length content) content = Some (thoughts, text) ->
  json_loads env (_normalize_latex text) = inr (PDict kvs) ->
  dict_lookup (lit "follow_up_query") kvs = Some query ->
  truthy query = true ->
  reflect_on_summary env notify state w
  = (Ok (reflection_update query (dict_get kvs (lit "knowledge_gap") (PStr []))),
     logged notify
       [thinking_event thoughts;
        reflection_event query (dict_get kvs (lit "knowledge_gap") (PStr []))]
       (tick_llm w))
  /\ search_query
       (apply_update state
          (reflection_update query (dict_get kvs (lit "knowledge_gap") (PStr []))))
     = query.
Proof.
  intros Hq Hai Hs Hjson Hl Ht. split; [|reflexivity].
  now apply reflect_on_summary_with_query with (content := content) (text := text).
Qed.

Lemma X13_reflect_uses_follow_up_witness :
  reflect_on_summary (stub_env stub_reply) notifier_ok stub_later_state fresh_world
  = (Ok (reflection_update (PStr (lit "remote work studies"))
           (dict_get stub_reply_object (lit "knowledge_gap") (PStr []))),
     logged notifier_ok
       [thinking_event [];
        reflection_event (PStr (lit "remote work studies"))
          (dict_get stub_reply_object (lit "knowledge_gap") (PStr []))]
       (tick_llm fresh_world))
  /\ search_query
       (apply_update stub_later_state
          (reflection_update (PStr (lit "remote work studies"))
             (dict_get stub_reply_object (lit "knowledge_gap") (PStr []))))
     = PStr (lit "remote work studies").
Proof.
  apply (X13_reflect_uses_follow_up (stub_env stub_reply) notifier_ok
           stub_reply [] stub_reply stub_later_state fresh_world
           stub_reply_object (PStr (lit "remote work studies"))).
  - intros log ev. reflexivity.
  - reflexivity.
  - vm_compute. reflexivity.
  - vm_compute. reflexivity.
  - reflexivity.
  - reflexivity.
Defined.

(** X14: an exception of class [Exception] raised by the notifier on the
    reflection event is caught by the stage's own [except]: the decoded
    follow-up query and knowledge gap are dropped, the notifier is called a
    second time with the templated query and the diagnostic gap, and when
    that call returns the stage returns the fallback update. *)
Theorem X14_reflect_catches_notifier (env : Env)
    (callback : list event -> event -> option exn)
    (content thoughts text : str) (state : SummaryState) (w : World)
    (kvs : pydict) (e : exn) :
  ainvoke env (llm_calls w) (reflection_messages env state) = inr content ->
  _strip_thinking_tokens (length content) content = Some (thoughts, text) ->
  json_loads env (_normalize_latex text) = inr (PDict kvs) ->
  callback (events w) (thinking_event thoughts) = None ->
  callback (events w ++ [thinking_event thoughts])
    (reflection_event (por (dict_get kvs (lit "follow_up_query") PNone) (PStr []))
       (dict_get kvs (lit "knowledge_gap") (PStr [])))
  = Some e ->
  is_Exception e = true ->
  callback
    (events w
     ++ [thinking_event thoughts;
         reflection_event
           (por (dict_get kvs (lit "follow_up_query") PNone) (PStr []))
           (dict_get kvs (lit "knowledge_gap") (PStr []))])
    (reflection_event (PStr (fallback_query state)) (PStr UNABLE_GAP))
  = None ->
  reflect_on_summary env (Some callback) state w
  = (Ok (fallback_update state),
     logged (Some callback)
       [thinking_event thoughts;
        reflection_event
          (por (dict_get kvs (lit "follow_up_query") PNone) (PStr []))
          (dict_get kvs (lit "knowledge_gap") (PStr []));
        reflection_event (PStr (fallback_query state)) (PStr UNABLE_GAP)]
       (tick_llm w)).
Proof.
  intros Hai Hs Hjson H1 H2 He H3.
  now apply reflect_on_summary_notifier_caught
    with (content := content) (text := text) (e := e).
Qed.

Lemma X14_reflect_catches_notifier_witness :
  reflect_on_summary (stub_env stub_reply) (Some notifier_rejecting_reflection)
    stub_later_state fresh_world
  = (Ok (fallback_update stub_later_state),
     logged (Some notifier_rejecting_reflection)
       [thinking_event [];
        reflection_event
          (por (dict_get stub_reply_object (lit "follow_up_query") PNone) (PStr []))
          (dict_get stub_reply_object (lit "knowledge_gap") (PStr []));
        reflection_event (PStr (fallback_query stub_later_state))
          (PStr UNABLE_GAP)]
       (tick_llm fresh_world)).
Proof.
  apply (X14_reflect_catches_notifier (stub_env stub_reply)
           notifier_rejecting_reflection stub_reply [] stub_reply
           stub_later_state fresh_world stub_reply_object (ExternalError 2)).
  - reflexivity.
  - vm_compute. reflexivity.
  - vm_compute. reflexivity.
  - reflexivity.
  - reflexivity.
  - reflexivity.
  - reflexivity.
Defined.


Lemma generate_query_subscript_error (env : Env) (notify : Notifier)
    (content thoughts text : str) (state : SummaryState) (w : World)
    (v : pyval) (e : exn) :
  quiet notify ->
  ainvoke env (llm_calls w) (query_messages env state) = inr content ->
  _strip_thinking_tokens (length content) content = Some (thoughts, text) ->
  json_loads env (_normalize_latex text) = inr v ->
  getitem v (lit "query") = inl e
  \/ (exists rq, getitem v (lit "query") = inr rq)
     /\ getitem v (lit "rationale") = inl e ->
  generate_query env notify state w
  = (Raise e, logged notify [thinking_event thoughts] (tick_llm w)).
Proof.
  intros Hq Hai Hs Hjson He. unfold generate_query.
  rewrite (bind_Ok _ _ _ _ _ (invoke_model_Ok _ _ _ _ Hai)).
  rewrite (bind_Ok _ _ _ _ _ (clean_output_Some _ _ _ _ Hs)).
  rewrite (bind_Ok _ _ _ _ _ (notify_event_quiet _ _ _ _ Hq)).
  rewrite Hjson. rewrite (bind_Ok _ _ _ _ _ (lift_inr _ _)).
  destruct He as [He | [[rq Hrq] He]].
  - rewrite He. apply bind_Raise. reflexivity.
  - rewrite Hrq. rewrite (bind_Ok _ _ _ _ _ (lift_inr _ _)).
    rewrite He. apply bind_Raise. reflexivity.
Qed.

(** X15: query generation needs an object with both keys.  With a notifier
    that returns, a decoded value that is not an object raises [TypeError],
    an object without ["query"] raises [KeyError] for that key, and an
    object with ["query"] and without ["rationale"] raises [KeyError] for
    ["rationale"]; each time the thinking event is the only notification,
    no generate_query event is sent, and the run ends with the same
    exception after this one model call. *)
Theorem X15_query_needs_both_keys (env : Env) (notify : Notifier)
    (content thoughts text : str) (topic : str) (w : World) (v : pyval) :
  quiet notify ->
  ainvoke env (llm_calls w) (query_messages env (initial_state topic))
  = inr content ->
  _strip_thinking_tokens (length content) content = Some (thoughts, text) ->
  json_loads env (_normalize_latex text) = inr v ->
  (is_dict v = false ->
   generate_query env notify (initial_state topic) w
   = (Raise TypeError, logged notify [thinking_event thoughts] (tick_llm w))
   /\ run_deep_research env notify topic w
      = (Raise TypeError, logged notify [thinking_event thoughts] (tick_llm w)))
  /\ (forall kvs,
         v = PDict kvs -> dict_lookup (lit "query") kvs = None ->
         generate_query env notify (initial_state topic) w
         = (Raise (KeyError (lit "query")),
            logged notify [thinking_event thoughts] (tick_llm w))
         /\ run_deep_research env notify topic w
            = (Raise (KeyError (lit "query")),
               logged notify [thinking_event thoughts] (tick_llm w)))
  /\ (forall kvs rq,
         v = PDict kvs -> dict_lookup (lit "query") kvs = Some rq ->
         dict_lookup (lit "rationale") kvs = None ->
         generate_query env notify (initial_state topic) w
         = (Raise (KeyError (lit "rationale")),
            logged notify [thinking_event thoughts] (tick_llm w))
         /\ run_deep_research env notify topic w
            = (Raise (KeyError (lit "rationale")),
               logged notify [thinking_event thoughts] (tick_llm w))).
Proof.
  intros Hq Hai Hs Hjson.
  pose proof (fun e => generate_query_subscript_error env notify content thoughts
                         text (initial_state topic) w v e Hq Hai Hs Hjson) as Hgen.
  split; [|split].
  - intros Hv.
    assert (Hg : getitem v (lit "query") = inl TypeError)
      by (destruct v; try reflexivity; discriminate).
    split; [|apply run_deep_research_Raise]; apply Hgen; now left.
  - intros kvs -> Hl.
    assert (Hg : getitem (PDict kvs) (lit "query") = inl (KeyError (lit "query")))
      by (simpl; now rewrite Hl).
    split; [|apply run_deep_research_Raise]; apply Hgen; now left.
  - intros kvs rq -> Hl Hr.
    assert (Hg : getitem (PDict kvs) (lit "query") = inr rq)
      by (simpl; now rewrite Hl).
    assert (Hg' : getitem (PDict kvs) (lit "rationale")
                  = inl (KeyError (lit "rationale")))
      by (simpl; now rewrite Hr).
    split; [|apply run_deep_research_Raise]; apply Hgen; right; eauto.
Qed.

Lemma X15_query_needs_both_keys_witness :
  run_deep_research (stub_env (lit "[1, 2]")) notifier_ok stub_topic fresh_world
  = (Raise TypeError, logged notifier_ok [thinking_event []] (tick_llm fresh_world))
  /\ run_deep_research (stub_env (lit "{}")) notifier_ok stub_topic fresh_world
     = (Raise (KeyError (lit "query")),
        logged notifier_ok [thinking_event []] (tick_llm fresh_world))
  /\ run_deep_research (stub_env stub_query_only_reply) notifier_ok stub_topic
       fresh_world
     = (Raise (KeyError (lit "rationale")),
        logged notifier_ok [thinking_event []] (tick_llm fresh_world)).
Proof.
  split; [|split].
  - refine (proj2 (proj1 (X15_query_needs_both_keys (stub_env (lit "[1, 2]"))
                            notifier_ok (lit "[1, 2]") [] (lit "[1, 2]") stub_topic
                            fresh_world (PList [PInt 1; PInt 2]) _ _ _ _) _)).
    + intros log ev. reflexivity.
    + reflexivity.
    + vm_compute. reflexivity.
    + vm_compute. reflexivity.
    + reflexivity.
  - refine (proj2 (proj1 (proj2 (X15_query_needs_both_keys (stub_env (lit "{}"))
                            notifier_ok (lit "{}") [] (lit "{}") stub_topic
                            fresh_world (PDict []) _ _ _ _)) [] _ _)).
    + intros log ev. reflexivity.
    + reflexivity.
    + vm_compute. reflexivity.
    + vm_compute. reflexivity.
    + reflexivity.
    + reflexivity.
  - refine (proj2 (proj2 (proj2 (X15_query_needs_both_keys
                            (stub_env stub_query_only_reply)
                            notifier_ok stub_query_only_reply []
                            stub_query_only_reply stub_topic
                            fresh_world
                            (PDict [(lit "query", PStr (lit "remote work"))])
                            _ _ _ _))
                     [(lit "query", PStr (lit "remote work"))]
                     (PStr (lit "remote work")) _ _ _)).
    + intros log ev. reflexivity.
    + reflexivity.
    + vm_compute. reflexivity.
    + vm_compute. reflexivity.
    + reflexivity.
    + reflexivity.
    + reflexivity.
Defined.

(** ** Whole runs *)

Lemma graph_run_O (env : Env) (notify : Notifier) (n : node) (state : SummaryState) :
  n <> END ->
  graph_run env notify 0 (n, state) = raise GraphRecursionError.
Proof. destruct n; (reflexivity || congruence). Qed.

(** What holds at the start and is kept by every step holds at the end. *)
Lemma graph_run_invariant (env : Env) (notify : Notifier)
    (P : node * SummaryState -> World -> Prop) :
  (forall n state w c' w',
      n <> END -> P (n, state) w ->
      graph_step env notify (n, state) w = (Ok c', w') -> P c' w') ->
  forall limit c w final w',
    P c w -> graph_run env notify limit c w = (Ok final, w') ->
    P (END, final) w'.
Proof.
  intros Hstep. induction limit as [|limit IH]; intros [n state] w final w' HP H.
  - destruct (node_eq_END n) as [->|Hn].
    + rewrite graph_run_END in H. now injection H as <- <-.
    + rewrite (graph_run_O _ _ _ _ Hn) in H. discriminate.
  - destruct (node_eq_END n) as [->|Hn].
    + rewrite graph_run_END in H. now injection H as <- <-.
    + rewrite (graph_run_S _ _ _ _ _ Hn) in H.
      apply bind_Ok_inv in H as (c1 & w1 & Hs & H).
      eapply IH; [|exact H]. eapply Hstep; eassumption.
Qed.

(** *** Calls *)

Lemma kcalls_ret {A} (a : A) : keeps_calls (ret a).
Proof. now intros w. Qed.

Lemma kcalls_lift {A} (r : exn + A) : keeps_calls (lift r).
Proof. destruct r; now intros w. Qed.

Lemma kcalls_bind {A B} (m : M A) (k : A -> M B) :
  keeps_calls m -> (forall a, keeps_calls (k a)) -> keeps_calls (bind m k).
Proof.
  intros Hm Hk w. unfold bind. specialize (Hm w).
  destruct (m w) as [[a| e |] w1]; simpl in *; [|assumption|assumption].
  destruct (Hk a w1) as [H1 H2]. destruct Hm as [H3 H4]. split; congruence.
Qed.

Lemma kcalls_try {A} (body handler : M A) :
  keeps_calls body -> keeps_calls handler -> keeps_calls (try_except body handler).
Proof.
  intros Hb Hh w. unfold try_except. specialize (Hb w).
  destruct (body w) as [[a| e |] w1]; simpl in *; try assumption.
  destruct (is_Exception e); simpl; [|assumption].
  destruct (Hh w1) as [H1 H2]. destruct Hb as [H3 H4]. split; congruence.
Qed.

Lemma kcalls_notify (notify : Notifier) (name : string)
    (payload : list (string * pyval)) :
  keeps_calls (notify_event notify name payload).
Proof.
  intros w. unfold notify_event. destruct notify as [f|]; [|now split].
  now destruct (f _ _).
Qed.

Lemma kcalls_clean_output (content : str) : keeps_calls (clean_output content).
Proof.
  intros w. unfold clean_output.
  now destruct (_strip_thinking_tokens _ _) as [[? ?]|].
Qed.

Lemma kcalls_mark_completed (n : node) : keeps_calls (mark_completed n).
Proof. now intros w. Qed.

#[export] Hint Resolve kcalls_ret kcalls_lift kcalls_notify kcalls_clean_output
  kcalls_mark_completed : stage.

Ltac kcalls_step :=
  match goal with
  | |- keeps_calls (bind _ _) => apply kcalls_bind; [|intros]
  | |- keeps_calls (try_except _ _) => apply kcalls_try
  | |- keeps_calls (match ?x with (_, _) => _ end) => destruct x
  | |- keeps_calls (if ?b then _ else _) => destruct b
  | |- _ => solve [auto with stage]
  end.

Lemma spends_keeps {A} (m : M A) : keeps_calls m -> spends m 0 0.
Proof.
  intros H w a w' E. specialize (H w). rewrite E in H. simpl in H. lia.
Qed.

Lemma spends_bind_r {A B} (m : M A) (k : A -> M B) (dl ds : nat) :
  spends m dl ds -> (forall a, keeps_calls (k a)) -> spends (bind m k) dl ds.
Proof.
  intros Hm Hk w b w' E. apply bind_Ok_inv in E as (a & w1 & E1 & E2).
  specialize (Hm _ _ _ E1). specialize (Hk a w1). rewrite E2 in Hk.
  simpl in Hk. lia.
Qed.

Lemma spends_bind_l {A B} (m : M A) (k : A -> M B) (dl ds : nat) :
  keeps_calls m -> (forall a, spends (k a) dl ds) -> spends (bind m k) dl ds.
Proof.
  intros Hm Hk w b w' E. apply bind_Ok_inv in E as (a & w1 & E1 & E2).
  specialize (Hm w). rewrite E1 in Hm. simpl in Hm.
  specialize (Hk _ _ _ _ E2). lia.
Qed.

Lemma spends_invoke_model (env : Env) (msgs : list message) :
  spends (invoke_model env msgs) 1 0.
Proof.
  intros w a w'. unfold invoke_model.
  destruct (ainvoke env _ _); [discriminate|]. intros [= _ <-]. simpl. lia.
Qed.

Lemma spends_search_web (env : Env) (q : pyval) : spends (search_web env q) 0 1.
Proof.
  intros w a w'. unfold search_web.
  destruct (tavily_search env _ _); [discriminate|]. intros [= _ <-]. simpl. lia.
Qed.

Lemma spends_run_node (env : Env) (notify : Notifier) (n : node)
    (state : SummaryState) :
  spends (run_node env notify n state) (llm_cost n) (search_cost n).
Proof.
  destruct n; simpl.
  - unfold generate_query. apply spends_bind_r; [apply spends_invoke_model|].
    intros; repeat kcalls_step.
  - unfold web_research. apply spends_bind_r; [apply spends_search_web|].
    intros; repeat kcalls_step.
  - unfold summarize_sources. apply spends_bind_l; [auto with stage|]. intros.
    apply spends_bind_r; [apply spends_invoke_model|].
    intros; repeat kcalls_step.
  - unfold reflect_on_summary. apply spends_bind_r; [apply spends_invoke_model|].
    intros; repeat kcalls_step.
  - apply spends_keeps. unfold finalize_summary. repeat kcalls_step.
  - apply spends_keeps. auto with stage.
Qed.

Lemma kcalls_next_node (notify : Notifier) (n : node) (state : SummaryState) :
  keeps_calls (next_node notify n state).
Proof. destruct n; simpl; unfold route_research; repeat kcalls_step. Qed.

Lemma spends_graph_step (env : Env) (notify : Notifier) (n : node)
    (state : SummaryState) :
  spends (graph_step env notify (n, state)) (llm_cost n) (search_cost n).
Proof.
  unfold graph_step. apply spends_bind_r; [apply spends_run_node|].
  intros u. repeat kcalls_step. apply kcalls_next_node.
Qed.

Lemma full_path_eq (topic : str) :
  path DEFAULT_RECURSION_LIMIT NGenerateQuery
    (research_loop_count (initial_state topic)) = full_path.
Proof. vm_compute. reflexivity. Qed.

(** A run that returns, seen as a run of the graph. *)
Lemma run_deep_research_inv (env : Env) (notify : Notifier) (topic : str)
    (w w' : World) (report : str) :
  run_deep_research env notify topic w = (Ok report, w') ->
  exists final,
    graph_run env notify DEFAULT_RECURSION_LIMIT
      (NGenerateQuery, initial_state topic) w = (Ok final, w')
    /\ report = running_summary final
    /\ completed w' = completed w ++ full_path.
Proof.
  intros H. rewrite run_deep_research_unfold in H.
  apply bind_Ok_inv in H as (final & w1 & E & H).
  injection H as <- <-. exists final. split; [exact E|]. split; [reflexivity|].
  rewrite <- (full_path_eq topic). exact (graph_run_path _ _ _ _ _ _ _ _ E).
Qed.

(** X16: a run that returns has made exactly nine model calls (one for the
    query, four for the summaries, four for the reflections) and exactly
    four search calls. *)
Theorem X16_calls_of_a_run (env : Env) (notify : Notifier) (topic : str)
    (w w' : World) (report : str) :
  run_deep_research env notify topic w = (Ok report, w') ->
  llm_calls w' = llm_calls w + 9 /\ search_calls w' = search_calls w + 4.
Proof.
  intros H. destruct (run_deep_research_inv _ _ _ _ _ _ H) as (final & E & _ & Hpath).
  pose (P := fun (c : node * SummaryState) (w1 : World) =>
    exists done,
      completed w1 = completed w ++ done
      /\ llm_calls w1 = llm_calls w + list_sum (map llm_cost done)
      /\ search_calls w1 = search_calls w + list_sum (map search_cost done)).
  assert (HP : P (END, final) w').
  { apply (graph_run_invariant env notify P) with (limit := DEFAULT_RECURSION_LIMIT)
      (c := (NGenerateQuery, initial_state topic)) (w := w); [| |exact E].
    - intros n state w1 [n' state'] w2 Hn (done & Hd & Hl & Hs) Hstep.
      destruct (graph_step_inv _ _ _ _ _ _ _ _ Hstep) as (_ & _ & _ & _ & Hc & _).
      destruct (spends_graph_step env notify n state _ _ _ Hstep) as [Hl' Hs'].
      exists (done ++ [n]). rewrite Hc, Hd, <- app_assoc.
      split; [reflexivity|].
      rewrite !map_app, !list_sum_app. simpl. lia.
    - exists []. rewrite app_nil_r. split; [reflexivity|]. simpl. lia. }
  destruct HP as (done & Hd & Hl & Hs).
  rewrite Hpath in Hd. apply app_inv_head in Hd. subst done.
  rewrite Hl, Hs. split; reflexivity.
Qed.

Lemma X16_calls_of_a_run_witness :
  llm_calls (snd (run_deep_research (stub_env stub_reply) notifier_ok stub_topic
                    fresh_world))
  = llm_calls fresh_world + 9
  /\ search_calls (snd (run_deep_research (stub_env stub_reply) notifier_ok
                          stub_topic fresh_world))
     = search_calls fresh_world + 4.
Proof.
  eapply (X16_calls_of_a_run (stub_env stub_reply) notifier_ok stub_topic
            fresh_world).
  vm_compute. reflexivity.
Defined.

(** *** The report *)

Lemma final_report_text (state : SummaryState) :
  final_report state = report_text (running_summary state) (sources_gathered state).
Proof.
  unfold final_report, report_text. rewrite fold_left_append.
  now rewrite <- !app_assoc.
Qed.

Lemma finalize_step_inv (env : Env) (notify : Notifier) (n' : node)
    (state state' : SummaryState) (w w' : World) :
  graph_step env notify (NFinalizeSummary, state) w = (Ok (n', state'), w') ->
  running_summary state' = final_report state.
Proof.
  intros H. destruct (graph_step_inv _ _ _ _ _ _ _ _ H) as (u & w1 & Hrun & -> & _).
  simpl in Hrun. unfold finalize_summary in Hrun.
  apply bind_Ok_inv in Hrun as (? & w2 & _ & Hret).
  injection Hret as <- _. reflexivity.
Qed.

(** X17: the report of a run that returns is the heading, a summary, the
    sources heading and exactly four citation blocks, each followed by a
    newline; each block is what [format_sources] made of a response of the
    search. *)
Theorem X17_report_shape (env : Env) (notify : Notifier) (topic : str)
    (w w' : World) (report : str) :
  run_deep_research env notify topic w = (Ok report, w') ->
  exists summary citations,
    report = report_text summary citations
    /\ length citations = 4
    /\ Forall (is_citation env) citations.
Proof.
  intros H. destruct (run_deep_research_inv _ _ _ _ _ _ H) as (final & E & -> & Hpath).
  pose (P := fun (c : node * SummaryState) (w1 : World) =>
    exists done,
      completed w1 = completed w ++ done
      /\ length (sources_gathered (snd c)) = rounds done
      /\ Forall (is_citation env) (sources_gathered (snd c))
      /\ (fst c = END ->
          done = []
          \/ exists summary,
               running_summary (snd c)
               = report_text summary (sources_gathered (snd c)))).
  assert (HP : P (END, final) w').
  { apply (graph_run_invariant env notify P) with (limit := DEFAULT_RECURSION_LIMIT)
      (c := (NGenerateQuery, initial_state topic)) (w := w); [| |exact E].
    - intros n state w1 [n' state'] w2 Hn (done & Hd & Hlen & Hall & _) Hstep.
      destruct (graph_step_inv _ _ _ _ _ _ _ _ Hstep) as (_ & _ & _ & _ & Hc & Hsucc).
      pose proof (graph_step_fields _ _ _ _ _ _ _ _ Hstep) as Hf.
      simpl in Hlen, Hall.
      exists (done ++ [n]). simpl. rewrite Hc, Hd, <- app_assoc, rounds_snoc.
      split; [reflexivity|].
      destruct (is_web_research n) eqn:Hweb.
      + destruct Hf as (res & ctx & cite & Hs & _ & Hfmt & _ & Hsrc & _).
        rewrite Hsrc, length_app. simpl.
        split; [lia|]. split.
        * apply Forall_app. split; [exact Hall|]. constructor; [|constructor].
          exists (search_calls w1), (search_query state), res. now split.
        * intros ->. destruct n; simpl in Hsucc; try discriminate.
      + destruct Hf as (_ & Hsrc & _). rewrite Hsrc.
        split; [lia|]. split; [exact Hall|].
        intros ->. right. destruct n; simpl in Hsucc; try discriminate.
        * destruct (research_loop_count state' <=? 3)%Z; discriminate.
        * exists (running_summary state).
          rewrite (finalize_step_inv _ _ _ _ _ _ _ Hstep).
          apply final_report_text.
        * congruence.
    - exists []. rewrite app_nil_r. simpl.
      split; [reflexivity|]. split; [reflexivity|]. split; [constructor|].
      discriminate. }
  destruct HP as (done & Hd & Hlen & Hall & Hrep). simpl in Hlen, Hall, Hrep.
  rewrite Hpath in Hd. apply app_inv_head in Hd. subst done.
  destruct (Hrep eq_refl) as [Hnil | [summary Hsum]]; [discriminate|].
  exists summary, (sources_gathered final).
  split; [exact Hsum|]. split; [exact Hlen|exact Hall].
Qed.

Lemma X17_report_shape_witness :
  exists summary citations,
    fst (run_deep_research (stub_env stub_reply) notifier_ok stub_topic fresh_world)
    = Ok (report_text summary citations)
    /\ length citations = 4
    /\ Forall (is_citation (stub_env stub_reply)) citations.
Proof.
  destruct (X17_report_shape (stub_env stub_reply) notifier_ok stub_topic
              fresh_world
              (snd (run_deep_research (stub_env stub_reply) notifier_ok stub_topic
                      fresh_world))
              (report_text stub_reply (repeat (lit "* t : u") 4)))
    as (summary & citations & Hr & Hl & Hc).
  - vm_compute. reflexivity.
  - exists summary, citations. rewrite <- Hr. split; [|split; assumption].
    vm_compute. reflexivity.
Defined.

(** *** Events *)

Lemma emits_ret {A} (a : A) : emits (ret a) [].
Proof. intros w a' w' [= _ <-]. now rewrite app_nil_r. Qed.

Lemma emits_lift {A} (r : exn + A) : emits (lift r) [].
Proof.
  destruct r; intros w a' w'; simpl; [discriminate|].
  intros [= _ <-]. now rewrite app_nil_r.
Qed.

Lemma emits_invoke_model (env : Env) (msgs : list message) :
  emits (invoke_model env msgs) [].
Proof.
  intros w a w'. unfold invoke_model.
  destruct (ainvoke env _ _); [discriminate|]. intros [= _ <-]. simpl.
  now rewrite app_nil_r.
Qed.

Lemma emits_search_web (env : Env) (q : pyval) : emits (search_web env q) [].
Proof.
  intros w a w'. unfold search_web.
  destruct (tavily_search env _ _); [discriminate|]. intros [= _ <-]. simpl.
  now rewrite app_nil_r.
Qed.

Lemma emits_clean_output (content : str) : emits (clean_output content) [].
Proof.
  intros w a w'. unfold clean_output.
  destruct (_strip_thinking_tokens _ _) as [[? ?]|]; [|discriminate].
  intros [= _ <-]. now rewrite app_nil_r.
Qed.

Lemma emits_mark_completed (n : node) : emits (mark_completed n) [].
Proof. intros w a w' [= _ <-]. simpl. now rewrite app_nil_r. Qed.

Lemma emits_bind_nil {A B} (m : M A) (k : A -> M B) (names : list string) :
  emits m [] -> (forall a, emits (k a) names) -> emits (bind m k) names.
Proof.
  intros Hm Hk w b w' E. apply bind_Ok_inv in E as (a & w1 & E1 & E2).
  rewrite (Hk _ _ _ _ E2), (Hm _ _ _ E1). now rewrite app_nil_r.
Qed.

Lemma emits_bind_notify {B} (callback : list event -> event -> option exn)
    (name : string) (payload : list (string * pyval)) (k : unit -> M B)
    (names : list string) :
  emits (k tt) names ->
  emits (bind (notify_event (Some callback) name payload) k) (name :: names).
Proof.
  intros Hk w b w' E. apply bind_Ok_inv in E as ([] & w1 & E1 & E2).
  unfold notify_event in E1. destruct (callback _ _); [discriminate|].
  injection E1 as <-. rewrite (Hk _ _ _ E2). simpl.
  rewrite map_app, <- app_assoc. reflexivity.
Qed.

Lemma emits_try {A} (body handler : M A) (names : list string) :
  emits body names -> silent_raise body -> emits handler names ->
  emits (try_except body handler) names.
Proof.
  intros Hb Hs Hh w a w' E. unfold try_except in E.
  destruct (body w) as [[a1| e |] w1] eqn:Eb.
  - injection E as <- <-. exact (Hb _ _ _ Eb).
  - destruct (is_Exception e); [|discriminate].
    rewrite (Hh _ _ _ E), (Hs _ _ _ Eb). reflexivity.
  - discriminate.
Qed.

Lemma silent_lift_bind {A B} (r : exn + A) (k : A -> M B) :
  (forall a, silent_raise (k a)) -> silent_raise (bind (lift r) k).
Proof.
  intros Hk w e w' E. destruct r as [e1|a]; simpl in E.
  - now injection E as _ <-.
  - exact (Hk _ _ _ _ E).
Qed.

Lemma silent_notify_ret {B} (notify : Notifier) (name : string)
    (payload : list (string * pyval)) (b : B) :
  quiet notify -> silent_raise (notify_event notify name payload ;;; ret b).
Proof.
  intros Hq w e w' E. unfold bind in E.
  rewrite (notify_event_quiet _ _ _ _ Hq) in E. discriminate.
Qed.

#[export] Hint Resolve emits_ret emits_lift emits_invoke_model emits_search_web
  emits_clean_output emits_mark_completed : stage.

Ltac emits_step :=
  match goal with
  | |- emits (bind (notify_event _ _ _) _) _ => apply emits_bind_notify
  | |- emits (bind _ _) _ => apply emits_bind_nil; [solve [auto with stage]|intros]
  | |- emits (match ?x with (_, _) => _ end) _ => destruct x
  | |- emits (ret _) _ => apply emits_ret
  end.

Section Events.

Variable env : Env.
Variable callback : list event -> event -> option exn.
Hypothesis callback_returns : quiet (Some callback).

Lemma emits_run_node (n : node) (state : SummaryState) :
  emits (run_node env (Some callback) n state)
    (match n with NReflectOnSummary => ["thinking"; "reflection"]
                | _ => step_events n end).
Proof.
  destruct n; simpl.
  - unfold generate_query. repeat emits_step.
  - unfold web_research. repeat emits_step.
  - unfold summarize_sources. repeat emits_step.
  - unfold reflect_on_summary. repeat emits_step.
    apply emits_try.
    + repeat emits_step.
    + repeat (apply silent_lift_bind; intros).
      apply silent_notify_ret. exact callback_returns.
    + repeat emits_step.
  - unfold finalize_summary. repeat emits_step.
  - apply emits_ret.
Qed.

Lemma emits_next_node (n : node) (state : SummaryState) :
  emits (next_node (Some callback) n state)
    (match n with NReflectOnSummary => ["routing"] | _ => [] end).
Proof.
  destruct n; simpl; try apply emits_ret.
  unfold route_research.
  destruct (research_loop_count state <=? 3)%Z; repeat emits_step.
Qed.

Lemma emits_graph_step (n : node) (state : SummaryState) :
  emits (graph_step env (Some callback) (n, state)) (step_events n).
Proof.
  intros w c w' E. unfold graph_step in E.
  apply bind_Ok_inv in E as (u & w1 & E1 & E).
  apply bind_Ok_inv in E as ([] & w2 & E2 & E).
  apply bind_Ok_inv in E as (n' & w3 & E3 & E).
  injection E as _ <-.
  rewrite (emits_next_node _ _ _ _ _ E3), (emits_mark_completed _ _ _ _ E2),
    (emits_run_node _ _ _ _ _ E1).
  rewrite app_nil_r, <- app_assoc. now destruct n.
Qed.

Lemma finalize_step_event (n' : node) (state state' : SummaryState)
    (w w' : World) :
  graph_step env (Some callback) (NFinalizeSummary, state) w
  = (Ok (n', state'), w') ->
  events w' = events w ++ [finalize_event (final_report state)
                             (firstn 2 (images state))].
Proof.
  intros E. unfold graph_step in E.
  apply bind_Ok_inv in E as (u & w1 & E1 & E).
  apply bind_Ok_inv in E as ([] & w2 & E2 & E).
  apply bind_Ok_inv in E as (n1 & w3 & E3 & E).
  injection E as _ _ <-.
  simpl in E1, E3. injection E3 as _ <-. injection E2 as <-. simpl.
  unfold finalize_summary in E1.
  apply bind_Ok_inv in E1 as ([] & w4 & E4 & E1). injection E1 as _ <-.
  rewrite (notify_event_quiet _ _ _ _ callback_returns) in E4.
  injection E4 as <-. reflexivity.
Qed.

End Events.

(** X18: with a notifier that returns, a run that returns has sent it 27
    events: the thinking and the query of the first stage; then four times
    the search, the thinking and the summary of the summarizer, the
    thinking and the reflection of the reflection stage and the routing
    decision; then the finalize event.  The finalize event comes last,
    carries the returned report and at most two images. *)
Theorem X18_events_of_a_run (env : Env)
    (callback : list event -> event -> option exn) (topic : str)
    (w w' : World) (report : str) :
  quiet (Some callback) ->
  run_deep_research env (Some callback) topic w = (Ok report, w') ->
  map ev_name (events w') = map ev_name (events w) ++ run_events
  /\ exists before imgs,
       events w' = before ++ [finalize_event report imgs]
       /\ length imgs <= 2.
Proof.
  intros Hq H.
  destruct (run_deep_research_inv _ _ _ _ _ _ H) as (final & E & -> & Hpath).
  pose (P := fun (c : node * SummaryState) (w1 : World) =>
    exists done,
      completed w1 = completed w ++ done
      /\ map ev_name (events w1)
         = map ev_name (events w) ++ concat (map step_events done)
      /\ (fst c = END ->
          done = []
          \/ exists before imgs,
               events w1 = before ++ [finalize_event (running_summary (snd c)) imgs]
               /\ length imgs <= 2)).
  assert (HP : P (END, final) w').
  { apply (graph_run_invariant env (Some callback) P)
      with (limit := DEFAULT_RECURSION_LIMIT)
           (c := (NGenerateQuery, initial_state topic)) (w := w); [| |exact E].
    - intros n state w1 [n' state'] w2 Hn (done & Hd & Hev & _) Hstep.
      destruct (graph_step_inv _ _ _ _ _ _ _ _ Hstep) as (_ & _ & _ & _ & Hc & Hsucc).
      exists (done ++ [n]). simpl. rewrite Hc, Hd, <- app_assoc.
      split; [reflexivity|]. split.
      + rewrite (emits_graph_step env callback Hq _ _ _ _ _ Hstep), Hev.
        rewrite map_app, concat_app. simpl.
        now rewrite app_nil_r, <- app_assoc.
      + intros ->. right. destruct n; simpl in Hsucc; try discriminate.
        * destruct (research_loop_count state' <=? 3)%Z; discriminate.
        * exists (events w1), (firstn 2 (images state)).
          rewrite (finalize_step_inv _ _ _ _ _ _ _ Hstep).
          split; [exact (finalize_step_event env callback Hq _ _ _ _ _ Hstep)|].
          apply firstn_le_length.
        * congruence.
    - exists []. rewrite !app_nil_r. simpl.
      split; [reflexivity|]. split; [reflexivity|]. discriminate. }
  destruct HP as (done & Hd & Hev & Hfin). simpl in Hfin.
  rewrite Hpath in Hd. apply app_inv_head in Hd. subst done.
  split; [exact Hev|].
  destruct (Hfin eq_refl) as [Hnil|Hlast]; [discriminate|exact Hlast].
Qed.

Lemma X18_events_of_a_run_witness :
  map ev_name
    (events (snd (run_deep_research (stub_env stub_reply) notifier_ok stub_topic
                    fresh_world)))
  = map ev_name (events fresh_world) ++ run_events.
Proof.
  refine (proj1 (X18_events_of_a_run (stub_env stub_reply) (fun _ _ => None)
                   stub_topic fresh_world _
                   (report_text stub_reply (repeat (lit "* t : u") 4)) _ _)).
  - intros log ev. reflexivity.
  - vm_compute. reflexivity.
Defined.

(** ** Order of effects in the search stage *)

Lemma search_web_Ok (env : Env) (q : pyval) (w : World) (res : pydict) :
  tavily_search env (search_calls w) q = inr res ->
  search_web env q w = (Ok res, tick_search w).
Proof. unfold search_web. now intros ->. Qed.

(** X19: the search stage sends its event after the context block is built
    and before the citation is formatted: when the formatter of the context
    block raises, the error leaves the stage with no event sent; when the
    formatter of the citation raises, the error leaves the stage after the
    notifier has received the event of the search. *)
Theorem X19_search_event_before_citation (env : Env) (notify : Notifier)
    (state : SummaryState) (w : World) (res : pydict) (e : exn) :
  quiet notify ->
  tavily_search env (search_calls w) (search_query state) = inr res ->
  (deduplicate_and_format_sources env res 1000 = inl e ->
   web_research env notify state w = (Raise e, tick_search w))
  /\ (forall ctx,
        deduplicate_and_format_sources env res 1000 = inr ctx ->
        format_sources env res = inl e ->
        web_research env notify state w
        = (Raise e, logged notify [web_research_event res] (tick_search w))).
Proof.
  intros Hq Hs. split.
  - intros Hd. unfold web_research.
    rewrite (bind_Ok _ _ _ _ _ (search_web_Ok _ _ _ _ Hs)).
    rewrite Hd. reflexivity.
  - intros ctx Hd Hf. unfold web_research.
    rewrite (bind_Ok _ _ _ _ _ (search_web_Ok _ _ _ _ Hs)).
    rewrite Hd, (bind_Ok _ _ _ _ _ (lift_inr _ _)).
    rewrite (bind_Ok _ _ _ _ _ (notify_event_quiet _ _ _ _ Hq)).
    rewrite Hf. reflexivity.
Qed.

Lemma X19_search_event_before_citation_witness :
  web_research stub_env_bad_format notifier_ok stub_later_state fresh_world
  = (Raise (ExternalError 7),
     logged notifier_ok [web_research_event stub_search_result]
       (tick_search fresh_world)).
Proof.
  refine (proj2 (X19_search_event_before_citation stub_env_bad_format notifier_ok
                   stub_later_state fresh_world stub_search_result
                   (ExternalError 7) _ _) (lit "Sources: t") _ _).
  - intros log ev. reflexivity.
  - reflexivity.
  - reflexivity.
  - reflexivity.
Defined.

(** X20: when the response of the search holds under [images] a value that
    is true and is not a list, the stage raises [TypeError] while it builds
    its update, after the event was sent and the citation formatted. *)
Theorem X20_search_images_not_a_list (env : Env) (notify : Notifier)
    (state : SummaryState) (w : World) (res : pydict) (ctx cite : str) :
  quiet notify ->
  tavily_search env (search_calls w) (search_query state) = inr res ->
  deduplicate_and_format_sources env res 1000 = inr ctx ->
  format_sources env res = inr cite ->
  is_list (response_images res) = false ->
  web_research env notify state w
  = (Raise TypeError, logged notify [web_research_event res] (tick_search w)).
Proof.
  intros Hq Hs Hd Hf Hl. unfold web_research.
  rewrite (bind_Ok _ _ _ _ _ (search_web_Ok _ _ _ _ Hs)).
  rewrite Hd, (bind_Ok _ _ _ _ _ (lift_inr _ _)).
  rewrite (bind_Ok _ _ _ _ _ (notify_event_quiet _ _ _ _ Hq)).
  rewrite Hf, (bind_Ok _ _ _ _ _ (lift_inr _ _)).
  fold (response_images res).
  unfold web_research_event.
  destruct (response_images res); try discriminate; reflexivity.
Qed.

Lemma X20_search_images_not_a_list_witness :
  web_research stub_env_bad_images notifier_ok stub_later_state fresh_world
  = (Raise TypeError,
     logged notifier_ok [web_research_event [(lit "images", PStr (lit "u1"))]]
       (tick_search fresh_world)).
Proof.
  apply (X20_search_images_not_a_list stub_env_bad_images notifier_ok
           stub_later_state fresh_world [(lit "images", PStr (lit "u1"))]
           (lit "Sources: t") (lit "* t : u")).
  - intros log ev. reflexivity.
  - reflexivity.
  - reflexivity.
  - reflexivity.
  - reflexivity.
Defined.
